(** * terraform-provider-betteruptime: outgoing webhooks and the IP-list lookup

    A shallow embedding of [internal/provider/data_ip_list.go] and of the
    outgoing-webhook resource (schema, validation, record mapper and CRUD
    handlers), with the properties the specification states about them.

    Conventions.
    - A Go [error] is the text of its message.
    - A call that can panic ends in an [outcome]: its result, or the panic.
    - A Go pointer field ([*string], [*bool]) is an [option]; [nil] is [None].
    - [&in.Field] is a field selector ([fieldRef]) with a getter and a setter.
    - Go maps are stdpp [gmap]s; the order in which [range] visits a map is
      chosen by the runtime and is a parameter of the model.
    - The Terraform plugin SDK ([schema.ResourceData], [diag], [validation])
      is an external library; module [schema] below models the operations
      the handlers call.
    - The [context.Context] argument of the handlers carries no data the
      handlers read and is left out. *)

From Stdlib Require Import ZArith String Ascii List.
From stdpp Require Import base option list gmap strings pretty.

Set Warnings "-register-all".

(** ** Diagnostics (package [diag] of the SDK) *)

Module diag.

Record Diagnostic := { Summary : string }.

Definition Diagnostics := list Diagnostic.

Definition FromErr (err : string) : Diagnostics := [ {| Summary := err |} ].

(** [diag.Errorf] after formatting: the caller passes the formatted text. *)
Definition Errorf (msg : string) : Diagnostics := [ {| Summary := msg |} ].

End diag.

(** ** How a call ends

    A Go call returns its result or panics, as an unchecked type assertion
    does on a value of another type. *)

Inductive outcome (A : Type) :=
| Returns (a : A)
| Panics (msg : string).

Arguments Returns {A} a.
Arguments Panics {A} msg.

(** ** The SDK's resource data *)

Module schema.

(** One item of the nested [headers_template] list. *)
Record headerBlock := { hb_name : string; hb_value : string }.

(** One item of the nested [custom_webhook_template_attributes] list, as
    [d.Get] returns it: a map holding every key of the nested schema. *)
Record templateBlock := {
  tb_id : string;
  tb_http_method : string;
  tb_auth_username : string;
  tb_auth_password : string;
  tb_headers_template : list headerBlock;
  tb_body_template : string;
}.

(** Values stored in the resource data, after the SDK normalised them. *)
Inductive value :=
| VString (s : string)
| VBool (b : bool)
| VStrings (l : list string)
| VTemplates (l : list templateBlock).

(** The shape a schema entry gives to its attribute. *)
Inductive shape := SString | SBool | SStrings | STemplates.

Global Instance headerBlock_eq_dec : EqDecision headerBlock.
Proof. solve_decision. Defined.
Global Instance templateBlock_eq_dec : EqDecision templateBlock.
Proof. solve_decision. Defined.
Global Instance value_eq_dec : EqDecision value.
Proof. solve_decision. Defined.
Global Instance shape_eq_dec : EqDecision shape.
Proof. solve_decision. Defined.

Definition zero (t : shape) : value :=
  match t with
  | SString => VString ""
  | SBool => VBool false
  | SStrings => VStrings []
  | STemplates => VTemplates []
  end.

Definition shapeOf (v : value) : shape :=
  match v with
  | VString _ => SString
  | VBool _ => SBool
  | VStrings _ => SStrings
  | VTemplates _ => STemplates
  end.

(** What Go code hands to [d.Set] as an [interface{}]. *)
Inductive iface :=
| INil
| IString (s : string)
| IOther (repr : string).

Record rawHeader := { rh_name : string; rh_value : string }.

(** The [map[string]interface{}] literal a handler builds for one template
    block; [rt_headers_template = None] when the key is not in the map. *)
Record rawTemplate := {
  rt_id : option string;
  rt_http_method : option string;
  rt_auth_username : option string;
  rt_auth_password : option string;
  rt_body_template : iface;
  rt_headers_template : option (list rawHeader);
}.

Inductive goval :=
| GStringPtr (p : option string)
| GBoolPtr (p : option bool)
| GStrings (l : list string)
| GTemplates (l : list rawTemplate).

Record ResourceData := {
  types : gmap string shape;      (* the resource's schema, by key *)
  id : string;                    (* d.Id() *)
  state : gmap string value;      (* the prior state *)
  attrs : gmap string value;      (* the current values *)
}.

Definition zeroOf (d : ResourceData) (k : string) : value :=
  match types d !! k with
  | Some t => zero t
  | None => VString ""
  end.

(** [d.Get(k)]: the value, or the zero value of the key's type. *)
Definition Get (d : ResourceData) (k : string) : value :=
  default (zeroOf d k) (attrs d !! k).

(** [d.GetOk(k)]: the value, and whether it is set to a non-zero value. *)
Definition GetOk (d : ResourceData) (k : string) : value * bool :=
  (Get d k, bool_decide (is_Some (attrs d !! k)) && negb (bool_decide (Get d k = zeroOf d k))).

(** [d.GetOkExists(k)]: the value, and whether it is set at all. *)
Definition GetOkExists (d : ResourceData) (k : string) : value * bool :=
  (Get d k, bool_decide (is_Some (attrs d !! k))).

(** [d.GetChange(k)] and [d.HasChange(k)]: prior state against current. *)
Definition GetChange (d : ResourceData) (k : string) : value * value :=
  (default (zeroOf d k) (state d !! k), Get d k).

Definition HasChange (d : ResourceData) (k : string) : bool :=
  negb (bool_decide ((GetChange d k).1 = (GetChange d k).2)).

Definition Id (d : ResourceData) : string := id d.

(** [d.SetId(v)]: the ID and, with it, the attribute [id] where the schema
    declares one. *)
Definition SetId (v : string) (d : ResourceData) : ResourceData :=
  {| types := types d; id := v; state := state d;
     attrs := match types d !! "id" with
              | Some _ => <["id" := VString v]> (attrs d)
              | None => attrs d
              end |}.

(** The items of a list of strings as [d.Get] hands them over in a
    [[]interface{}]: an empty string arrives as nil, any other string as
    itself. *)
Definition itemOf (s : string) : iface :=
  if bool_decide (s = "") then INil else IString s.

Definition ifaceString (v : iface) : option string :=
  match v with
  | INil => Some ""
  | IString s => Some s
  | IOther _ => None
  end.

Definition normHeader (h : rawHeader) : headerBlock :=
  {| hb_name := rh_name h; hb_value := rh_value h |}.

Definition normTemplate (t : rawTemplate) : option templateBlock :=
  body ← ifaceString (rt_body_template t);
  Some {| tb_id := default "" (rt_id t);
          tb_http_method := default "" (rt_http_method t);
          tb_auth_username := default "" (rt_auth_username t);
          tb_auth_password := default "" (rt_auth_password t);
          tb_headers_template := normHeader <$> default [] (rt_headers_template t);
          tb_body_template := body |}.

(** The field writer: a nil pointer writes the zero value, a pointer is
    dereferenced, and a value of the wrong type is refused. *)
Definition normalise (t : shape) (v : goval) : option value :=
  match t, v with
  | SString, GStringPtr p => Some (VString (default "" p))
  | SBool, GBoolPtr p => Some (VBool (default false p))
  | SStrings, GStrings l => Some (VStrings l)
  | STemplates, GTemplates l => VTemplates <$> mapM normTemplate l
  | _, _ => None
  end.

(** [d.Set(k, v)]: the error, if any, and the resource data afterwards. A key
    that the schema does not declare, or a value of another type than the
    schema's, is an error and writes nothing (the texts of the two errors
    stand for the SDK's). *)
Definition Set_ (k : string) (v : goval) (d : ResourceData) : option string * ResourceData :=
  match types d !! k with
  | None => (Some ("Invalid address to set: " +:+ k), d)
  | Some t =>
      match normalise t v with
      | None => (Some (k +:+ ": invalid value"), d)
      | Some w =>
          (None, {| types := types d; id := id d; state := state d;
                    attrs := <[k := w]> (attrs d) |})
      end
  end.

(** A schema entry ([schema.Schema]); [Description] is documentation and is
    left out. [Elem] is the nested resource's schema, when there is one. *)
Inductive ValueType := TypeBool | TypeString | TypeList.

Inductive Schema := mkSchema {
  Type_ : ValueType;
  Optional : bool;
  Required : bool;
  Computed : bool;
  ForceNew : bool;
  Sensitive : bool;
  Default : option value;
  MaxItems : nat;
  DiffSuppressFunc : option (string → string → string → ResourceData → bool);
  ValidateFunc : option (iface → string → list string * list string);
  Elem : option (list (string * Schema));
}.

Definition entry (ty : ValueType) : Schema :=
  {| Type_ := ty; Optional := false; Required := false; Computed := false;
     ForceNew := false; Sensitive := false; Default := None; MaxItems := 0;
     DiffSuppressFunc := None; ValidateFunc := None; Elem := None |}.

Definition optional (s : Schema) : Schema :=
  mkSchema (Type_ s) true (Required s) (Computed s) (ForceNew s) (Sensitive s)
           (Default s) (MaxItems s) (DiffSuppressFunc s) (ValidateFunc s) (Elem s).
Definition required (s : Schema) : Schema :=
  mkSchema (Type_ s) (Optional s) true (Computed s) (ForceNew s) (Sensitive s)
           (Default s) (MaxItems s) (DiffSuppressFunc s) (ValidateFunc s) (Elem s).
Definition computed (s : Schema) : Schema :=
  mkSchema (Type_ s) (Optional s) (Required s) true (ForceNew s) (Sensitive s)
           (Default s) (MaxItems s) (DiffSuppressFunc s) (ValidateFunc s) (Elem s).
Definition forceNew (s : Schema) : Schema :=
  mkSchema (Type_ s) (Optional s) (Required s) (Computed s) true (Sensitive s)
           (Default s) (MaxItems s) (DiffSuppressFunc s) (ValidateFunc s) (Elem s).
Definition sensitive (s : Schema) : Schema :=
  mkSchema (Type_ s) (Optional s) (Required s) (Computed s) (ForceNew s) true
           (Default s) (MaxItems s) (DiffSuppressFunc s) (ValidateFunc s) (Elem s).
Definition withDefault (v : value) (s : Schema) : Schema :=
  mkSchema (Type_ s) (Optional s) (Required s) (Computed s) (ForceNew s) (Sensitive s)
           (Some v) (MaxItems s) (DiffSuppressFunc s) (ValidateFunc s) (Elem s).
Definition maxItems (n : nat) (s : Schema) : Schema :=
  mkSchema (Type_ s) (Optional s) (Required s) (Computed s) (ForceNew s) (Sensitive s)
           (Default s) n (DiffSuppressFunc s) (ValidateFunc s) (Elem s).
Definition diffSuppress (f : string → string → string → ResourceData → bool) (s : Schema) : Schema :=
  mkSchema (Type_ s) (Optional s) (Required s) (Computed s) (ForceNew s) (Sensitive s)
           (Default s) (MaxItems s) (Some f) (ValidateFunc s) (Elem s).
Definition validate (f : iface → string → list string * list string) (s : Schema) : Schema :=
  mkSchema (Type_ s) (Optional s) (Required s) (Computed s) (ForceNew s) (Sensitive s)
           (Default s) (MaxItems s) (DiffSuppressFunc s) (Some f) (Elem s).
Definition elem (r : list (string * Schema)) (s : Schema) : Schema :=
  mkSchema (Type_ s) (Optional s) (Required s) (Computed s) (ForceNew s) (Sensitive s)
           (Default s) (MaxItems s) (DiffSuppressFunc s) (ValidateFunc s) (Some r).

(** The entry declared under a key of a schema map. *)
Fixpoint entryOf (k : string) (m : list (string * Schema)) : option Schema :=
  match m with
  | [] => None
  | (k', s) :: m' => if bool_decide (k' = k) then Some s else entryOf k m'
  end.

(** The shape of the values a top-level entry holds: a list with a nested
    resource holds blocks, a list without holds strings. *)
Definition shapeOfSchema (s : Schema) : shape :=
  match Type_ s, Elem s with
  | TypeBool, _ => SBool
  | TypeString, _ => SString
  | TypeList, Some _ => STemplates
  | TypeList, None => SStrings
  end.

Definition shapes (m : list (string * Schema)) : gmap string shape :=
  list_to_map (prod_map (λ k, k) shapeOfSchema <$> m).

End schema.

(** ** HTTP

    What the handlers see of [net/http]: a request either fails in
    transport or yields a response with a status code, the URL of its
    request and a body to read. *)

Module http.

Definition StatusOK : Z := 200.

Inductive readResult :=
| ReadOk (data : string)
| ReadErr (err : string).

Record Response := {
  StatusCode : Z;
  RequestURL : string;       (* res.Request.URL.String() *)
  Body : readResult;         (* what io.ReadAll(res.Body) returns *)
}.

End http.

(** Modelled from the spec: the type [client] and its method [Get] are
    declared in a file that is not among the sources. The spec has every
    operation issue "a single synchronous HTTP request", whose failure is
    "any non-2xx HTTP response or transport error". The client answers
    each request from [remote] and keeps the log of the paths it has
    requested, so that the number of requests an operation makes can be
    read off. *)
Record client := {
  remote : string → string + http.Response;
  sent : list string;
}.

(** Modelled from the spec: the client's [Get(ctx, path)]: one request, whose
    outcome the remote side decides. *)
Definition client_Get (c : client) (path : string) : (string + http.Response) * client :=
  (remote c path, {| remote := remote c; sent := sent c ++ [path] |}).

(** ** data_ip_list.go *)

Section ip_list.

(** [json.Unmarshal(body, &ipData)] for [ipData : map[string][]string]. *)
Variable json_Unmarshal : string → string + gmap string (list string).

(** The order in which [range ipData] visits the entries; the runtime
    picks it anew at each loop, so that two calls may differ in it. *)
Variable rangeOrder : gmap string (list string) → list (string * list string).

(** [cluster.(string)]: the string, or none where the assertion panics. *)
Definition assertString (v : schema.iface) : option string :=
  match v with
  | schema.IString s => Some s
  | _ => None
  end.

(** [filterClusters[cluster.(string)] = true] for each requested cluster,
    once each is asserted to be a string. *)
Definition makeFilter (requestedClusters : list string) : gmap string bool :=
  foldl (λ filterClusters cluster, <[cluster := true]> filterClusters) ∅ requestedClusters.

(** The body of the [range ipData] loop. *)
Definition ipListStep (filterClusters : gmap string bool)
    (acc : list string * list string) (e : string * list string) : list string * list string :=
  let '(filteredIPs, allClusters) := acc in
  let '(cluster, ips) := e in
  let filteredIPs :=
    if bool_decide (size filterClusters = 0) || default false (filterClusters !! cluster)
    then filteredIPs ++ ips else filteredIPs in
  (filteredIPs, allClusters ++ [cluster]).

Definition ipListFilter (ipData : gmap string (list string)) (requestedClusters : list string)
    : list string * list string :=
  foldl (ipListStep (makeFilter requestedClusters)) ([], []) (rangeOrder ipData).

(** [d.Get("filter_clusters").([]interface{})]: the items of the list, or
    none where the value is no list and the assertion panics. *)
Definition requestedClustersOf (d : schema.ResourceData) : option (list schema.iface) :=
  match schema.Get d "filter_clusters" with
  | schema.VStrings l => Some (schema.itemOf <$> l)
  | _ => None
  end.

(** The lookup: how the call ends (the diagnostics it returns, or a panic),
    and the resource data and the client as it leaves them. The first loop
    fills a map that is local to the call, so that its assertions are made
    for the whole list before the map is built from the strings. The text
    of the first panic stands for the runtime's, which names the type of
    the value found. *)
Definition ipListLookup (d : schema.ResourceData) (meta : client)
    : outcome diag.Diagnostics * schema.ResourceData * client :=
  let '(r, meta) := client_Get meta "/ips-by-cluster.json" in
  match r with
  | inl err => (Returns (diag.FromErr err), d, meta)
  | inr res =>
      match http.Body res with
      | http.ReadErr err => (Returns (diag.FromErr err), d, meta)
      | http.ReadOk body =>
          if negb (bool_decide (http.StatusCode res = http.StatusOK)) then
            (Returns (diag.Errorf ("GET " +:+ http.RequestURL res +:+ " returned "
                                     +:+ pretty (http.StatusCode res) +:+ ": " +:+ body)),
             d, meta)
          else
            match json_Unmarshal body with
            | inl err => (Returns (diag.FromErr err), d, meta)
            | inr ipData =>
                match requestedClustersOf d with
                | None =>
                    (Panics "interface conversion: interface {} is not []interface {}", d, meta)
                | Some requestedClusters =>
                    match mapM assertString requestedClusters with
                    | None =>
                        (Panics "interface conversion: interface {} is nil, not string",
                         d, meta)
                    | Some requestedClusters =>
                        let '(filteredIPs, allClusters) :=
                          ipListFilter ipData requestedClusters in
                        let d := schema.SetId "betterstack_ip_list" d in
                        match schema.Set_ "ips" (schema.GStrings filteredIPs) d with
                        | (Some err, d) => (Returns (diag.FromErr err), d, meta)
                        | (None, d) =>
                            match schema.Set_ "all_clusters" (schema.GStrings allClusters) d with
                            | (Some err, d) => (Returns (diag.FromErr err), d, meta)
                            | (None, d) => (Returns [], d, meta)
                            end
                        end
                    end
                end
            end
      end
  end.

End ip_list.

(** Modelled from the spec: [ipListSchema] is declared in a file that is not
    among the sources; the spec lists the input [filter_clusters] (list of
    strings) and the outputs [ips] and [all_clusters] (lists of strings). *)
Definition ipListSchema : gmap string schema.shape :=
  {[ "filter_clusters" := schema.SStrings;
     "ips" := schema.SStrings;
     "all_clusters" := schema.SStrings ]}.

(** ** JSON documents and their comparison

    The documents that the diff suppression of [body_template] compares
    (see [suppressEquivalentJSONDiffs] below): a lexer that skips the
    whitespace between tokens, a parser that builds objects as maps from
    keys to values, and the deep comparison of two documents. Numbers and
    string literals are kept, and compared, by their text. *)

Module json.

Inductive token :=
| TLBrace | TRBrace | TLBrack | TRBrack | TColon | TComma
| TString (s : string)
| TNumber (s : string)
| TTrue | TFalse | TNull.

Inductive t :=
| Null
| Bool (b : bool)
| Number (lit : string)
| Str (s : string)
| Array (elems : list t)
| Object (members : list (string * t)).

Definition is_ws (c : ascii) : bool :=
  bool_decide (c = " "%char) || bool_decide (c = "009"%char)
  || bool_decide (c = "010"%char) || bool_decide (c = "013"%char).

Definition is_digit (c : ascii) : bool :=
  (48 <=? nat_of_ascii c) && (nat_of_ascii c <=? 57).

Definition is_num (c : ascii) : bool :=
  is_digit c || bool_decide (c = "-"%char) || bool_decide (c = "+"%char)
  || bool_decide (c = "."%char) || bool_decide (c = "e"%char) || bool_decide (c = "E"%char).

Definition quote : ascii := "034"%char.
Definition backslash : ascii := "\"%char.

(** The text of a string literal, escapes kept as written, up to the
    closing quote; and the rest of the input. *)
Fixpoint lexString (s : string) : option (string * string) :=
  match s with
  | EmptyString => None
  | String c s' =>
      if bool_decide (c = quote) then Some (EmptyString, s')
      else if bool_decide (c = backslash) then
        match s' with
        | EmptyString => None
        | String e s'' =>
            match lexString s'' with
            | Some (body, rest) => Some (String c (String e body), rest)
            | None => None
            end
        end
      else
        match lexString s' with
        | Some (body, rest) => Some (String c body, rest)
        | None => None
        end
  end.

(** The longest run of number characters. *)
Fixpoint lexNumber (s : string) : string * string :=
  match s with
  | EmptyString => (EmptyString, EmptyString)
  | String c s' =>
      if is_num c then let '(n, rest) := lexNumber s' in (String c n, rest)
      else (EmptyString, s)
  end.

Fixpoint dropPrefix (p s : string) : option string :=
  match p, s with
  | EmptyString, _ => Some s
  | String a p', String b s' => if bool_decide (a = b) then dropPrefix p' s' else None
  | String _ _, EmptyString => None
  end.

Definition cons_tok (x : token) (r : option (list token)) : option (list token) :=
  cons x <$> r.

Fixpoint lex (fuel : nat) (s : string) : option (list token) :=
  match fuel with
  | 0 => None
  | S fuel =>
      match s with
      | EmptyString => Some []
      | String c s' =>
          if is_ws c then lex fuel s'
          else if bool_decide (c = "{"%char) then cons_tok TLBrace (lex fuel s')
          else if bool_decide (c = "}"%char) then cons_tok TRBrace (lex fuel s')
          else if bool_decide (c = "["%char) then cons_tok TLBrack (lex fuel s')
          else if bool_decide (c = "]"%char) then cons_tok TRBrack (lex fuel s')
          else if bool_decide (c = ":"%char) then cons_tok TColon (lex fuel s')
          else if bool_decide (c = ","%char) then cons_tok TComma (lex fuel s')
          else if bool_decide (c = quote) then
            match lexString s' with
            | Some (body, rest) => cons_tok (TString body) (lex fuel rest)
            | None => None
            end
          else if is_num c then
            let '(n, rest) := lexNumber s in cons_tok (TNumber n) (lex fuel rest)
          else
            match dropPrefix "true" s, dropPrefix "false" s, dropPrefix "null" s with
            | Some rest, _, _ => cons_tok TTrue (lex fuel rest)
            | _, Some rest, _ => cons_tok TFalse (lex fuel rest)
            | _, _, Some rest => cons_tok TNull (lex fuel rest)
            | _, _, _ => None
            end
      end
  end.

(** [m[k] = v] on an object under construction: a repeated key keeps its
    place and takes the later value. *)
Fixpoint setKey (k : string) (v : t) (m : list (string * t)) : list (string * t) :=
  match m with
  | [] => [(k, v)]
  | (k', v') :: m' => if bool_decide (k' = k) then (k, v) :: m' else (k', v') :: setKey k v m'
  end.

Fixpoint getKey (k : string) (m : list (string * t)) : option t :=
  match m with
  | [] => None
  | (k', v') :: m' => if bool_decide (k' = k) then Some v' else getKey k m'
  end.

Fixpoint parseValue (fuel : nat) (ts : list token) : option (t * list token) :=
  match fuel with
  | 0 => None
  | S fuel =>
      match ts with
      | TNull :: r => Some (Null, r)
      | TTrue :: r => Some (Bool true, r)
      | TFalse :: r => Some (Bool false, r)
      | TNumber n :: r => Some (Number n, r)
      | TString s :: r => Some (Str s, r)
      | TLBrack :: TRBrack :: r => Some (Array [], r)
      | TLBrack :: r =>
          match parseValue fuel r with
          | Some (v, r) => parseElems fuel [v] r
          | None => None
          end
      | TLBrace :: TRBrace :: r => Some (Object [], r)
      | TLBrace :: TString k :: TColon :: r =>
          match parseValue fuel r with
          | Some (v, r) => parseMembers fuel [(k, v)] r
          | None => None
          end
      | _ => None
      end
  end
with parseElems (fuel : nat) (acc : list t) (ts : list token) : option (t * list token) :=
  match fuel with
  | 0 => None
  | S fuel =>
      match ts with
      | TRBrack :: r => Some (Array acc, r)
      | TComma :: r =>
          match parseValue fuel r with
          | Some (v, r) => parseElems fuel (acc ++ [v]) r
          | None => None
          end
      | _ => None
      end
  end
with parseMembers (fuel : nat) (acc : list (string * t)) (ts : list token) : option (t * list token) :=
  match fuel with
  | 0 => None
  | S fuel =>
      match ts with
      | TRBrace :: r => Some (Object acc, r)
      | TComma :: TString k :: TColon :: r =>
          match parseValue fuel r with
          | Some (v, r) => parseMembers fuel (setKey k v acc) r
          | None => None
          end
      | _ => None
      end
  end.

(** A text is a JSON document when it is one value and nothing else. *)
Definition parse (s : string) : option t :=
  match lex (S (String.length s)) s with
  | Some ts =>
      match parseValue (S (length ts)) ts with
      | Some (v, []) => Some v
      | _ => None
      end
  | None => None
  end.

(** Deep equality of two documents: arrays position by position, objects
    as maps (same number of keys, and every key of the one bound to an
    equal value in the other). *)
Fixpoint equal (a b : t) : bool :=
  match a, b with
  | Null, Null => true
  | Bool x, Bool y => bool_decide (x = y)
  | Number x, Number y => bool_decide (x = y)
  | Str x, Str y => bool_decide (x = y)
  | Array xs, Array ys =>
      (fix go (xs ys : list t) : bool :=
         match xs, ys with
         | [], [] => true
         | x :: xs, y :: ys => equal x y && go xs ys
         | _, _ => false
         end) xs ys
  | Object ms, Object ns =>
      bool_decide (length ms = length ns)
      && (fix go (ms : list (string * t)) : bool :=
            match ms with
            | [] => true
            | (k, v) :: ms =>
                match getKey k ns with
                | Some w => equal v w && go ms
                | None => false
                end
            end) ms
  | _, _ => false
  end.

(** *** Writing a document

    A document is written as its tokens, with any whitespace before each
    token and after the last. *)

Definition spell (x : token) : string :=
  match x with
  | TLBrace => "{"
  | TRBrace => "}"
  | TLBrack => "["
  | TRBrack => "]"
  | TColon => ":"
  | TComma => ","
  | TString s => String quote (s +:+ String quote EmptyString)
  | TNumber s => s
  | TTrue => "true"
  | TFalse => "false"
  | TNull => "null"
  end.

Fixpoint emit (v : t) : list token :=
  match v with
  | Null => [TNull]
  | Bool true => [TTrue]
  | Bool false => [TFalse]
  | Number n => [TNumber n]
  | Str s => [TString s]
  | Array [] => [TLBrack; TRBrack]
  | Array (x :: elems) =>
      TLBrack :: emit x
      ++ (fix rest (l : list t) : list token :=
            match l with
            | [] => []
            | y :: l => TComma :: emit y ++ rest l
            end) elems
      ++ [TRBrack]
  | Object [] => [TLBrace; TRBrace]
  | Object ((k, x) :: members) =>
      TLBrace :: TString k :: TColon :: emit x
      ++ (fix rest (l : list (string * t)) : list token :=
            match l with
            | [] => []
            | (k, y) :: l => TComma :: TString k :: TColon :: emit y ++ rest l
            end) members
      ++ [TRBrace]
  end.

(** [gap i] is the whitespace written before the token at position [i]
    (after the last token, for [i] the number of tokens). *)
Fixpoint render (gap : nat → string) (i : nat) (ts : list token) : string :=
  match ts with
  | [] => gap i
  | x :: ts => gap i +:+ spell x +:+ render gap (S i) ts
  end.

Definition write (gap : nat → string) (v : t) : string := render gap 0 (emit v).

Fixpoint allWs (s : string) : bool :=
  match s with
  | EmptyString => true
  | String c s => is_ws c && allWs s
  end.

(** The text of a string literal: no quote but after a backslash, and no
    backslash left alone at the end. *)
Fixpoint rawOk (s : string) : bool :=
  match s with
  | EmptyString => true
  | String c s' =>
      if bool_decide (c = quote) then false
      else if bool_decide (c = backslash) then
        match s' with
        | EmptyString => false
        | String _ s'' => rawOk s''
        end
      else rawOk s'
  end.

Fixpoint allNum (s : string) : bool :=
  match s with
  | EmptyString => true
  | String c s => is_num c && allNum s
  end.

(** The text of a number: not empty, and made of number characters. *)
Definition numOk (s : string) : bool :=
  match s with
  | EmptyString => false
  | String _ _ => allNum s
  end.

(** A document that can be written: its literals are well formed and no
    object repeats a key. *)
Fixpoint wf (v : t) : bool :=
  match v with
  | Null | Bool _ => true
  | Number n => numOk n
  | Str s => rawOk s
  | Array elems => forallb wf elems
  | Object members =>
      bool_decide (NoDup members.*1)
      && forallb (λ kv, rawOk kv.1 && wf kv.2) members
  end.

(** [reorder a b]: [b] is [a] with the members of its objects, at any
    depth, written in another order. *)
Inductive reorder : t → t → Prop :=
| reorder_null : reorder Null Null
| reorder_bool b : reorder (Bool b) (Bool b)
| reorder_number n : reorder (Number n) (Number n)
| reorder_str s : reorder (Str s) (Str s)
| reorder_array l l' :
    Forall2 reorder l l' → reorder (Array l) (Array l')
| reorder_object m m' m'' :
    Forall2 (λ a b, a.1 = b.1 ∧ reorder a.2 b.2) m m' →
    m' ≡ₚ m'' →
    reorder (Object m) (Object m'').

(** *** Auxiliary notions for reading a written document back *)

Definition startsNum (s : string) : bool :=
  match s with
  | String c _ => is_num c
  | EmptyString => false
  end.

Definition isNumber (x : token) : bool :=
  match x with
  | TNumber _ => true
  | _ => false
  end.

Definition tokOk (x : token) : bool :=
  match x with
  | TString s => rawOk s
  | TNumber n => numOk n
  | _ => true
  end.

(** No number is written directly before another number. *)
Fixpoint sep (ts : list token) : bool :=
  match ts with
  | [] => true
  | x :: r =>
      negb (isNumber x && match r with y :: _ => isNumber y | [] => false end) && sep r
  end.

Definition headNotNumber (ts : list token) : bool :=
  match ts with
  | x :: _ => negb (isNumber x)
  | [] => true
  end.

Definition emitElems (l : list t) : list token :=
  flat_map (λ y, TComma :: emit y) l.

Definition emitMembers (l : list (string * t)) : list token :=
  flat_map (λ kv, TComma :: TString kv.1 :: TColon :: emit kv.2) l.

(** The first token of a value is never a closing bracket. *)
Definition startsValue (ts : list token) : bool :=
  match ts with
  | (TNull | TTrue | TFalse | TNumber _ | TString _ | TLBrack | TLBrace) :: _ => true
  | _ => false
  end.

Definition readsBack (v : t) : Prop :=
  ∀ fuel rest, length (emit v) < fuel → parseValue fuel (emit v ++ rest) = Some (v, rest).

End json.

(** Modelled from the spec: [suppressEquivalentJSONDiffs], the function the
    schema installs as [DiffSuppressFunc] of [body_template], is declared in
    a file that is not among the sources. The spec describes it as
    "JSON-equivalence diff suppression": "treating two syntactically
    different but semantically equivalent values (e.g., differently
    formatted JSON) as unchanged", so that "a body_template differing only
    in JSON key order/whitespace produces no diff". The model reads both
    texts as JSON documents and compares the documents; a text that is not
    a JSON document is never suppressed. *)
Definition suppressEquivalentJSONDiffs (k old new : string) (d : schema.ResourceData) : bool :=
  match json.parse old, json.parse new with
  | Some a, Some b => json.equal a b
  | _, _ => false
  end.

(** ** Package [validation] of the SDK *)

Module validation.

Definition lower (c : ascii) : ascii :=
  let n := nat_of_ascii c in
  if (65 <=? n) && (n <=? 90) then ascii_of_nat (n + 32) else c.

(** [strings.EqualFold], on ASCII letters. *)
Fixpoint EqualFold (a b : string) : bool :=
  match a, b with
  | EmptyString, EmptyString => true
  | String x a', String y b' => bool_decide (lower x = lower y) && EqualFold a' b'
  | _, _ => false
  end.

(** [%q] of a list of strings that need no escaping. *)
Definition quoted (l : list string) : string :=
  "[" +:+ String.concat " " ((λ s, String json.quote s +:+ String json.quote EmptyString) <$> l) +:+ "]".

Fixpoint inSlice (valid : list string) (ignoreCase : bool) (v : string) : bool :=
  match valid with
  | [] => false
  | str :: valid' =>
      if bool_decide (v = str) || (ignoreCase && EqualFold v str) then true
      else inSlice valid' ignoreCase v
  end.

(** [validation.StringInSlice(valid, ignoreCase)]: warnings and errors. *)
Definition StringInSlice (valid : list string) (ignoreCase : bool)
    (i : schema.iface) (k : string) : list string * list string :=
  match i with
  | schema.IString v =>
      if inSlice valid ignoreCase v then ([], [])
      else ([], ["expected " +:+ k +:+ " to be one of " +:+ quoted valid +:+ ", got " +:+ v])
  | _ => ([], ["expected type of " +:+ k +:+ " to be string"])
  end.

End validation.

(** ** The outgoing-webhook resource *)

Definition outgoingWebhookTemplateSchema : list (string * schema.Schema) :=
  [ ("id", schema.computed (schema.entry schema.TypeString));
    ("http_method",
      schema.withDefault (schema.VString "post") (schema.optional (schema.entry schema.TypeString)));
    ("auth_username", schema.optional (schema.entry schema.TypeString));
    ("auth_password", schema.sensitive (schema.optional (schema.entry schema.TypeString)));
    ("headers_template",
      schema.elem
        [ ("name", schema.required (schema.entry schema.TypeString));
          ("value", schema.required (schema.entry schema.TypeString)) ]
        (schema.optional (schema.entry schema.TypeList)));
    ("body_template",
      schema.diffSuppress suppressEquivalentJSONDiffs
        (schema.optional (schema.entry schema.TypeString))) ].

Definition outgoingWebhookSchema : list (string * schema.Schema) :=
  [ ("team_name",
      schema.diffSuppress (λ k old new d, negb (bool_decide (schema.Id d = "")))
        (schema.optional (schema.entry schema.TypeString)));
    ("id", schema.computed (schema.entry schema.TypeString));
    ("name", schema.optional (schema.entry schema.TypeString));
    ("url", schema.required (schema.entry schema.TypeString));
    ("trigger_type",
      schema.validate
        (validation.StringInSlice ["incident_change"; "on_call_change"; "monitor_change"] false)
        (schema.forceNew (schema.required (schema.entry schema.TypeString))));
    ("on_incident_started",
      schema.withDefault (schema.VBool false) (schema.optional (schema.entry schema.TypeBool)));
    ("on_incident_acknowledged",
      schema.withDefault (schema.VBool false) (schema.optional (schema.entry schema.TypeBool)));
    ("on_incident_resolved",
      schema.withDefault (schema.VBool false) (schema.optional (schema.entry schema.TypeBool)));
    ("custom_webhook_template_attributes",
      schema.elem outgoingWebhookTemplateSchema
        (schema.maxItems 1 (schema.optional (schema.entry schema.TypeList)))) ].

Record headerTemplate := {
  HeaderName : string;      (* Name,  json:"name" *)
  HeaderValue : string;     (* Value, json:"value" *)
}.

Record customWebhookTemplateAttributes := {
  TemplateID : option string;               (* ID, json:"id,omitempty" *)
  HTTPMethod : option string;
  AuthUsername : option string;
  AuthPassword : option string;
  HeaderTemplate : list headerTemplate;
  BodyTemplate : schema.iface;
}.

Record outgoingWebhook := {
  ID : option string;
  Name : option string;
  URL : option string;
  TriggerType : option string;
  OnIncidentStarted : option bool;
  OnIncidentAcknowledged : option bool;
  OnIncidentResolved : option bool;
  CustomWebhookTemplateAttributes : option customWebhookTemplateAttributes;
  TeamName : option string;
}.

(** [var in outgoingWebhook]: every pointer nil. *)
Definition emptyWebhook : outgoingWebhook :=
  {| ID := None; Name := None; URL := None; TriggerType := None;
     OnIncidentStarted := None; OnIncidentAcknowledged := None; OnIncidentResolved := None;
     CustomWebhookTemplateAttributes := None; TeamName := None |}.

(** [template := &customWebhookTemplateAttributes{}]. *)
Definition emptyTemplate : customWebhookTemplateAttributes :=
  {| TemplateID := None; HTTPMethod := None; AuthUsername := None; AuthPassword := None;
     HeaderTemplate := []; BodyTemplate := schema.INil |}.

Record outgoingWebhookHTTPResponse := {
  DataID : string;                   (* Data.ID *)
  DataAttributes : outgoingWebhook;  (* Data.Attributes *)
}.

(** A pointer to one of the basic fields of an [outgoingWebhook]. *)
Inductive fieldRef :=
| RefID | RefName | RefURL | RefTriggerType
| RefOnIncidentStarted | RefOnIncidentAcknowledged | RefOnIncidentResolved
| RefTeamName.

Global Instance fieldRef_eq_dec : EqDecision fieldRef.
Proof. solve_decision. Defined.

(** [*v]: the pointer stored in the field, as [d.Set] receives it. *)
Definition deref (v : fieldRef) (in_ : outgoingWebhook) : schema.goval :=
  match v with
  | RefID => schema.GStringPtr (ID in_)
  | RefName => schema.GStringPtr (Name in_)
  | RefURL => schema.GStringPtr (URL in_)
  | RefTriggerType => schema.GStringPtr (TriggerType in_)
  | RefOnIncidentStarted => schema.GBoolPtr (OnIncidentStarted in_)
  | RefOnIncidentAcknowledged => schema.GBoolPtr (OnIncidentAcknowledged in_)
  | RefOnIncidentResolved => schema.GBoolPtr (OnIncidentResolved in_)
  | RefTeamName => schema.GStringPtr (TeamName in_)
  end.

(** [*v = &t] for a string field; a boolean field is left alone. *)
Definition storeString (v : fieldRef) (t : string) (in_ : outgoingWebhook) : outgoingWebhook :=
  let 'Build_outgoingWebhook i n u g s a r c tn := in_ in
  match v with
  | RefID => Build_outgoingWebhook (Some t) n u g s a r c tn
  | RefName => Build_outgoingWebhook i (Some t) u g s a r c tn
  | RefURL => Build_outgoingWebhook i n (Some t) g s a r c tn
  | RefTriggerType => Build_outgoingWebhook i n u (Some t) s a r c tn
  | RefTeamName => Build_outgoingWebhook i n u g s a r c (Some t)
  | _ => in_
  end.

(** [*v = &t] for a boolean field; a string field is left alone. *)
Definition storeBool (v : fieldRef) (t : bool) (in_ : outgoingWebhook) : outgoingWebhook :=
  let 'Build_outgoingWebhook i n u g s a r c tn := in_ in
  match v with
  | RefOnIncidentStarted => Build_outgoingWebhook i n u g (Some t) a r c tn
  | RefOnIncidentAcknowledged => Build_outgoingWebhook i n u g s (Some t) r c tn
  | RefOnIncidentResolved => Build_outgoingWebhook i n u g s a (Some t) c tn
  | _ => in_
  end.

Definition setTemplate (c : option customWebhookTemplateAttributes) (in_ : outgoingWebhook)
    : outgoingWebhook :=
  let 'Build_outgoingWebhook i n u g s a r _ tn := in_ in
  Build_outgoingWebhook i n u g s a r c tn.

(** The type switch of [load]: [**string] or [**bool]. *)
Definition refShape (v : fieldRef) : schema.shape :=
  match v with
  | RefOnIncidentStarted | RefOnIncidentAcknowledged | RefOnIncidentResolved => schema.SBool
  | _ => schema.SString
  end.

(** Modelled from the spec: the helper [load] is declared in a file that is
    not among the sources. The spec's record mapper "converts between the
    declarative field map and a JSON request/response struct"; [load] is its
    step for one field: when the key is set in the resource data, the
    receiver is made to point at a copy of the value, and otherwise it is
    left as it was. *)
Definition load (d : schema.ResourceData) (key : string) (receiver : fieldRef)
    (in_ : outgoingWebhook) : outgoingWebhook :=
  match refShape receiver, schema.GetOkExists d key with
  | schema.SString, (schema.VString t, true) => storeString receiver t in_
  | schema.SBool, (schema.VBool t, true) => storeBool receiver t in_
  | _, _ => in_
  end.

Definition getString (d : schema.ResourceData) (k : string) : string :=
  match schema.Get d k with
  | schema.VString s => s
  | _ => ""
  end.

(** [validateOutgoingWebhook]: the loop over [incidentFields], which returns
    at the first offending field. *)
Fixpoint validateIncidentFields (triggerType : string) (d : schema.ResourceData)
    (incidentFields : list string) : option string :=
  match incidentFields with
  | [] => None
  | field :: rest =>
      match schema.GetOk d field with
      | (schema.VBool true, true) =>
          if negb (bool_decide (triggerType = "incident_change")) then
            Some (field +:+ " can only be set when trigger_type is 'incident_change'")
          else validateIncidentFields triggerType d rest
      | _ => validateIncidentFields triggerType d rest
      end
  end.

Definition validateOutgoingWebhook (d : schema.ResourceData) : option string :=
  let triggerType := getString d "trigger_type" in
  let incidentFields :=
    ["on_incident_started"; "on_incident_acknowledged"; "on_incident_resolved"] in
  validateIncidentFields triggerType d incidentFields.

(** [outgoingWebhookRef(in, triggerType)]: the keys and the fields of [in]
    they are mapped to. *)
Definition outgoingWebhookRef (triggerType : string) : list (string * fieldRef) :=
  let refs :=
    [ ("id", RefID); ("name", RefName); ("url", RefURL); ("trigger_type", RefTriggerType) ] in
  if bool_decide (triggerType = "incident_change") then
    refs ++ [ ("on_incident_started", RefOnIncidentStarted);
              ("on_incident_acknowledged", RefOnIncidentAcknowledged);
              ("on_incident_resolved", RefOnIncidentResolved) ]
  else refs.

(** [attrs[k].(string)] on a block of [custom_webhook_template_attributes]. *)
Definition attrString (attrs : schema.templateBlock) (k : string) : option string :=
  if bool_decide (k = "id") then Some (schema.tb_id attrs)
  else if bool_decide (k = "http_method") then Some (schema.tb_http_method attrs)
  else if bool_decide (k = "auth_username") then Some (schema.tb_auth_username attrs)
  else if bool_decide (k = "auth_password") then Some (schema.tb_auth_password attrs)
  else if bool_decide (k = "body_template") then Some (schema.tb_body_template attrs)
  else None.

(** [attrs[k].([]interface{})]. *)
Definition attrList (attrs : schema.templateBlock) (k : string) : option (list schema.headerBlock) :=
  if bool_decide (k = "headers_template") then Some (schema.tb_headers_template attrs) else None.

(** The template the create and update handlers build from the first block
    (the two handlers repeat the same statements). *)
Definition templateOfAttrs (attrs : schema.templateBlock) : customWebhookTemplateAttributes :=
  let template := emptyTemplate in
  let template :=
    match attrString attrs "http_method" with
    | Some method =>
        {| TemplateID := TemplateID template; HTTPMethod := Some method;
           AuthUsername := AuthUsername template; AuthPassword := AuthPassword template;
           HeaderTemplate := HeaderTemplate template; BodyTemplate := BodyTemplate template |}
    | None => template
    end in
  let template :=
    match attrString attrs "auth_username" with
    | Some user =>
        {| TemplateID := TemplateID template; HTTPMethod := HTTPMethod template;
           AuthUsername := Some user; AuthPassword := AuthPassword template;
           HeaderTemplate := HeaderTemplate template; BodyTemplate := BodyTemplate template |}
    | None => template
    end in
  let template :=
    match attrString attrs "auth_password" with
    | Some pass =>
        {| TemplateID := TemplateID template; HTTPMethod := HTTPMethod template;
           AuthUsername := AuthUsername template; AuthPassword := Some pass;
           HeaderTemplate := HeaderTemplate template; BodyTemplate := BodyTemplate template |}
    | None => template
    end in
  let template :=
    match attrList attrs "headers_template" with
    | Some headers =>
        {| TemplateID := TemplateID template; HTTPMethod := HTTPMethod template;
           AuthUsername := AuthUsername template; AuthPassword := AuthPassword template;
           HeaderTemplate :=
             (λ header, {| HeaderName := schema.hb_name header;
                           HeaderValue := schema.hb_value header |}) <$> headers;
           BodyTemplate := BodyTemplate template |}
    | None => template
    end in
  match attrString attrs "body_template" with
  | Some body =>
      {| TemplateID := TemplateID template; HTTPMethod := HTTPMethod template;
         AuthUsername := AuthUsername template; AuthPassword := AuthPassword template;
         HeaderTemplate := HeaderTemplate template; BodyTemplate := schema.IString body |}
  | None => template
  end.

(** [if v, ok := d.GetOk("custom_webhook_template_attributes");
     ok && len(v.([]interface{})) > 0 { ... in.CustomWebhookTemplateAttributes = template }]. *)
Definition loadTemplate (d : schema.ResourceData) (in_ : outgoingWebhook) : outgoingWebhook :=
  match schema.GetOk d "custom_webhook_template_attributes" with
  | (schema.VTemplates (attrs :: _), true) => setTemplate (Some (templateOfAttrs attrs)) in_
  | _ => in_
  end.

(** The request body of the create handler. *)
Definition outgoingWebhookCreateRequest (d : schema.ResourceData) : outgoingWebhook :=
  let triggerType := getString d "trigger_type" in
  let in_ := foldl (λ in_ e, load d e.1 e.2 in_) emptyWebhook (outgoingWebhookRef triggerType) in
  let in_ := load d "team_name" RefTeamName in_ in
  loadTemplate d in_.

(** The [map[string]interface{}] that [outgoingWebhookCopyAttrs] builds. *)
Definition templateMap (c : customWebhookTemplateAttributes) : schema.rawTemplate :=
  {| schema.rt_id := TemplateID c;
     schema.rt_http_method := HTTPMethod c;
     schema.rt_auth_username := AuthUsername c;
     schema.rt_auth_password := AuthPassword c;
     schema.rt_body_template := BodyTemplate c;
     schema.rt_headers_template :=
       if bool_decide (0 < length (HeaderTemplate c)) then
         Some ((λ h, {| schema.rh_name := HeaderName h; schema.rh_value := HeaderValue h |})
                 <$> HeaderTemplate c)
       else None |}.

(** One [d.Set] of [outgoingWebhookCopyAttrs], appending its error. *)
Definition setField (k : string) (v : schema.goval)
    (acc : diag.Diagnostics * schema.ResourceData) : diag.Diagnostics * schema.ResourceData :=
  match schema.Set_ k v acc.2 with
  | (Some err, d) => (acc.1 ++ diag.FromErr err, d)
  | (None, d) => (acc.1, d)
  end.

Definition outgoingWebhookCopyAttrs (d : schema.ResourceData) (in_ : outgoingWebhook)
    : diag.Diagnostics * schema.ResourceData :=
  let triggerType := default "" (TriggerType in_) in
  let acc :=
    foldl (λ acc e, setField e.1 (deref e.2 in_) acc) ([], d) (outgoingWebhookRef triggerType) in
  match CustomWebhookTemplateAttributes in_ with
  | Some c =>
      setField "custom_webhook_template_attributes" (schema.GTemplates [templateMap c]) acc
  | None => acc
  end.

(** The request body of the update handler: a basic field is loaded only
    when it has changed, the template only when its block has. *)
Definition outgoingWebhookUpdateRequest (d : schema.ResourceData) : outgoingWebhook :=
  let triggerType := getString d "trigger_type" in
  let in_ :=
    foldl (λ in_ e, if schema.HasChange d e.1 then load d e.1 e.2 in_ else in_)
          emptyWebhook (outgoingWebhookRef triggerType) in
  if schema.HasChange d "custom_webhook_template_attributes" then loadTemplate d in_ else in_.

(** What [json.Marshal] writes for a request body: the members of the JSON
    object, a nil pointer left out by [omitempty]. *)
Inductive member :=
| MString (s : string)
| MBool (b : bool)
| MTemplate (c : customWebhookTemplateAttributes).

Definition omitempty {A} (k : string) (f : A → member) (p : option A) : list (string * member) :=
  match p with
  | Some x => [(k, f x)]
  | None => []
  end.

Definition marshal (in_ : outgoingWebhook) : list (string * member) :=
  omitempty "id" MString (ID in_)
  ++ omitempty "name" MString (Name in_)
  ++ omitempty "url" MString (URL in_)
  ++ omitempty "trigger_type" MString (TriggerType in_)
  ++ omitempty "on_incident_started" MBool (OnIncidentStarted in_)
  ++ omitempty "on_incident_acknowledged" MBool (OnIncidentAcknowledged in_)
  ++ omitempty "on_incident_resolved" MBool (OnIncidentResolved in_)
  ++ omitempty "custom_webhook_template_attributes" MTemplate (CustomWebhookTemplateAttributes in_)
  ++ omitempty "team_name" MString (TeamName in_).

Section handlers.

(** The repository's HTTP helpers and [url.PathEscape], which are not
    among the sources: each helper sends the request body it is given and
    returns its diagnostics and the decoded response; [resourceRead] also
    returns whether the resource was found. *)
Variable resourceCreate :
  client → string → outgoingWebhook → diag.Diagnostics * outgoingWebhookHTTPResponse.
Variable resourceRead :
  client → string → diag.Diagnostics * bool * outgoingWebhookHTTPResponse.
Variable resourceUpdate :
  client → string → outgoingWebhook → diag.Diagnostics * outgoingWebhookHTTPResponse.
Variable resourceDelete : client → string → diag.Diagnostics.
Variable PathEscape : string → string.

Definition outgoingWebhookCreate (d : schema.ResourceData) (meta : client)
    : diag.Diagnostics * schema.ResourceData :=
  let in_ := outgoingWebhookCreateRequest d in
  match resourceCreate meta "/api/v2/outgoing-webhooks" in_ with
  | ((_ :: _) as err, _) => (err, d)
  | ([], out) =>
      let d := schema.SetId (DataID out) d in
      outgoingWebhookCopyAttrs d (DataAttributes out)
  end.

Definition outgoingWebhookRead (d : schema.ResourceData) (meta : client)
    : diag.Diagnostics * schema.ResourceData :=
  match resourceRead meta ("/api/v2/outgoing-webhooks/" +:+ PathEscape (schema.Id d)) with
  | ((_ :: _) as err, _, _) => (err, d)
  | ([], false, _) => ([], schema.SetId "" d)
  | ([], true, out) => outgoingWebhookCopyAttrs d (DataAttributes out)
  end.

Definition outgoingWebhookUpdate (d : schema.ResourceData) (meta : client)
    : diag.Diagnostics :=
  let in_ := outgoingWebhookUpdateRequest d in
  (resourceUpdate meta ("/api/v2/outgoing-webhooks/" +:+ PathEscape (schema.Id d)) in_).1.

Definition outgoingWebhookDelete (d : schema.ResourceData) (meta : client)
    : diag.Diagnostics :=
  resourceDelete meta ("/api/v2/outgoing-webhooks/" +:+ PathEscape (schema.Id d)).

End handlers.

(** ** How the SDK consults a schema entry *)

(** Whether the diff of the attribute under [key] is suppressed: the entry's
    [DiffSuppressFunc], when it has one, decides; with none, no diff is
    suppressed. *)
Definition diffSuppressed (m : list (string * schema.Schema)) (key : string)
    (k old new : string) (d : schema.ResourceData) : bool :=
  match schema.entryOf key m with
  | Some s =>
      match schema.DiffSuppressFunc s with
      | Some f => f k old new d
      | None => false
      end
  | None => false
  end.

(** The schema of the nested resource under [key]. *)
Definition nestedSchema (m : list (string * schema.Schema)) (key : string)
    : list (string * schema.Schema) :=
  match schema.entryOf key m with
  | Some s => default [] (schema.Elem s)
  | None => []
  end.

(** The three incident-trigger flags. *)
Definition incidentFields : list string :=
  ["on_incident_started"; "on_incident_acknowledged"; "on_incident_resolved"].

(** A flag is set when the record holds [true] for it. *)
Definition flagSet (d : schema.ResourceData) (field : string) : Prop :=
  schema.Get d field = schema.VBool true.

Global Instance flagSet_dec (d : schema.ResourceData) (field : string) :
  Decision (flagSet d field).
Proof. unfold flagSet. apply _. Defined.

(** The key under which [json.Marshal] writes the field a reference points
    to (the field's [json] tag). *)
Definition jsonKey (v : fieldRef) : string :=
  match v with
  | RefID => "id"
  | RefName => "name"
  | RefURL => "url"
  | RefTriggerType => "trigger_type"
  | RefOnIncidentStarted => "on_incident_started"
  | RefOnIncidentAcknowledged => "on_incident_acknowledged"
  | RefOnIncidentResolved => "on_incident_resolved"
  | RefTeamName => "team_name"
  end.

(** The keys of a marshalled request body. *)
Definition payloadKeys (in_ : outgoingWebhook) : list string := (marshal in_).*1.

(** ** Notions the statements use *)

Definition incidentError (field : string) : string :=
  field +:+ " can only be set when trigger_type is 'incident_change'".

Definition isNil (v : schema.goval) : Prop :=
  match v with
  | schema.GStringPtr None | schema.GBoolPtr None => True
  | _ => False
  end.

(** The condition of the loop: [len(filterClusters) == 0 || filterClusters[cluster]]. *)
Definition selects (requestedClusters : list string) (e : string * list string) : Prop :=
  requestedClusters = [] ∨ e.1 ∈ requestedClusters.

Global Instance selects_dec (requestedClusters : list string) (e : string * list string) :
  Decision (selects requestedClusters e).
Proof. unfold selects. apply _. Defined.

(** Every stored attribute is declared in the schema and has the shape the
    schema gives it. *)
Definition wellTyped (d : schema.ResourceData) : Prop :=
  map_Forall (λ k v, schema.types d !! k = Some (schema.shapeOf v)) (schema.attrs d).

(** The template block of a record supplied for creation: at most one item
    ([MaxItems: 1]), whose computed [id] is not set yet. *)
Definition templateDeclared (v : schema.value) : Prop :=
  match v with
  | schema.VTemplates l => length l ≤ 1 ∧ Forall (λ attrs, schema.tb_id attrs = "") l
  | _ => True
  end.

(** A record of the outgoing-webhook resource as the SDK hands it to the
    create handler: typed by [outgoingWebhookSchema]. Every valid
    combination of the declarative fields is such a record. *)
Definition wellFormed (d : schema.ResourceData) : Prop :=
  schema.types d = schema.shapes outgoingWebhookSchema
  ∧ wellTyped d
  ∧ templateDeclared (schema.Get d "custom_webhook_template_attributes").


(** ** Example records, clients and documents *)

Definition exampleOnCallFlagged : schema.ResourceData :=
  {| schema.types := schema.shapes outgoingWebhookSchema;
     schema.id := "";
     schema.state := ∅;
     schema.attrs :=
       {[ "url" := schema.VString "https://example.com/hook";
          "trigger_type" := schema.VString "on_call_change";
          "on_incident_resolved" := schema.VBool true ]} |}.

Definition exampleIncident : schema.ResourceData :=
  {| schema.types := schema.shapes outgoingWebhookSchema;
     schema.id := "";
     schema.state := ∅;
     schema.attrs :=
       {[ "name" := schema.VString "pager";
          "url" := schema.VString "https://example.com/hook";
          "trigger_type" := schema.VString "incident_change";
          "on_incident_started" := schema.VBool true;
          "on_incident_resolved" := schema.VBool false ]} |}.

Definition exampleUpdate : schema.ResourceData :=
  {| schema.types := schema.shapes outgoingWebhookSchema;
     schema.id := "17";
     schema.state :=
       {[ "id" := schema.VString "17";
          "name" := schema.VString "pager";
          "url" := schema.VString "https://example.com/hook";
          "trigger_type" := schema.VString "incident_change";
          "on_incident_started" := schema.VBool true ]};
     schema.attrs :=
       {[ "id" := schema.VString "17";
          "name" := schema.VString "pager duty";
          "url" := schema.VString "https://example.com/hook";
          "trigger_type" := schema.VString "incident_change";
          "on_incident_started" := schema.VBool true;
          "on_incident_resolved" := schema.VBool true ]} |}.

Definition exampleClient : client :=
  {| remote := λ _, inl "connection refused"; sent := [] |}.

Definition exampleResponse : outgoingWebhookHTTPResponse :=
  {| DataID := ""; DataAttributes := emptyWebhook |}.

(** A [resourceRead] whose remote resource is gone. *)
Definition readGone (meta : client) (url : string)
    : diag.Diagnostics * bool * outgoingWebhookHTTPResponse :=
  ([], false, exampleResponse).

Definition exampleIpData : gmap string (list string) :=
  {[ "eu" := ["10.0.0.1"; "10.0.0.2"]; "us" := ["10.1.0.1"] ]}.

(** The body of a response listing the clusters [eu] and [us]. *)
Definition exampleIpBody : string :=
  let q := String json.quote EmptyString in
  "{" +:+ q +:+ "eu" +:+ q +:+ ":[" +:+ q +:+ "10.0.0.1" +:+ q +:+ "," +:+ q +:+ "10.0.0.2"
  +:+ q +:+ "]," +:+ q +:+ "us" +:+ q +:+ ":[" +:+ q +:+ "10.1.0.1" +:+ q +:+ "]}".

(** A decoder that knows this one body. *)
Definition exampleUnmarshal (body : string) : string + gmap string (list string) :=
  if bool_decide (body = exampleIpBody) then inr exampleIpData else inl "invalid character".

Definition exampleIpResponse (status : Z) (body : string) : http.Response :=
  {| http.StatusCode := status;
     http.RequestURL := "https://uptime.betterstack.com/ips-by-cluster.json";
     http.Body := http.ReadOk body |}.

Definition exampleIpClient (status : Z) (body : string) : client :=
  {| remote := λ _, inr (exampleIpResponse status body); sent := [] |}.

Definition exampleIpQuery (filter_clusters : list string) : schema.ResourceData :=
  {| schema.types := ipListSchema;
     schema.id := "";
     schema.state := ∅;
     schema.attrs := {[ "filter_clusters" := schema.VStrings filter_clusters ]} |}.

Definition exampleTemplated : schema.ResourceData :=
  {| schema.types := schema.shapes outgoingWebhookSchema;
     schema.id := "";
     schema.state := ∅;
     schema.attrs :=
       {[ "team_name" := schema.VString "ops";
          "url" := schema.VString "https://example.com/hook";
          "trigger_type" := schema.VString "incident_change";
          "on_incident_started" := schema.VBool true;
          "on_incident_acknowledged" := schema.VBool false;
          "custom_webhook_template_attributes" :=
            schema.VTemplates
              [ {| schema.tb_id := "";
                   schema.tb_http_method := "post";
                   schema.tb_auth_username := "bot";
                   schema.tb_auth_password := "";
                   schema.tb_headers_template :=
                     [ {| schema.hb_name := "X-Token"; schema.hb_value := "abc" |} ];
                   schema.tb_body_template := "{}" |} ] ]} |}.

(** An API that answers a create request with the attributes it was sent. *)
Definition echoCreate (meta : client) (url : string) (in_ : outgoingWebhook)
    : diag.Diagnostics * outgoingWebhookHTTPResponse :=
  ([], {| DataID := "17"; DataAttributes := in_ |}).


(** [{"a": 1, "b": [true, null]}]. *)
Definition exampleDoc : json.t :=
  json.Object [ ("a", json.Number "1");
                ("b", json.Array [json.Bool true; json.Null]) ].

(** The same document with its members in the other order. *)
Definition exampleDocSwapped : json.t :=
  json.Object [ ("b", json.Array [json.Bool true; json.Null]);
                ("a", json.Number "1") ].

Definition spaced (i : nat) : string := " ".

Definition compact (i : nat) : string := EmptyString.

(** ** Notions of the further properties *)

(** The field that a reference list maps a key to. *)
Fixpoint refOf (k : string) (refs : list (string * fieldRef)) : option fieldRef :=
  match refs with
  | [] => None
  | (k', r) :: refs => if bool_decide (k' = k) then Some r else refOf k refs
  end.

(** What [d.Set(k, v)] stores under [k]; nothing when it fails. *)
Definition stored (d : schema.ResourceData) (k : string) (v : schema.goval)
    : option schema.value :=
  match schema.types d !! k with
  | Some t => schema.normalise t v
  | None => None
  end.

(** The key of the template block. *)
Definition templateKey : string := "custom_webhook_template_attributes".

(** A block with its computed [id] cleared. *)
Definition withoutId (attrs : schema.templateBlock) : schema.templateBlock :=
  {| schema.tb_id := "";
     schema.tb_http_method := schema.tb_http_method attrs;
     schema.tb_auth_username := schema.tb_auth_username attrs;
     schema.tb_auth_password := schema.tb_auth_password attrs;
     schema.tb_headers_template := schema.tb_headers_template attrs;
     schema.tb_body_template := schema.tb_body_template attrs |}.

(** The response's template can be written back: there is none, or its
    [body_template] is absent or a string. *)
Definition writable (in_ : outgoingWebhook) : Prop :=
  match CustomWebhookTemplateAttributes in_ with
  | Some c => ∀ repr, BodyTemplate c ≠ schema.IOther repr
  | None => True
  end.

(** The member [json.Marshal] writes for a basic field; none for a nil
    pointer. *)
Definition memberOf (v : schema.goval) : option member :=
  match v with
  | schema.GStringPtr (Some s) => Some (MString s)
  | schema.GBoolPtr (Some b) => Some (MBool b)
  | _ => None
  end.

(** The member that carries a value of the record. *)
Definition memberOfValue (v : schema.value) : option member :=
  match v with
  | schema.VString s => Some (MString s)
  | schema.VBool b => Some (MBool b)
  | _ => None
  end.

(** Two values that hold the same items: lists of strings up to their
    order, anything else when equal. *)
Definition sameLists (v w : schema.value) : Prop :=
  match v, w with
  | schema.VStrings l, schema.VStrings k => l ≡ₚ k
  | _, _ => v = w
  end.

(** ** Further example records *)

(** A second order of iteration over a map: the first one backwards. *)
Definition reversedOrder (m : gmap string (list string)) : list (string * list string) :=
  reverse (map_to_list m).

(** A response of the API for an incident webhook: it leaves out the name
    and [on_incident_acknowledged], and carries no template. *)
Definition exampleAnswer : outgoingWebhook :=
  {| ID := Some "17"; Name := None; URL := Some "https://example.com/hook";
     TriggerType := Some "incident_change";
     OnIncidentStarted := Some true; OnIncidentAcknowledged := None;
     OnIncidentResolved := Some false; CustomWebhookTemplateAttributes := None;
     TeamName := Some "platform" |}.

(** The same response with a template whose body is a JSON object, not a
    string. *)
Definition exampleAnswerObject : outgoingWebhook :=
  setTemplate
    (Some {| TemplateID := Some "5"; HTTPMethod := Some "post";
             AuthUsername := None; AuthPassword := None; HeaderTemplate := [];
             BodyTemplate := schema.IOther "map[text:hello]" |})
    exampleAnswer.

(** An API that accepts a create request and answers with that response. *)
Definition objectCreate (meta : client) (url : string) (in_ : outgoingWebhook)
    : diag.Diagnostics * outgoingWebhookHTTPResponse :=
  ([], {| DataID := "17"; DataAttributes := exampleAnswerObject |}).

(** The template block of [exampleTemplated], with the [id] the API gave
    it. *)
Definition exampleBlock : schema.templateBlock :=
  {| schema.tb_id := "5";
     schema.tb_http_method := "post";
     schema.tb_auth_username := "bot";
     schema.tb_auth_password := "";
     schema.tb_headers_template :=
       [ {| schema.hb_name := "X-Token"; schema.hb_value := "abc" |} ];
     schema.tb_body_template := "{}" |}.

(** The record of [exampleTemplated], created, after its template block was
    taken out of the configuration. *)
Definition exampleTemplateRemoved : schema.ResourceData :=
  {| schema.types := schema.shapes outgoingWebhookSchema;
     schema.id := "17";
     schema.state := schema.attrs exampleTemplated;
     schema.attrs := delete "custom_webhook_template_attributes" (schema.attrs exampleTemplated) |}.

(** [exampleIncident] under another name and ID. *)
Definition exampleIncidentRenamed : schema.ResourceData :=
  {| schema.types := schema.types exampleIncident;
     schema.id := "9";
     schema.state := ∅;
     schema.attrs := <["name" := schema.VString "other"]> (schema.attrs exampleIncident) |}.

(** * Properties *)

(** Decides the comparisons of two literal keys that a lookup in a schema
    table or in a reference list leaves behind. *)
Ltac decide_keys :=
  repeat match goal with
  | |- context [bool_decide (?a = ?b)] =>
      first [ rewrite (bool_decide_eq_true_2 (a = b)) by reflexivity
            | rewrite (bool_decide_eq_false_2 (a = b)) by discriminate ]
  end.

(** ** The resource data *)

(** [d.SetId] writes no attribute but [id], and that one only where the
    schema declares it. *)
Lemma SetId_lookup (v : string) (d : schema.ResourceData) (k : string) :
  (k = "id" → schema.types d !! "id" = None) →
  schema.attrs (schema.SetId v d) !! k = schema.attrs d !! k.
Proof.
  intros Hk. unfold schema.SetId. cbn.
  destruct (schema.types d !! "id") as [t|] eqn:Hid; [|done].
  rewrite lookup_insert_ne; [done|]. intros <-. by specialize (Hk eq_refl).
Qed.

Lemma SetId_lookup_id (v : string) (d : schema.ResourceData) :
  is_Some (schema.types d !! "id") →
  schema.attrs (schema.SetId v d) !! "id" = Some (schema.VString v).
Proof.
  intros [t Hid]. unfold schema.SetId. cbn. rewrite Hid. by rewrite lookup_insert_eq.
Qed.


(** ** Schema entries *)

(** C10: once the resource has an ID (it is non-empty), the [DiffSuppressFunc]
    of [team_name] returns true for every old and new value, so a change of
    [team_name] never produces a diff after creation. *)
Theorem team_name_suppressed_once_created (k old new : string) (d : schema.ResourceData) :
  schema.Id d ≠ "" →
  diffSuppressed outgoingWebhookSchema "team_name" k old new d = true.
Proof.
  intros Hid. unfold diffSuppressed. cbn. decide_keys. cbn.
  by rewrite bool_decide_eq_false_2.
Qed.

Lemma team_name_suppressed_once_created_witness :
  let d := {| schema.types := schema.shapes outgoingWebhookSchema; schema.id := "42";
              schema.state := ∅; schema.attrs := ∅ |} in
  schema.Id d ≠ "" ∧
  diffSuppressed outgoingWebhookSchema "team_name" "team_name" "alpha" "beta" d = true.
Proof.
  split; [discriminate | apply team_name_suppressed_once_created; discriminate].
Defined.

(** Before creation (empty ID) the same function suppresses nothing. *)
Lemma team_name_not_suppressed_before_creation (k old new : string) (d : schema.ResourceData) :
  schema.Id d = "" →
  diffSuppressed outgoingWebhookSchema "team_name" k old new d = false.
Proof.
  intros Hid. unfold diffSuppressed. cbn. decide_keys. cbn.
  by rewrite bool_decide_eq_true_2.
Qed.

Lemma inSlice_elem_of (valid : list string) (v : string) :
  validation.inSlice valid false v = true ↔ v ∈ valid.
Proof.
  induction valid as [|str valid IH]; cbn.
  - split; [done | by intros ?%elem_of_nil].
  - rewrite orb_false_r, elem_of_cons.
    destruct (bool_decide_reflect (v = str)) as [->|Hne].
    + split; [by left | done].
    + rewrite IH. split; [by right | by intros [?|?]].
Qed.

(** C6: [trigger_type] is required and forces a new resource when it
    changes, and its validator reports no error exactly for the strings
    [incident_change], [on_call_change] and [monitor_change]. *)
Theorem trigger_type_schema :
  ∃ s f,
    schema.entryOf "trigger_type" outgoingWebhookSchema = Some s
    ∧ schema.Type_ s = schema.TypeString
    ∧ schema.Required s = true
    ∧ schema.ForceNew s = true
    ∧ schema.ValidateFunc s = Some f
    ∧ ∀ v k : string,
        (f (schema.IString v) k).2 = []
        ↔ (v = "incident_change" ∨ v = "on_call_change" ∨ v = "monitor_change").
Proof.
  exists (schema.validate
            (validation.StringInSlice ["incident_change"; "on_call_change"; "monitor_change"] false)
            (schema.forceNew (schema.required (schema.entry schema.TypeString)))),
         (validation.StringInSlice ["incident_change"; "on_call_change"; "monitor_change"] false).
  split; [reflexivity|]. do 4 (split; [reflexivity|]).
  intros v k. unfold validation.StringInSlice.
  pose proof (inSlice_elem_of ["incident_change"; "on_call_change"; "monitor_change"] v) as Hin.
  rewrite !elem_of_cons, elem_of_nil in Hin.
  destruct (validation.inSlice _ false v); cbn.
  - split; [intros _ | done]. tauto.
  - split; [done | intros Hv]. assert (false = true) by tauto. done.
Qed.

(** ** Plan-time validation *)

Lemma GetOk_flagSet (d : schema.ResourceData) (field : string) :
  flagSet d field → schema.GetOk d field = (schema.VBool true, true).
Proof.
  unfold flagSet, schema.GetOk, schema.Get, schema.zeroOf. intros Hset.
  destruct (schema.attrs d !! field) as [v|] eqn:Hv; cbn in *.
  - subst v.
    destruct (schema.types d !! field) as [[]|]; by rewrite bool_decide_eq_false_2.
  - destruct (schema.types d !! field) as [[]|]; done.
Qed.

Lemma GetOk_not_flagSet (d : schema.ResourceData) (field : string) :
  ¬ flagSet d field → ∀ ok, schema.GetOk d field ≠ (schema.VBool true, ok).
Proof.
  unfold flagSet, schema.GetOk. intros Hn ok Heq. apply Hn. congruence.
Qed.

Lemma validateIncidentFields_incident_change (d : schema.ResourceData) (fields : list string) :
  validateIncidentFields "incident_change" d fields = None.
Proof.
  induction fields as [|field rest IH]; cbn [validateIncidentFields]; [done|].
  by destruct (schema.GetOk d field) as [[| [] | |] []].
Qed.

Lemma validateIncidentFields_none_set (triggerType : string) (d : schema.ResourceData)
    (fields : list string) :
  Forall (λ field, ¬ flagSet d field) fields →
  validateIncidentFields triggerType d fields = None.
Proof.
  induction 1 as [|field rest Hn _ IH]; cbn [validateIncidentFields]; [done|].
  pose proof (GetOk_not_flagSet d field Hn) as Hne.
  destruct (schema.GetOk d field) as [[| [] | |] []]; try done.
  by destruct (Hne true).
Qed.

Lemma validateIncidentFields_first_set (triggerType : string) (d : schema.ResourceData)
    (fields : list string) :
  triggerType ≠ "incident_change" →
  Exists (flagSet d) fields →
  ∃ before field after,
    fields = before ++ field :: after
    ∧ Forall (λ f, ¬ flagSet d f) before
    ∧ flagSet d field
    ∧ validateIncidentFields triggerType d fields = Some (incidentError field).
Proof.
  intros Htt. induction fields as [|field rest IH]; intros Hex.
  - by apply Exists_nil in Hex.
  - destruct (decide (flagSet d field)) as [Hset|Hn].
    + exists [], field, rest. repeat split; [constructor | done |].
      cbn [validateIncidentFields]. rewrite (GetOk_flagSet d field Hset).
      by rewrite bool_decide_eq_false_2.
    + apply Exists_cons in Hex as [?|Hex]; [done|].
      destruct (IH Hex) as (before & f & after & -> & Hb & Hf & Hv).
      exists (field :: before), f, after. repeat split; [by constructor | done |].
      cbn [validateIncidentFields]. pose proof (GetOk_not_flagSet d field Hn) as Hne.
      destruct (schema.GetOk d field) as [[| [] | |] []]; try done.
      by destruct (Hne true).
Qed.

(** C2: when one of the three incident flags is set (holds [true]) and
    [trigger_type] is not [incident_change], validation fails with the
    message "<field> can only be set when trigger_type is 'incident_change'"
    for a flag that is set (the first one in the order started,
    acknowledged, resolved); when [trigger_type] is [incident_change], or no
    flag is set, validation returns no error. *)
Theorem validateOutgoingWebhook_spec (d : schema.ResourceData) :
  (getString d "trigger_type" ≠ "incident_change" →
   (∃ field, field ∈ incidentFields ∧ flagSet d field) →
   ∃ before field after,
     incidentFields = before ++ field :: after
     ∧ Forall (λ f, ¬ flagSet d f) before
     ∧ flagSet d field
     ∧ validateOutgoingWebhook d
       = Some (field +:+ " can only be set when trigger_type is 'incident_change'"))
  ∧ (getString d "trigger_type" = "incident_change"
     ∨ (∀ field, field ∈ incidentFields → ¬ flagSet d field) →
     validateOutgoingWebhook d = None).
Proof.
  split.
  - intros Htt (field & Hin & Hset).
    apply validateIncidentFields_first_set; [done|].
    apply Exists_exists. eauto.
  - unfold validateOutgoingWebhook. intros [-> | Hnone].
    + apply validateIncidentFields_incident_change.
    + apply validateIncidentFields_none_set, Forall_forall. exact Hnone.
Qed.

Lemma validateOutgoingWebhook_spec_witness :
  (getString exampleOnCallFlagged "trigger_type" ≠ "incident_change"
   ∧ (∃ field, field ∈ incidentFields ∧ flagSet exampleOnCallFlagged field)
   ∧ ∃ before field after,
       incidentFields = before ++ field :: after
       ∧ Forall (λ f, ¬ flagSet exampleOnCallFlagged f) before
       ∧ flagSet exampleOnCallFlagged field
       ∧ validateOutgoingWebhook exampleOnCallFlagged
         = Some (field +:+ " can only be set when trigger_type is 'incident_change'"))
  ∧ (getString exampleIncident "trigger_type" = "incident_change"
     ∧ validateOutgoingWebhook exampleIncident = None).
Proof.
  assert (getString exampleOnCallFlagged "trigger_type" ≠ "incident_change") as Htt
    by (vm_compute; discriminate).
  assert (∃ field, field ∈ incidentFields ∧ flagSet exampleOnCallFlagged field) as Hset.
  { exists "on_incident_resolved". split; [|vm_compute; reflexivity].
    unfold incidentFields. rewrite !elem_of_cons. auto. }
  assert (getString exampleIncident "trigger_type" = "incident_change") as Hic
    by (vm_compute; reflexivity).
  split; [split; [exact Htt | split; [exact Hset |]] | split; [exact Hic |]].
  - exact (proj1 (validateOutgoingWebhook_spec exampleOnCallFlagged) Htt Hset).
  - exact (proj2 (validateOutgoingWebhook_spec exampleIncident) (or_introl Hic)).
Defined.

Example validateOutgoingWebhook_on_call_flagged :
  validateOutgoingWebhook exampleOnCallFlagged
  = Some "on_incident_resolved can only be set when trigger_type is 'incident_change'".
Proof. vm_compute. reflexivity. Qed.

(** ** The record mapper *)

Lemma elem_of_omitempty {A} (k x : string) (f : A → member) (p : option A) :
  x ∈ (omitempty k f p).*1 ↔ x = k ∧ is_Some p.
Proof.
  destruct p as [a|]; cbn.
  - rewrite list_elem_of_singleton. split; [intros ->; eauto | by intros [-> _]].
  - split; [by intros ?%elem_of_nil | by intros [_ [? ?]]].
Qed.

(** A key is in the payload exactly when the field it tags is not nil. *)
Lemma elem_of_payloadKeys (x : string) (in_ : outgoingWebhook) :
  x ∈ payloadKeys in_ ↔
    (x = "id" ∧ is_Some (ID in_))
    ∨ (x = "name" ∧ is_Some (Name in_))
    ∨ (x = "url" ∧ is_Some (URL in_))
    ∨ (x = "trigger_type" ∧ is_Some (TriggerType in_))
    ∨ (x = "on_incident_started" ∧ is_Some (OnIncidentStarted in_))
    ∨ (x = "on_incident_acknowledged" ∧ is_Some (OnIncidentAcknowledged in_))
    ∨ (x = "on_incident_resolved" ∧ is_Some (OnIncidentResolved in_))
    ∨ (x = "custom_webhook_template_attributes" ∧ is_Some (CustomWebhookTemplateAttributes in_))
    ∨ (x = "team_name" ∧ is_Some (TeamName in_)).
Proof.
  unfold payloadKeys, marshal.
  rewrite !fmap_app, !elem_of_app, !elem_of_omitempty. tauto.
Qed.

(** [load] writes through its receiver only: it can add the receiver's key
    to the payload and nothing else. *)
Lemma payloadKeys_load (d : schema.ResourceData) (k : string) (r : fieldRef)
    (in_ : outgoingWebhook) (x : string) :
  x ∈ payloadKeys (load d k r in_) → x = jsonKey r ∨ x ∈ payloadKeys in_.
Proof.
  rewrite !elem_of_payloadKeys. unfold load.
  destruct (refShape r) eqn:Hr, (schema.GetOkExists d k) as [[] []]; try tauto;
    destruct in_, r; try discriminate Hr; cbn; tauto.
Qed.

Lemma payloadKeys_loadTemplate (d : schema.ResourceData) (in_ : outgoingWebhook) (x : string) :
  x ∈ payloadKeys (loadTemplate d in_) →
  x = "custom_webhook_template_attributes" ∨ x ∈ payloadKeys in_.
Proof.
  rewrite !elem_of_payloadKeys. unfold loadTemplate.
  destruct (schema.GetOk d _) as [[| | |[|attrs ?]] []]; try tauto;
    destruct in_; cbn; tauto.
Qed.

Lemma payloadKeys_foldl_load (d : schema.ResourceData) (refs : list (string * fieldRef))
    (in_ : outgoingWebhook) (x : string) :
  x ∈ payloadKeys (foldl (λ in_ e, load d e.1 e.2 in_) in_ refs) →
  x ∈ (λ e, jsonKey e.2) <$> refs ∨ x ∈ payloadKeys in_.
Proof.
  revert in_. induction refs as [|[k r] refs IH]; intros in_; cbn; [tauto|].
  intros [Hx | [Hx | Hx]%payloadKeys_load]%IH; rewrite elem_of_cons; auto.
Qed.

Lemma payloadKeys_emptyWebhook (x : string) : x ∉ payloadKeys emptyWebhook.
Proof. by intros ?%elem_of_nil. Qed.

Lemma outgoingWebhookRef_jsonKey (triggerType : string) :
  Forall (λ e, jsonKey e.2 = e.1) (outgoingWebhookRef triggerType).
Proof. unfold outgoingWebhookRef. case_bool_decide; repeat constructor. Qed.

Lemma outgoingWebhookRef_keys (triggerType : string) :
  (outgoingWebhookRef triggerType).*1
  = ["id"; "name"; "url"; "trigger_type"]
    ++ (if bool_decide (triggerType = "incident_change") then incidentFields else []).
Proof. unfold outgoingWebhookRef. by case_bool_decide. Qed.

(** ** Update *)

(** The update request holds a key only when the key's value has changed. *)
Lemma payloadKeys_update_fold (d : schema.ResourceData) (refs : list (string * fieldRef))
    (in_ : outgoingWebhook) :
  Forall (λ e, jsonKey e.2 = e.1) refs →
  (∀ x, x ∈ payloadKeys in_ → schema.HasChange d x = true) →
  ∀ x, x ∈ payloadKeys
             (foldl (λ in_ e, if schema.HasChange d e.1 then load d e.1 e.2 in_ else in_)
                    in_ refs) →
       schema.HasChange d x = true.
Proof.
  intros Hrefs. revert in_.
  induction Hrefs as [|[k r] refs Hk _ IH]; intros in_ Hin x; cbn; [by apply Hin|].
  apply IH. intros y. cbn in Hk.
  destruct (schema.HasChange d k) eqn:Hc; [|by apply Hin].
  intros [-> | Hy]%payloadKeys_load; [congruence | by apply Hin].
Qed.

(** A basic field is nil exactly when its key is absent from the payload. *)
Lemma isNil_deref (r : fieldRef) (in_ : outgoingWebhook) :
  isNil (deref r in_) ↔ jsonKey r ∉ payloadKeys in_.
Proof.
  rewrite elem_of_payloadKeys.
  destruct r; cbn [deref jsonKey];
    match goal with
    | |- context [schema.GStringPtr ?f] => destruct f as [x|] eqn:Hf
    | |- context [schema.GBoolPtr ?f] => destruct f as [x|] eqn:Hf
    end; cbn [isNil];
    (split;
     [ intros Hnil Hkey; try done;
       decompose [or and] Hkey; try discriminate;
       match goal with H : is_Some None |- _ => by destruct H end
     | intros Hkey; try done; apply Hkey; eauto 12 ]).
Qed.

Lemma payloadKeys_foldl_load_changed (d : schema.ResourceData) (refs : list (string * fieldRef))
    (in_ : outgoingWebhook) (x : string) :
  x ∈ payloadKeys
        (foldl (λ in_ e, if schema.HasChange d e.1 then load d e.1 e.2 in_ else in_) in_ refs) →
  x ∈ (λ e, jsonKey e.2) <$> refs ∨ x ∈ payloadKeys in_.
Proof.
  revert in_. induction refs as [|[k r] refs IH]; intros in_; cbn; [tauto|].
  intros [Hx | Hx]%IH; rewrite elem_of_cons; [by auto|].
  destruct (schema.HasChange d k); [|by auto].
  apply payloadKeys_load in Hx as [Hx | Hx]; auto.
Qed.

(** C9: the update handler sends [outgoingWebhookUpdateRequest d] as the body
    of its PATCH request, and that body holds a key only if the value under
    the key has changed: a basic field ([id], [name], [url], [trigger_type]
    and, under [incident_change], the incident flags) whose key has not
    changed is left nil and is omitted from the payload. *)
Theorem outgoingWebhookUpdate_sends_changes_only
    (resourceUpdate : client → string → outgoingWebhook
                      → diag.Diagnostics * outgoingWebhookHTTPResponse)
    (PathEscape : string → string) (d : schema.ResourceData) (meta : client) :
  outgoingWebhookUpdate resourceUpdate PathEscape d meta
  = (resourceUpdate meta ("/api/v2/outgoing-webhooks/" +:+ PathEscape (schema.Id d))
       (outgoingWebhookUpdateRequest d)).1
  ∧ (∀ k, k ∈ payloadKeys (outgoingWebhookUpdateRequest d) → schema.HasChange d k = true)
  ∧ (∀ k r, (k, r) ∈ outgoingWebhookRef (getString d "trigger_type") →
            schema.HasChange d k = false →
            isNil (deref r (outgoingWebhookUpdateRequest d))
            ∧ k ∉ payloadKeys (outgoingWebhookUpdateRequest d)).
Proof.
  split; [reflexivity|].
  assert (∀ k, k ∈ payloadKeys (outgoingWebhookUpdateRequest d) → schema.HasChange d k = true)
    as Hkeys.
  { intros k. unfold outgoingWebhookUpdateRequest.
    destruct (schema.HasChange d "custom_webhook_template_attributes") eqn:Hc.
    - intros [-> | Hk]%payloadKeys_loadTemplate; [done|]. revert k Hk.
      apply payloadKeys_update_fold; [apply outgoingWebhookRef_jsonKey|].
      intros x Hx. by apply payloadKeys_emptyWebhook in Hx.
    - revert k. apply payloadKeys_update_fold; [apply outgoingWebhookRef_jsonKey|].
      intros x Hx. by apply payloadKeys_emptyWebhook in Hx. }
  split; [exact Hkeys|].
  intros k r Hin Hc.
  assert (jsonKey r = k) as Hk.
  { pose proof (outgoingWebhookRef_jsonKey (getString d "trigger_type")) as Hall.
    rewrite Forall_forall in Hall. exact (Hall (k, r) Hin). }
  assert (k ∉ payloadKeys (outgoingWebhookUpdateRequest d)) as Hout.
  { intros Hk'. apply Hkeys in Hk'. congruence. }
  split; [|exact Hout]. apply isNil_deref. by rewrite Hk.
Qed.

Example outgoingWebhookUpdateRequest_example :
  marshal (outgoingWebhookUpdateRequest exampleUpdate)
  = [("name", MString "pager duty"); ("on_incident_resolved", MBool true)].
Proof. vm_compute. reflexivity. Qed.

Lemma outgoingWebhookUpdate_sends_changes_only_witness :
  ("name" ∈ payloadKeys (outgoingWebhookUpdateRequest exampleUpdate)
   ∧ schema.HasChange exampleUpdate "name" = true)
  ∧ (("url", RefURL) ∈ outgoingWebhookRef (getString exampleUpdate "trigger_type")
     ∧ schema.HasChange exampleUpdate "url" = false
     ∧ isNil (deref RefURL (outgoingWebhookUpdateRequest exampleUpdate))
     ∧ "url" ∉ payloadKeys (outgoingWebhookUpdateRequest exampleUpdate)).
Proof.
  assert ("name" ∈ payloadKeys (outgoingWebhookUpdateRequest exampleUpdate)) as Hname.
  { vm_compute. apply list_elem_of_In. left. reflexivity. }
  assert (("url", RefURL) ∈ outgoingWebhookRef (getString exampleUpdate "trigger_type")) as Hurl.
  { vm_compute. apply list_elem_of_In. right. right. left. reflexivity. }
  assert (schema.HasChange exampleUpdate "url" = false) as Hc by (vm_compute; reflexivity).
  destruct (outgoingWebhookUpdate_sends_changes_only
              (λ _ _ in_, ([], {| DataID := "17"; DataAttributes := in_ |}))
              (λ s, s) exampleUpdate exampleClient) as (_ & Hkeys & Hnil).
  split; [split; [exact Hname |] | split; [exact Hurl | split; [exact Hc |]]].
  - exact (Hkeys "name" Hname).
  - exact (Hnil "url" RefURL Hurl Hc).
Defined.

(** ** Copying attributes back *)

Lemma setField_attrs_ne (k k' : string) (v : schema.goval)
    (acc : diag.Diagnostics * schema.ResourceData) :
  k ≠ k' → schema.attrs (setField k v acc).2 !! k' = schema.attrs acc.2 !! k'.
Proof.
  intros Hne. unfold setField, schema.Set_.
  destruct (schema.types acc.2 !! k) as [t|]; [|done].
  destruct (schema.normalise t v); [|done].
  cbn. by rewrite lookup_insert_ne.
Qed.

Lemma foldl_setField_attrs_ne (in_ : outgoingWebhook) (refs : list (string * fieldRef))
    (acc : diag.Diagnostics * schema.ResourceData) (k' : string) :
  k' ∉ refs.*1 →
  schema.attrs (foldl (λ acc e, setField e.1 (deref e.2 in_) acc) acc refs).2 !! k'
  = schema.attrs acc.2 !! k'.
Proof.
  revert acc. induction refs as [|[k r] refs IH]; intros acc Hk'; cbn; [done|].
  cbn in Hk'. rewrite not_elem_of_cons in Hk'. destruct Hk' as [Hne Hk'].
  rewrite IH by done. by apply setField_attrs_ne.
Qed.

(** [outgoingWebhookCopyAttrs] writes the keys of the reference list and,
    when the response has a template, the template block; nothing else. *)
Lemma outgoingWebhookCopyAttrs_attrs_ne (d : schema.ResourceData) (in_ : outgoingWebhook)
    (k' : string) :
  k' ∉ (outgoingWebhookRef (default "" (TriggerType in_))).*1 →
  k' ≠ "custom_webhook_template_attributes" →
  schema.attrs (outgoingWebhookCopyAttrs d in_).2 !! k' = schema.attrs d !! k'.
Proof.
  intros Hk' Hne. unfold outgoingWebhookCopyAttrs.
  destruct (CustomWebhookTemplateAttributes in_).
  - rewrite setField_attrs_ne by done. by rewrite foldl_setField_attrs_ne.
  - by rewrite foldl_setField_attrs_ne.
Qed.

(** C5: the reference list holds the three incident flags exactly when the
    trigger type is [incident_change], and always holds [id], [name], [url]
    and [trigger_type]; so a create or an update request carries an incident
    flag only under [incident_change], and copying a response back leaves
    the stored flags alone when the response's trigger type is another. *)
Theorem outgoingWebhookRef_gates_incident_flags (triggerType flag : string)
    (d : schema.ResourceData) (in_ : outgoingWebhook) :
  flag ∈ incidentFields →
  (flag ∈ (outgoingWebhookRef triggerType).*1 ↔ triggerType = "incident_change")
  ∧ (∀ k, k ∈ ["id"; "name"; "url"; "trigger_type"] → k ∈ (outgoingWebhookRef triggerType).*1)
  ∧ (flag ∈ payloadKeys (outgoingWebhookCreateRequest d) →
     getString d "trigger_type" = "incident_change")
  ∧ (flag ∈ payloadKeys (outgoingWebhookUpdateRequest d) →
     getString d "trigger_type" = "incident_change")
  ∧ (TriggerType in_ ≠ Some "incident_change" →
     schema.attrs (outgoingWebhookCopyAttrs d in_).2 !! flag = schema.attrs d !! flag).
Proof.
  intros Hflag.
  assert (∀ t, flag ∈ (outgoingWebhookRef t).*1 ↔ t = "incident_change") as Hgate.
  { intros t. rewrite outgoingWebhookRef_keys, elem_of_app. case_bool_decide as Ht.
    - split; [done | by right].
    - split; [|done]. unfold incidentFields in Hflag.
      rewrite !elem_of_cons, !elem_of_nil in *.
      intros [[->|[->|[->|[->|[]]]]]|[]]; decompose [or] Hflag; done. }
  assert (∀ t, flag ∈ (λ e : string * fieldRef, jsonKey e.2) <$> outgoingWebhookRef t →
               t = "incident_change") as Hjson.
  { intros t Hin. apply Hgate.
    assert ((λ e : string * fieldRef, jsonKey e.2) <$> outgoingWebhookRef t
            = (outgoingWebhookRef t).*1) as <-; [|done].
    apply Forall_fmap_ext_1, outgoingWebhookRef_jsonKey. }
  assert (flag ≠ "custom_webhook_template_attributes" ∧ flag ≠ "team_name") as [Hnt Hnn].
  { unfold incidentFields in Hflag. rewrite !elem_of_cons, !elem_of_nil in Hflag.
    decompose [or] Hflag; subst; done. }
  split; [apply Hgate|]. split.
  { intros k Hk. rewrite outgoingWebhookRef_keys, elem_of_app. by left. }
  split; [|split].
  - unfold outgoingWebhookCreateRequest.
    intros [? | [Hk | [Hk | Hk]%payloadKeys_foldl_load]%payloadKeys_load]%payloadKeys_loadTemplate;
      try done; [by apply Hjson | by apply payloadKeys_emptyWebhook in Hk].
  - unfold outgoingWebhookUpdateRequest. intros Hk.
    assert (flag ∈ payloadKeys
              (foldl (λ in_ e, if schema.HasChange d e.1 then load d e.1 e.2 in_ else in_)
                     emptyWebhook (outgoingWebhookRef (getString d "trigger_type")))) as Hk'.
    { destruct (schema.HasChange d "custom_webhook_template_attributes"); [|done].
      by apply payloadKeys_loadTemplate in Hk as [?|?]. }
    apply payloadKeys_foldl_load_changed in Hk' as [Hk' | Hk'];
      [by apply Hjson | by apply payloadKeys_emptyWebhook in Hk'].
  - intros Htt. apply outgoingWebhookCopyAttrs_attrs_ne; [|done].
    rewrite Hgate. destruct (TriggerType in_); cbn; congruence.
Qed.

Lemma outgoingWebhookRef_gates_incident_flags_witness :
  let in_ :=
    {| ID := Some "17"; Name := Some "pager"; URL := Some "https://example.com/hook";
       TriggerType := Some "on_call_change";
       OnIncidentStarted := Some true; OnIncidentAcknowledged := None;
       OnIncidentResolved := None; CustomWebhookTemplateAttributes := None;
       TeamName := None |} in
  "on_incident_started" ∈ incidentFields
  ∧ TriggerType in_ ≠ Some "incident_change"
  ∧ ("on_incident_started" ∈ (outgoingWebhookRef "on_call_change").*1
     ↔ "on_call_change" = "incident_change")
  ∧ schema.attrs (outgoingWebhookCopyAttrs exampleOnCallFlagged in_).2 !! "on_incident_started"
    = schema.attrs exampleOnCallFlagged !! "on_incident_started".
Proof.
  intros in_.
  assert ("on_incident_started" ∈ incidentFields) as Hflag
    by (apply list_elem_of_In; left; reflexivity).
  assert (TriggerType in_ ≠ Some "incident_change") as Htt by discriminate.
  pose proof (outgoingWebhookRef_gates_incident_flags
                "on_call_change" "on_incident_started" exampleOnCallFlagged in_ Hflag)
    as (Hgate & _ & _ & _ & Hcopy).
  split; [exact Hflag | split; [exact Htt | split; [exact Hgate | exact (Hcopy Htt)]]].
Defined.

(** ** Read *)

(** C8: when the read finds no error and the resource is reported as not
    found ([ok = false]), [outgoingWebhookRead] clears the ID: [d.Id()]
    becomes the empty string, and so does the attribute [id], which the
    schema declares and which holds the ID. It returns no diagnostics and
    leaves every other stored attribute, the prior state and the schema as
    they were. *)
Theorem outgoingWebhookRead_not_found
    (resourceRead : client → string → diag.Diagnostics * bool * outgoingWebhookHTTPResponse)
    (PathEscape : string → string)
    (d : schema.ResourceData) (meta : client) (out : outgoingWebhookHTTPResponse) :
  resourceRead meta ("/api/v2/outgoing-webhooks/" +:+ PathEscape (schema.Id d))
  = ([], false, out) →
  let r := outgoingWebhookRead resourceRead PathEscape d meta in
  r.1 = []
  ∧ schema.Id r.2 = ""
  ∧ (is_Some (schema.types d !! "id") →
     schema.attrs r.2 !! "id" = Some (schema.VString ""))
  ∧ (∀ k, k ≠ "id" → schema.attrs r.2 !! k = schema.attrs d !! k)
  ∧ schema.state r.2 = schema.state d
  ∧ schema.types r.2 = schema.types d.
Proof.
  intros Hread. unfold outgoingWebhookRead. rewrite Hread. cbn zeta. cbn [fst snd].
  split; [done|]. split; [done|]. split; [apply SetId_lookup_id|].
  split; [|done]. intros k Hk. apply SetId_lookup. by intros ->.
Qed.

Lemma outgoingWebhookRead_not_found_witness :
  let r := outgoingWebhookRead readGone (λ s, s) exampleUpdate exampleClient in
  schema.Id exampleUpdate = "17"
  ∧ schema.Get exampleUpdate "id" = schema.VString "17"
  ∧ r.1 = []
  ∧ schema.Id r.2 = ""
  ∧ schema.Get r.2 "id" = schema.VString ""
  ∧ schema.attrs r.2 !! "name" = schema.attrs exampleUpdate !! "name"
  ∧ schema.state r.2 = schema.state exampleUpdate
  ∧ schema.types r.2 = schema.types exampleUpdate.
Proof.
  destruct (outgoingWebhookRead_not_found readGone (λ s, s) exampleUpdate exampleClient
              exampleResponse eq_refl) as (Hdiag & Hid & Hattr & Hrest & Hstate & Htypes).
  assert (is_Some (schema.types exampleUpdate !! "id")) as Hdeclared
    by (vm_compute; eauto).
  assert ("name" ≠ "id") as Hname by discriminate.
  split; [reflexivity|]. split; [vm_compute; reflexivity|].
  split; [exact Hdiag|]. split; [exact Hid|].
  split; [unfold schema.Get; by rewrite (Hattr Hdeclared)|].
  split; [exact (Hrest "name" Hname)|]. split; [exact Hstate | exact Htypes].
Defined.

(** An error of the read is returned as it is, and the ID is kept. *)
Lemma outgoingWebhookRead_error
    (resourceRead : client → string → diag.Diagnostics * bool * outgoingWebhookHTTPResponse)
    (PathEscape : string → string)
    (d : schema.ResourceData) (meta : client) (e : diag.Diagnostic) (err : diag.Diagnostics)
    (ok : bool) (out : outgoingWebhookHTTPResponse) :
  resourceRead meta ("/api/v2/outgoing-webhooks/" +:+ PathEscape (schema.Id d))
  = (e :: err, ok, out) →
  outgoingWebhookRead resourceRead PathEscape d meta = (e :: err, d).
Proof.
  intros Hread. unfold outgoingWebhookRead. by rewrite Hread.
Qed.

(** ** The IP-list lookup *)

Lemma foldl_insert_true_lookup (requestedClusters : list string) (m : gmap string bool)
    (cluster : string) :
  foldl (λ filterClusters c, <[c := true]> filterClusters) m requestedClusters !! cluster
  = if decide (cluster ∈ requestedClusters) then Some true else m !! cluster.
Proof.
  revert m. induction requestedClusters as [|c rest IH]; intros m; cbn.
  - case_decide as Hin; [by apply elem_of_nil in Hin | done].
  - rewrite IH. destruct (decide (cluster ∈ rest)) as [Hin|Hnin].
    + rewrite decide_True; [done | by right].
    + destruct (decide (cluster = c)) as [->|Hne].
      * rewrite decide_True by (by left). by rewrite lookup_insert_eq.
      * rewrite decide_False by (rewrite elem_of_cons; tauto). by rewrite lookup_insert_ne.
Qed.

Lemma makeFilter_lookup (requestedClusters : list string) (cluster : string) :
  default false (makeFilter requestedClusters !! cluster)
  = bool_decide (cluster ∈ requestedClusters).
Proof.
  unfold makeFilter. rewrite foldl_insert_true_lookup.
  case_decide; [by rewrite bool_decide_eq_true_2 | by rewrite bool_decide_eq_false_2].
Qed.

Lemma makeFilter_size (requestedClusters : list string) :
  size (makeFilter requestedClusters) = 0 ↔ requestedClusters = [].
Proof.
  rewrite map_size_empty_iff. split.
  - destruct requestedClusters as [|c rest]; [done|]. intros Hempty.
    pose proof (foldl_insert_true_lookup (c :: rest) ∅ c) as Hc.
    fold (makeFilter (c :: rest)) in Hc. rewrite Hempty, lookup_empty in Hc.
    rewrite decide_True in Hc by (by left). done.
  - by intros ->.
Qed.

Lemma foldl_ipListStep (requestedClusters : list string) (entries : list (string * list string))
    (filteredIPs allClusters : list string) :
  foldl (ipListStep (makeFilter requestedClusters)) (filteredIPs, allClusters) entries
  = (filteredIPs ++ concat ((filter (selects requestedClusters) entries).*2),
     allClusters ++ entries.*1).
Proof.
  revert filteredIPs allClusters.
  induction entries as [|[cluster ips] entries IH]; intros filteredIPs allClusters; cbn.
  - by rewrite !app_nil_r.
  - rewrite makeFilter_lookup, IH.
    assert (bool_decide (size (makeFilter requestedClusters) = 0)
            || bool_decide (cluster ∈ requestedClusters)
            = bool_decide (selects requestedClusters (cluster, ips))) as ->.
    { apply eq_true_iff_eq. rewrite orb_true_iff, !bool_decide_eq_true, makeFilter_size.
      done. }
    destruct (decide (selects requestedClusters (cluster, ips))) as [Hsel|Hsel].
    + rewrite bool_decide_eq_true_2 by done. cbn. by rewrite <- !app_assoc.
    + rewrite bool_decide_eq_false_2 by done. by rewrite <- !app_assoc.
Qed.

Lemma ipListFilter_spec (rangeOrder : gmap string (list string) → list (string * list string))
    (ipData : gmap string (list string)) (requestedClusters : list string) :
  ipListFilter rangeOrder ipData requestedClusters
  = (concat ((filter (selects requestedClusters) (rangeOrder ipData)).*2),
     (rangeOrder ipData).*1).
Proof. unfold ipListFilter. by rewrite foldl_ipListStep. Qed.

Lemma filter_selects_nil (entries : list (string * list string)) :
  filter (selects []) entries = entries.
Proof.
  induction entries as [|e entries IH]; [done|].
  rewrite filter_cons, decide_True by (by left). by rewrite IH.
Qed.

Lemma filter_selects_ne (requestedClusters : list string) (entries : list (string * list string)) :
  requestedClusters ≠ [] →
  filter (selects requestedClusters) entries = filter (λ e, e.1 ∈ requestedClusters) entries.
Proof.
  intros Hne. apply list_filter_iff. intros e. unfold selects. tauto.
Qed.

Lemma concat_Permutation {A} (l k : list (list A)) : l ≡ₚ k → concat l ≡ₚ concat k.
Proof.
  induction 1 as [|x l k _ IH|x y l|l k m _ IH1 _ IH2]; cbn.
  - done.
  - by rewrite IH.
  - rewrite !app_assoc. f_equiv. apply Permutation_app_comm.
  - by rewrite IH1.
Qed.

Lemma ipListSchema_ips : ipListSchema !! "ips" = Some schema.SStrings.
Proof. vm_compute. reflexivity. Qed.

Lemma ipListSchema_all_clusters : ipListSchema !! "all_clusters" = Some schema.SStrings.
Proof. vm_compute. reflexivity. Qed.

Lemma ipListSchema_id : ipListSchema !! "id" = None.
Proof. vm_compute. reflexivity. Qed.

(** What [d.Set] does with a list of strings. *)
Lemma Set_strings (k : string) (l : list string) (d : schema.ResourceData) :
  schema.Set_ k (schema.GStrings l) d
  = match schema.types d !! k with
    | Some schema.SStrings =>
        (None, {| schema.types := schema.types d; schema.id := schema.id d;
                  schema.state := schema.state d;
                  schema.attrs := <[k := schema.VStrings l]> (schema.attrs d) |})
    | Some _ => (Some (k +:+ ": invalid value"), d)
    | None => (Some ("Invalid address to set: " +:+ k), d)
    end.
Proof. unfold schema.Set_. by destruct (schema.types d !! k) as [[]|]. Qed.

(** The assertions of the first loop succeed exactly when no requested
    name is the empty string, which [d.Get] hands over as nil. *)
Lemma assertString_items (requested : list string) :
  mapM assertString (schema.itemOf <$> requested)
  = if decide ("" ∈ requested) then None else Some requested.
Proof.
  induction requested as [|s rest IH].
  - rewrite decide_False by apply not_elem_of_nil. done.
  - rewrite fmap_cons. cbn [mapM]. rewrite IH. unfold schema.itemOf.
    destruct (decide (s = "")) as [->|Hs].
    + rewrite bool_decide_eq_true_2 by done. cbn. rewrite decide_True; [done | by left].
    + rewrite bool_decide_eq_false_2 by done. cbn.
      destruct (decide ("" ∈ rest)) as [Hin|Hnin]; cbn.
      * rewrite decide_True; [done | by right].
      * rewrite decide_False; [done|]. rewrite elem_of_cons. intros [?|?]; congruence.
Qed.

Lemma requestedClustersOf_strings (d : schema.ResourceData) (requested : list string) :
  schema.Get d "filter_clusters" = schema.VStrings requested →
  requestedClustersOf d = Some (schema.itemOf <$> requested).
Proof. intros Hget. unfold requestedClustersOf. by rewrite Hget. Qed.

(** What the lookup does when the response has status 200 and its body
    decodes to [ipData]: it panics on an empty name in the filter, and
    otherwise sets the ID and writes the two lists. *)
Lemma ipListLookup_decoded
    (json_Unmarshal : string → string + gmap string (list string))
    (rangeOrder : gmap string (list string) → list (string * list string))
    (d : schema.ResourceData) (meta : client) (res : http.Response) (body : string)
    (ipData : gmap string (list string)) (requested : list string) :
  remote meta "/ips-by-cluster.json" = inr res →
  http.StatusCode res = http.StatusOK →
  http.Body res = http.ReadOk body →
  json_Unmarshal body = inr ipData →
  schema.Get d "filter_clusters" = schema.VStrings requested →
  ipListLookup json_Unmarshal rangeOrder d meta
  = let meta' := {| remote := remote meta; sent := sent meta ++ ["/ips-by-cluster.json"] |} in
    if decide ("" ∈ requested) then
      (Panics "interface conversion: interface {} is nil, not string", d, meta')
    else
      match schema.Set_ "ips"
              (schema.GStrings (concat ((filter (selects requested) (rangeOrder ipData)).*2)))
              (schema.SetId "betterstack_ip_list" d) with
      | (Some err, d) => (Returns (diag.FromErr err), d, meta')
      | (None, d) =>
          match schema.Set_ "all_clusters" (schema.GStrings (rangeOrder ipData).*1) d with
          | (Some err, d) => (Returns (diag.FromErr err), d, meta')
          | (None, d) => (Returns [], d, meta')
          end
      end.
Proof.
  intros Hres Hst Hbody Hjson Hget.
  unfold ipListLookup, client_Get. rewrite Hres, Hbody, Hst, Hjson.
  rewrite bool_decide_eq_true_2 by done. cbn [negb].
  rewrite (requestedClustersOf_strings d requested Hget), assertString_items.
  cbn zeta. destruct (decide ("" ∈ requested)); [done|].
  by rewrite ipListFilter_spec.
Qed.

(** With the data source's schema and a filter that holds no empty name,
    the lookup succeeds. *)
Lemma ipListLookup_ok
    (json_Unmarshal : string → string + gmap string (list string))
    (rangeOrder : gmap string (list string) → list (string * list string))
    (d : schema.ResourceData) (meta : client) (res : http.Response) (body : string)
    (ipData : gmap string (list string)) (requested : list string) :
  schema.types d = ipListSchema →
  remote meta "/ips-by-cluster.json" = inr res →
  http.StatusCode res = http.StatusOK →
  http.Body res = http.ReadOk body →
  json_Unmarshal body = inr ipData →
  schema.Get d "filter_clusters" = schema.VStrings requested →
  "" ∉ requested →
  ipListLookup json_Unmarshal rangeOrder d meta
  = (Returns [],
     {| schema.types := schema.types d;
        schema.id := "betterstack_ip_list";
        schema.state := schema.state d;
        schema.attrs :=
          <["all_clusters" := schema.VStrings (rangeOrder ipData).*1]>
            (<["ips" := schema.VStrings
                 (concat ((filter (selects requested) (rangeOrder ipData)).*2))]>
               (schema.attrs d)) |},
     {| remote := remote meta; sent := sent meta ++ ["/ips-by-cluster.json"] |}).
Proof.
  intros Hty Hres Hst Hbody Hjson Hget Hne.
  rewrite (ipListLookup_decoded _ _ _ _ _ _ _ _ Hres Hst Hbody Hjson Hget).
  cbn zeta. rewrite decide_False by done.
  rewrite Set_strings. cbn [schema.SetId schema.types schema.attrs schema.id schema.state].
  rewrite Hty, ipListSchema_ips, ipListSchema_id.
  rewrite Set_strings. cbn [schema.types schema.attrs schema.id schema.state].
  by rewrite ipListSchema_all_clusters.
Qed.

(** C3: a [filter_clusters] list that holds an empty string makes the
    lookup panic. The SDK hands the empty string over as nil, and the
    unchecked assertion [cluster.(string)] of the first loop fails on it: on
    a response with status 200 whose body decodes, the call ends in a panic
    after its one request, and nothing is written, neither [ips] nor
    [all_clusters] nor the ID. *)
Theorem ipListLookup_panics_on_empty_name
    (json_Unmarshal : string → string + gmap string (list string))
    (rangeOrder : gmap string (list string) → list (string * list string))
    (d : schema.ResourceData) (meta : client) (res : http.Response) (body : string)
    (ipData : gmap string (list string)) (requested : list string) :
  remote meta "/ips-by-cluster.json" = inr res →
  http.StatusCode res = http.StatusOK →
  http.Body res = http.ReadOk body →
  json_Unmarshal body = inr ipData →
  schema.Get d "filter_clusters" = schema.VStrings requested →
  "" ∈ requested →
  ipListLookup json_Unmarshal rangeOrder d meta
  = (Panics "interface conversion: interface {} is nil, not string", d,
     {| remote := remote meta; sent := sent meta ++ ["/ips-by-cluster.json"] |}).
Proof.
  intros Hres Hst Hbody Hjson Hget Hin.
  rewrite (ipListLookup_decoded _ _ _ _ _ _ _ _ Hres Hst Hbody Hjson Hget).
  cbn zeta. by rewrite decide_True.
Qed.

Lemma ipListLookup_panics_on_empty_name_witness :
  let d := exampleIpQuery [""] in
  let r := ipListLookup exampleUnmarshal map_to_list d (exampleIpClient 200 exampleIpBody) in
  schema.Get d "filter_clusters" = schema.VStrings [""]
  ∧ r.1.1 = Panics "interface conversion: interface {} is nil, not string"
  ∧ r.1.2 = d
  ∧ sent r.2 = ["/ips-by-cluster.json"].
Proof.
  assert (schema.Get (exampleIpQuery [""]) "filter_clusters" = schema.VStrings [""]) as Hget
    by (vm_compute; reflexivity).
  assert ("" ∈ [""]) as Hin by (by apply list_elem_of_singleton).
  pose proof (ipListLookup_panics_on_empty_name exampleUnmarshal map_to_list
                (exampleIpQuery [""]) (exampleIpClient 200 exampleIpBody)
                (exampleIpResponse 200 exampleIpBody) exampleIpBody exampleIpData [""]
                eq_refl eq_refl eq_refl eq_refl Hget Hin) as Hpanic.
  split; [exact Hget|]. cbn zeta. rewrite Hpanic. split; [reflexivity|]. split; reflexivity.
Defined.

(** X21: on a successful response decoding to the map [ipData], with any
    order of iteration over the map and a filter that holds no empty name:
    for an empty [filter_clusters], [ips] is the concatenation of the IP
    lists of all clusters; for a non-empty one, [ips] is the concatenation
    of the IP lists of exactly the clusters named in [filter_clusters]; and
    [all_clusters] lists every cluster of the map once, whatever the
    filter. *)
Theorem ipListLookup_filters
    (json_Unmarshal : string → string + gmap string (list string))
    (rangeOrder : gmap string (list string) → list (string * list string))
    (d : schema.ResourceData) (meta : client) (res : http.Response) (body : string)
    (ipData : gmap string (list string)) (requested : list string) :
  (∀ m, rangeOrder m ≡ₚ map_to_list m) →
  schema.types d = ipListSchema →
  remote meta "/ips-by-cluster.json" = inr res →
  http.StatusCode res = http.StatusOK →
  http.Body res = http.ReadOk body →
  json_Unmarshal body = inr ipData →
  schema.Get d "filter_clusters" = schema.VStrings requested →
  "" ∉ requested →
  ∃ ips allClusters,
    (ipListLookup json_Unmarshal rangeOrder d meta).1.1 = Returns []
    ∧ schema.Get (ipListLookup json_Unmarshal rangeOrder d meta).1.2 "ips"
      = schema.VStrings ips
    ∧ schema.Get (ipListLookup json_Unmarshal rangeOrder d meta).1.2 "all_clusters"
      = schema.VStrings allClusters
    ∧ (requested = [] →
       ips = concat (rangeOrder ipData).*2
       ∧ ips ≡ₚ concat (map_to_list ipData).*2)
    ∧ (requested ≠ [] →
       ips = concat (filter (λ e, e.1 ∈ requested) (rangeOrder ipData)).*2
       ∧ ips ≡ₚ concat (filter (λ e, e.1 ∈ requested) (map_to_list ipData)).*2
       ∧ ∀ ip, ip ∈ ips ↔
               ∃ cluster l, cluster ∈ requested ∧ ipData !! cluster = Some l ∧ ip ∈ l)
    ∧ allClusters ≡ₚ (map_to_list ipData).*1
    ∧ NoDup allClusters
    ∧ ∀ cluster, cluster ∈ allClusters ↔ is_Some (ipData !! cluster).
Proof.
  intros Hperm Hty Hres Hst Hbody Hjson Hget Hnonempty.
  rewrite (ipListLookup_ok _ _ _ _ _ _ _ _ Hty Hres Hst Hbody Hjson Hget Hnonempty).
  eexists _, _. cbn [fst snd].
  split; [reflexivity|].
  split; [unfold schema.Get; cbn; by rewrite lookup_insert_ne, lookup_insert_eq|].
  split; [unfold schema.Get; cbn; by rewrite lookup_insert_eq|].
  assert ((rangeOrder ipData).*1 ≡ₚ (map_to_list ipData).*1) as Hall by (by rewrite Hperm).
  split; [|split; [|split; [exact Hall | split]]].
  - intros ->. rewrite filter_selects_nil. split; [done|].
    apply concat_Permutation. by rewrite Hperm.
  - intros Hne. rewrite filter_selects_ne by done.
    assert (concat (filter (λ e, e.1 ∈ requested) (rangeOrder ipData)).*2
            ≡ₚ concat (filter (λ e, e.1 ∈ requested) (map_to_list ipData)).*2)
      as Hips by (apply concat_Permutation; by rewrite Hperm).
    split; [done | split; [exact Hips|]].
    intros ip. rewrite Hips, list_elem_of_In, in_concat. split.
    + intros (l & Hl & Hip). apply list_elem_of_In, list_elem_of_fmap in Hl.
      destruct Hl as ([cluster l'] & -> & Hin). apply list_elem_of_filter in Hin as [Hreq Hin].
      apply elem_of_map_to_list in Hin. exists cluster, l'.
      split; [done | split; [done | by apply list_elem_of_In]].
    + intros (cluster & l & Hreq & Hl & Hip). exists l.
      split; [|by apply list_elem_of_In].
      apply list_elem_of_In, list_elem_of_fmap. exists (cluster, l).
      split; [done|]. apply list_elem_of_filter. split; [done|].
      by apply elem_of_map_to_list.
  - rewrite Hall. apply NoDup_fst_map_to_list.
  - intros cluster. rewrite Hall, list_elem_of_fmap. split.
    + intros ([c l] & -> & Hin). apply elem_of_map_to_list in Hin. by exists l.
    + intros [l Hl]. exists (cluster, l). split; [done|]. by apply elem_of_map_to_list.
Qed.

Example ipListLookup_example_filtered :
  let r := ipListLookup exampleUnmarshal map_to_list (exampleIpQuery ["us"])
             (exampleIpClient 200 exampleIpBody) in
  r.1.1 = Returns []
  ∧ schema.Get r.1.2 "ips" = schema.VStrings ["10.1.0.1"]
  ∧ ∃ allClusters, schema.Get r.1.2 "all_clusters" = schema.VStrings allClusters
                   ∧ allClusters ≡ₚ ["eu"; "us"].
Proof.
  vm_compute. split; [reflexivity|]. split; [reflexivity|].
  eexists. split; [reflexivity|].
  first [reflexivity | apply Permutation_swap].
Qed.

Lemma ipListLookup_filters_witness :
  let d := exampleIpQuery ["us"] in
  let r := ipListLookup exampleUnmarshal map_to_list d (exampleIpClient 200 exampleIpBody) in
  schema.Get d "filter_clusters" = schema.VStrings ["us"]
  ∧ ("" ∉ ["us"])
  ∧ r.1.1 = Returns []
  ∧ schema.Get r.1.2 "ips" = schema.VStrings ["10.1.0.1"]
  ∧ ∃ ips allClusters,
      schema.Get r.1.2 "ips" = schema.VStrings ips
      ∧ schema.Get r.1.2 "all_clusters" = schema.VStrings allClusters
      ∧ (∀ ip, ip ∈ ips ↔
               ∃ cluster l, cluster ∈ ["us"] ∧ exampleIpData !! cluster = Some l ∧ ip ∈ l)
      ∧ allClusters ≡ₚ (map_to_list exampleIpData).*1
      ∧ NoDup allClusters.
Proof.
  assert (schema.Get (exampleIpQuery ["us"]) "filter_clusters" = schema.VStrings ["us"])
    as Hget by (vm_compute; reflexivity).
  assert ("" ∉ ["us"]) as Hnonempty.
  { intros Hin. apply list_elem_of_singleton in Hin. discriminate Hin. }
  destruct (ipListLookup_filters exampleUnmarshal map_to_list (exampleIpQuery ["us"])
              (exampleIpClient 200 exampleIpBody)
              (exampleIpResponse 200 exampleIpBody) exampleIpBody exampleIpData ["us"]
              (λ m, Permutation_refl _) eq_refl eq_refl eq_refl eq_refl eq_refl
              Hget Hnonempty)
    as (ips & allClusters & Hret & Hips & Hall & _ & Hsome & Hperm & Hnodup & _).
  assert (["us"] ≠ @nil string) as Hne by discriminate.
  destruct (Hsome Hne) as (_ & _ & Hmem).
  split; [exact Hget | split; [exact Hnonempty | split; [exact Hret | split]]].
  - vm_compute. reflexivity.
  - exists ips, allClusters.
    split; [exact Hips | split; [exact Hall | split; [exact Hmem | split; assumption]]].
Defined.

(** ** Errors of the IP-list lookup *)

(** C4, as the code has it: the lookup sends exactly one request, whatever
    the outcome. A transport error, or an error while reading the body, is
    returned as one diagnostic holding the text of that error. A response
    whose status code is not 200 is returned as one diagnostic
    "GET <url> returned <status>: <body>". In these three cases the
    resource data is left as it was. A response with status 200 yields no
    status diagnostic: the only diagnostic is then the decoder's error, and
    with a body that decodes the call returns no diagnostic at all, and
    does return when the filter holds no empty name. *)
Theorem ipListLookup_errors
    (json_Unmarshal : string → string + gmap string (list string))
    (rangeOrder : gmap string (list string) → list (string * list string))
    (d : schema.ResourceData) (meta : client) :
  let r := ipListLookup json_Unmarshal rangeOrder d meta in
  sent r.2 = sent meta ++ ["/ips-by-cluster.json"]
  ∧ (∀ err, remote meta "/ips-by-cluster.json" = inl err →
            r.1.1 = Returns [ {| diag.Summary := err |} ] ∧ r.1.2 = d)
  ∧ (∀ res err, remote meta "/ips-by-cluster.json" = inr res →
                http.Body res = http.ReadErr err →
                r.1.1 = Returns [ {| diag.Summary := err |} ] ∧ r.1.2 = d)
  ∧ (∀ res body, remote meta "/ips-by-cluster.json" = inr res →
                 http.Body res = http.ReadOk body →
                 http.StatusCode res ≠ 200%Z →
                 r.1.1 = Returns [ {| diag.Summary :=
                                        "GET " +:+ http.RequestURL res +:+ " returned "
                                        +:+ pretty (http.StatusCode res) +:+ ": " +:+ body |} ]
                 ∧ r.1.2 = d)
  ∧ (∀ res body, remote meta "/ips-by-cluster.json" = inr res →
                 http.Body res = http.ReadOk body →
                 http.StatusCode res = 200%Z →
                 (∀ err, json_Unmarshal body = inl err →
                         r.1.1 = Returns [ {| diag.Summary := err |} ] ∧ r.1.2 = d)
                 ∧ (∀ ipData, json_Unmarshal body = inr ipData →
                              schema.types d = ipListSchema →
                              (∀ diags, r.1.1 = Returns diags → diags = [])
                              ∧ (∀ requested,
                                   schema.Get d "filter_clusters" = schema.VStrings requested →
                                   "" ∉ requested → r.1.1 = Returns []))).
Proof.
  cbn zeta. split.
  { unfold ipListLookup, client_Get.
    destruct (remote meta _) as [err|res]; [done|].
    destruct (http.Body res) as [body|err]; [|done].
    destruct (negb _); [done|].
    destruct (json_Unmarshal body) as [err|ipData]; [done|].
    destruct (requestedClustersOf d) as [items|]; [|done].
    destruct (mapM assertString items) as [requested|]; [|done].
    destruct (ipListFilter _ _ _) as [filteredIPs allClusters].
    destruct (schema.Set_ "ips" _ _) as [[err|] d1]; [done|].
    by destruct (schema.Set_ "all_clusters" _ _) as [[err|] d2]. }
  split; [|split; [|split]].
  - intros err Hres. unfold ipListLookup, client_Get. by rewrite Hres.
  - intros res err Hres Hbody. unfold ipListLookup, client_Get. by rewrite Hres, Hbody.
  - intros res body Hres Hbody Hst. unfold ipListLookup, client_Get.
    rewrite Hres, Hbody. by rewrite bool_decide_eq_false_2.
  - intros res body Hres Hbody Hst. split.
    + intros err Hjson. unfold ipListLookup, client_Get.
      rewrite Hres, Hbody, Hjson. by rewrite bool_decide_eq_true_2.
    + intros ipData Hjson Hty. split.
      * unfold ipListLookup, client_Get. rewrite Hres, Hbody, Hjson.
        rewrite bool_decide_eq_true_2 by done. cbn [negb].
        destruct (requestedClustersOf d) as [items|]; [|by intros diags].
        destruct (mapM assertString items) as [requested|]; [|by intros diags].
        destruct (ipListFilter _ _ _) as [filteredIPs allClusters].
        rewrite Set_strings. cbn [schema.SetId schema.types].
        rewrite Hty, ipListSchema_ips. rewrite Set_strings. cbn [schema.types].
        rewrite ipListSchema_all_clusters. cbn. by intros diags [= <-].
      * intros requested Hget Hne.
        by rewrite (ipListLookup_ok _ _ _ _ _ _ _ _ Hty Hres Hst Hbody Hjson Hget Hne).
Qed.

Lemma ipListLookup_errors_witness :
  (let r := ipListLookup exampleUnmarshal map_to_list (exampleIpQuery [])
              (exampleIpClient 503 "busy") in
   http.StatusCode (exampleIpResponse 503 "busy") ≠ 200%Z
   ∧ sent r.2 = ["/ips-by-cluster.json"]
   ∧ r.1.1 = Returns [ {| diag.Summary :=
                    "GET https://uptime.betterstack.com/ips-by-cluster.json returned 503: busy" |} ]
   ∧ r.1.2 = exampleIpQuery [])
  ∧ (let r := ipListLookup exampleUnmarshal map_to_list (exampleIpQuery []) exampleClient in
     remote exampleClient "/ips-by-cluster.json" = inl "connection refused"
     ∧ r.1.1 = Returns [ {| diag.Summary := "connection refused" |} ]
     ∧ r.1.2 = exampleIpQuery [])
  ∧ (let r := ipListLookup exampleUnmarshal map_to_list (exampleIpQuery [])
                (exampleIpClient 200 exampleIpBody) in
     exampleUnmarshal exampleIpBody = inr exampleIpData ∧ r.1.1 = Returns []).
Proof.
  pose proof (ipListLookup_errors exampleUnmarshal map_to_list (exampleIpQuery [])
                (exampleIpClient 503 "busy")) as (Hsent & _ & _ & Hstatus & _).
  pose proof (ipListLookup_errors exampleUnmarshal map_to_list (exampleIpQuery [])
                exampleClient) as (_ & Htransport & _).
  pose proof (ipListLookup_errors exampleUnmarshal map_to_list (exampleIpQuery [])
                (exampleIpClient 200 exampleIpBody)) as (_ & _ & _ & _ & Hok).
  assert (http.StatusCode (exampleIpResponse 503 "busy") ≠ 200%Z) as Hne by discriminate.
  assert (exampleUnmarshal exampleIpBody = inr exampleIpData) as Hjson
    by (vm_compute; reflexivity).
  assert (schema.Get (exampleIpQuery []) "filter_clusters" = schema.VStrings []) as Hget
    by (vm_compute; reflexivity).
  split; [|split].
  - split; [exact Hne | split; [exact Hsent |]].
    exact (Hstatus (exampleIpResponse 503 "busy") "busy" eq_refl eq_refl Hne).
  - split; [reflexivity |]. exact (Htransport "connection refused" eq_refl).
  - split; [exact Hjson |].
    exact (proj2 (proj2 (Hok (exampleIpResponse 200 exampleIpBody) exampleIpBody
                           eq_refl eq_refl eq_refl)
                    exampleIpData Hjson eq_refl)
             [] Hget (not_elem_of_nil _)).
Defined.

(** A response with status 204 is a 2xx response, and the lookup reports it
    as an HTTP-status error; and the diagnostic of a transport error holds
    the error's text only. *)
Lemma ipListLookup_rejects_204 :
  (200 ≤ 204 < 300)%Z
  ∧ (ipListLookup exampleUnmarshal map_to_list (exampleIpQuery [])
       (exampleIpClient 204 EmptyString)).1.1
    = Returns [ {| diag.Summary :=
                     "GET https://uptime.betterstack.com/ips-by-cluster.json returned 204: " |} ]
  ∧ (ipListLookup exampleUnmarshal map_to_list (exampleIpQuery []) exampleClient).1.1
    = Returns [ {| diag.Summary := "connection refused" |} ].
Proof. split; [lia|]. split; vm_compute; reflexivity. Qed.

(** ** Create, then read *)

(** What [load] leaves in its receiver. *)
Lemma deref_load_eq (d : schema.ResourceData) (k : string) (r : fieldRef) (in_ : outgoingWebhook) :
  deref r (load d k r in_)
  = match refShape r, schema.GetOkExists d k with
    | schema.SString, (schema.VString t, true) => schema.GStringPtr (Some t)
    | schema.SBool, (schema.VBool t, true) => schema.GBoolPtr (Some t)
    | _, _ => deref r in_
    end.
Proof.
  unfold load.
  destruct (refShape r) eqn:Hr, (schema.GetOkExists d k) as [[] []]; try done;
    by destruct in_, r.
Qed.

Lemma deref_load_ne (d : schema.ResourceData) (k : string) (r r' : fieldRef)
    (in_ : outgoingWebhook) :
  r ≠ r' → deref r' (load d k r in_) = deref r' in_.
Proof.
  intros Hne. unfold load.
  destruct (refShape r) eqn:Hr, (schema.GetOkExists d k) as [[] []]; try done;
    by destruct in_, r, r'.
Qed.

Lemma template_load (d : schema.ResourceData) (k : string) (r : fieldRef) (in_ : outgoingWebhook) :
  CustomWebhookTemplateAttributes (load d k r in_) = CustomWebhookTemplateAttributes in_.
Proof.
  unfold load.
  destruct (refShape r) eqn:Hr, (schema.GetOkExists d k) as [[] []]; try done;
    by destruct in_, r.
Qed.

Lemma deref_loadTemplate (d : schema.ResourceData) (r : fieldRef) (in_ : outgoingWebhook) :
  deref r (loadTemplate d in_) = deref r in_.
Proof.
  unfold loadTemplate.
  destruct (schema.GetOk d _) as [[| | |[|attrs ?]] []]; try done; by destruct in_, r.
Qed.

Lemma deref_foldl_load_notin (d : schema.ResourceData) (refs : list (string * fieldRef))
    (in_ : outgoingWebhook) (r : fieldRef) :
  r ∉ refs.*2 → deref r (foldl (λ in_ e, load d e.1 e.2 in_) in_ refs) = deref r in_.
Proof.
  revert in_. induction refs as [|[k1 r1] refs IH]; intros in_ Hr; cbn; [done|].
  cbn in Hr. rewrite not_elem_of_cons in Hr. destruct Hr as [Hne Hr].
  rewrite IH by done. by apply deref_load_ne.
Qed.

Lemma template_foldl_load (d : schema.ResourceData) (refs : list (string * fieldRef))
    (in_ : outgoingWebhook) :
  CustomWebhookTemplateAttributes (foldl (λ in_ e, load d e.1 e.2 in_) in_ refs)
  = CustomWebhookTemplateAttributes in_.
Proof.
  revert in_. induction refs as [|[k1 r1] refs IH]; intros in_; cbn; [done|].
  by rewrite IH, template_load.
Qed.

(** In a list that names each field once, the field of an entry ends up as
    that entry's [load] leaves it. *)
Lemma deref_foldl_load_in (d : schema.ResourceData) (refs : list (string * fieldRef))
    (in_ : outgoingWebhook) (k : string) (r : fieldRef) :
  NoDup refs.*2 → (k, r) ∈ refs →
  deref r (foldl (λ in_ e, load d e.1 e.2 in_) in_ refs) = deref r (load d k r in_).
Proof.
  revert in_. induction refs as [|[k1 r1] refs IH]; intros in_ Hnd Hin.
  - by apply elem_of_nil in Hin.
  - cbn in Hnd. apply NoDup_cons in Hnd as [Hr1 Hnd]. cbn.
    apply elem_of_cons in Hin as [[= <- <-] | Hin].
    + by apply deref_foldl_load_notin.
    + rewrite IH by done.
      assert (r1 ≠ r) as Hne.
      { intros ->. apply Hr1. apply list_elem_of_fmap. by exists (k, r). }
      rewrite !deref_load_eq. by rewrite deref_load_ne.
Qed.

Lemma outgoingWebhookRef_NoDup (triggerType : string) :
  NoDup (outgoingWebhookRef triggerType).*2.
Proof.
  unfold outgoingWebhookRef. case_bool_decide; cbn;
    repeat (apply NoDup_cons; split;
            [rewrite ?elem_of_cons, elem_of_nil; intros Hx; decompose [or] Hx; done|]);
    apply NoDup_nil_2.
Qed.

Lemma outgoingWebhookRef_not_team_name (triggerType k : string) (r : fieldRef) :
  (k, r) ∈ outgoingWebhookRef triggerType → r ≠ RefTeamName.
Proof.
  intros Hin. pose proof (outgoingWebhookRef_jsonKey triggerType) as Hall.
  rewrite Forall_forall in Hall. specialize (Hall _ Hin). cbn in Hall.
  intros ->. cbn in Hall. subst k.
  apply (list_elem_of_fmap_2 fst) in Hin. cbn in Hin.
  rewrite outgoingWebhookRef_keys, elem_of_app in Hin. unfold incidentFields in Hin.
  case_bool_decide; rewrite ?elem_of_cons, ?elem_of_nil in Hin; decompose [or] Hin; done.
Qed.

(** The field the create request holds for an entry of the reference list. *)
Lemma outgoingWebhookCreateRequest_deref (d : schema.ResourceData) (k : string) (r : fieldRef) :
  (k, r) ∈ outgoingWebhookRef (getString d "trigger_type") →
  deref r (outgoingWebhookCreateRequest d) = deref r (load d k r emptyWebhook).
Proof.
  intros Hin. unfold outgoingWebhookCreateRequest.
  rewrite deref_loadTemplate, deref_load_ne
    by (apply not_eq_sym; by eapply outgoingWebhookRef_not_team_name).
  apply deref_foldl_load_in; [apply outgoingWebhookRef_NoDup | done].
Qed.

Lemma outgoingWebhookCreateRequest_template (d : schema.ResourceData) :
  CustomWebhookTemplateAttributes (outgoingWebhookCreateRequest d)
  = match schema.GetOk d "custom_webhook_template_attributes" with
    | (schema.VTemplates (attrs :: _), true) => Some (templateOfAttrs attrs)
    | _ => None
    end.
Proof.
  unfold outgoingWebhookCreateRequest, loadTemplate.
  destruct (schema.GetOk d _) as [[| | |[|attrs ?]] []];
    rewrite ?template_load, ?template_foldl_load; try done.
  by destruct (load _ _ _ _).
Qed.


Lemma outgoingWebhookRef_shape (triggerType k : string) (r : fieldRef) :
  (k, r) ∈ outgoingWebhookRef triggerType →
  schema.shapes outgoingWebhookSchema !! k = Some (refShape r).
Proof.
  unfold outgoingWebhookRef.
  case_bool_decide; cbn; rewrite ?elem_of_cons, elem_of_nil; intros Hin;
    decompose [or] Hin; simplify_eq; try done; vm_compute; reflexivity.
Qed.





Lemma headers_round_trip (headers : list schema.headerBlock) :
  schema.normHeader
    <$> ((λ h, {| schema.rh_name := HeaderName h; schema.rh_value := HeaderValue h |})
           <$> ((λ header, {| HeaderName := schema.hb_name header;
                              HeaderValue := schema.hb_value header |}) <$> headers))
  = headers.
Proof.
  induction headers as [|[n v] headers IH]; [done|]. cbn. by rewrite IH.
Qed.

(** The template the handlers build holds every field of the block but the
    computed [id]. *)
Lemma templateOfAttrs_fields (attrs : schema.templateBlock) :
  templateOfAttrs attrs
  = {| TemplateID := None;
       HTTPMethod := Some (schema.tb_http_method attrs);
       AuthUsername := Some (schema.tb_auth_username attrs);
       AuthPassword := Some (schema.tb_auth_password attrs);
       HeaderTemplate :=
         (λ header, {| HeaderName := schema.hb_name header;
                       HeaderValue := schema.hb_value header |})
           <$> schema.tb_headers_template attrs;
       BodyTemplate := schema.IString (schema.tb_body_template attrs) |}.
Proof. reflexivity. Qed.






(** A failed create returns the helper's diagnostics and leaves the
    resource data, its ID included, as they were. *)
Lemma outgoingWebhookCreate_error
    (resourceCreate : client → string → outgoingWebhook
                      → diag.Diagnostics * outgoingWebhookHTTPResponse)
    (d : schema.ResourceData) (meta : client) (e : diag.Diagnostic) (err : diag.Diagnostics)
    (out : outgoingWebhookHTTPResponse) :
  resourceCreate meta "/api/v2/outgoing-webhooks" (outgoingWebhookCreateRequest d)
  = (e :: err, out) →
  outgoingWebhookCreate resourceCreate d meta = (e :: err, d).
Proof.
  intros Hcreate. unfold outgoingWebhookCreate. by rewrite Hcreate.
Qed.


Lemma exampleTemplated_wellFormed : wellFormed exampleTemplated.
Proof.
  split; [reflexivity|]. split.
  - unfold wellTyped. apply (bool_decide_unpack _). vm_compute. exact I.
  - vm_compute. split; [lia|]. repeat constructor.
Defined.


Example outgoingWebhookCreateRequest_example :
  marshal (outgoingWebhookCreateRequest exampleTemplated)
  = [ ("url", MString "https://example.com/hook");
      ("trigger_type", MString "incident_change");
      ("on_incident_started", MBool true);
      ("on_incident_acknowledged", MBool false);
      ("custom_webhook_template_attributes",
        MTemplate {| TemplateID := None; HTTPMethod := Some "post";
                     AuthUsername := Some "bot"; AuthPassword := Some "";
                     HeaderTemplate := [ {| HeaderName := "X-Token"; HeaderValue := "abc" |} ];
                     BodyTemplate := schema.IString "{}" |});
      ("team_name", MString "ops") ].
Proof. vm_compute. reflexivity. Qed.

Example outgoingWebhookCreate_example :
  let created := outgoingWebhookCreate echoCreate exampleTemplated exampleClient in
  created.1 = []
  ∧ schema.Id created.2 = "17"
  ∧ schema.Get created.2 "name" = schema.VString ""
  ∧ schema.Get created.2 "team_name" = schema.VString "ops"
  ∧ schema.Get created.2 "on_incident_started" = schema.VBool true
  ∧ schema.Get created.2 "custom_webhook_template_attributes"
    = schema.Get exampleTemplated "custom_webhook_template_attributes".
Proof. vm_compute. repeat split. Qed.

(** ** JSON: a written document is read back, and reordering is not a change *)

Module json_facts.
Import json.

Lemma append_cons (c : ascii) (a b : string) : String c a +:+ b = String c (a +:+ b).
Proof. reflexivity. Qed.

Lemma append_empty (b : string) : EmptyString +:+ b = b.
Proof. reflexivity. Qed.

Lemma length_append (a b : string) :
  String.length (a +:+ b) = String.length a + String.length b.
Proof.
  induction a as [|c a IH]; [done|].
  rewrite append_cons. cbn. by rewrite IH.
Qed.

Lemma append_assoc (a b c : string) : (a +:+ b) +:+ c = a +:+ (b +:+ c).
Proof.
  induction a as [|x a IH]; [done|]. rewrite !append_cons. by rewrite IH.
Qed.

(** Character classes are disjoint where the lexer needs them to be. *)
Lemma is_ws_not_num (c : ascii) : is_ws c = true → is_num c = false.
Proof. destruct c as [[] [] [] [] [] [] [] []]; vm_compute; congruence. Qed.

Lemma is_num_plain (c : ascii) :
  is_num c = true →
  is_ws c = false
  ∧ c ≠ "{"%char ∧ c ≠ "}"%char ∧ c ≠ "["%char ∧ c ≠ "]"%char
  ∧ c ≠ ":"%char ∧ c ≠ ","%char ∧ c ≠ quote.
Proof.
  destruct c as [[] [] [] [] [] [] [] []]; vm_compute; intros H;
    try discriminate H; repeat split; congruence.
Qed.

Lemma lexString_raw (s rest : string) :
  rawOk s = true → lexString (s +:+ String quote rest) = Some (s, rest).
Proof.
  remember (String.length s) as n eqn:Hn. revert s Hn.
  induction (lt_wf n) as [n _ IH]. intros s Hn Hs.
  destruct s as [|c s]; rewrite ?append_cons, ?append_empty; cbn in *.
  - by rewrite bool_decide_eq_true_2.
  - case_bool_decide; [done|]. case_bool_decide as Hb.
    + destruct s as [|e s]; [done|]. rewrite append_cons.
      rewrite (IH (String.length s)); [done | subst n; cbn; lia | done | done].
    + rewrite (IH (String.length s)); [done | subst n; cbn; lia | done | done].
Qed.

Lemma lexNumber_run (n rest : string) :
  allNum n = true → startsNum rest = false → lexNumber (n +:+ rest) = (n, rest).
Proof.
  intros Hn Hrest. induction n as [|c n IH]; rewrite ?append_cons, ?append_empty; cbn in *.
  - destruct rest as [|c rest]; cbn in *; [done | by rewrite Hrest].
  - apply andb_true_iff in Hn as [-> Hn]. by rewrite IH.
Qed.

Lemma append_nil_r (a : string) : a +:+ EmptyString = a.
Proof. induction a as [|c a IH]; [done|]. by rewrite append_cons, IH. Qed.

Lemma startsNum_spell (x : token) (rest : string) :
  isNumber x = false → startsNum (spell x +:+ rest) = false.
Proof. by destruct x. Qed.

Lemma startsNum_render (gap : nat → string) (i : nat) (ts : list token) :
  allWs (gap i) = true → headNotNumber ts = true → startsNum (render gap i ts) = false.
Proof.
  intros Hws Hhd. destruct ts as [|x ts]; cbn [render].
  - destruct (gap i) as [|c w]; [done|]. cbn in *.
    apply andb_true_iff in Hws as [Hc _]. by apply is_ws_not_num.
  - destruct (gap i) as [|c w].
    + rewrite append_empty. apply startsNum_spell. cbn in Hhd. by destruct (isNumber x).
    + rewrite append_cons. cbn in *.
      apply andb_true_iff in Hws as [Hc _]. by apply is_ws_not_num.
Qed.

Lemma lex_ws (w s : string) (fuel : nat) :
  allWs w = true → lex (String.length w + fuel) (w +:+ s) = lex fuel s.
Proof.
  induction w as [|c w IH]; [done|]. rewrite append_cons. cbn.
  intros [-> Hw]%andb_true_iff. by apply IH.
Qed.

(** One step of the lexer on a token with a fixed spelling. *)
Lemma lex_fixed (x : token) (fuel : nat) (rest : string) :
  match x with TString _ | TNumber _ => False | _ => True end →
  lex (S fuel) (spell x +:+ rest) = cons_tok x (lex fuel rest).
Proof. by destruct x. Qed.

Lemma lex_render (ts : list token) (gap : nat → string) (i fuel : nat) :
  forallb tokOk ts = true →
  sep ts = true →
  (∀ j, allWs (gap j) = true) →
  String.length (render gap i ts) < fuel →
  lex fuel (render gap i ts) = Some ts.
Proof.
  intros Hok Hsep Hgap. revert i fuel.
  induction ts as [|x ts IH]; intros i fuel Hfuel; cbn [render] in *.
  - replace fuel with (String.length (gap i) + S (fuel - S (String.length (gap i)))) by lia.
    pose proof (lex_ws (gap i) EmptyString (S (fuel - S (String.length (gap i)))) (Hgap i))
      as Hlex.
    rewrite append_nil_r in Hlex. by rewrite Hlex.
  - cbn in Hok, Hsep. apply andb_true_iff in Hok as [Hx Hok].
    apply andb_true_iff in Hsep as [Hxsep Hsep].
    rewrite !length_append in Hfuel.
    assert (0 < String.length (spell x)) as Hpos.
    { destruct x; cbn in *; try lia. destruct s; [done | cbn; lia]. }
    replace fuel with (String.length (gap i)
                       + S (fuel - S (String.length (gap i)))) by lia.
    rewrite lex_ws by done.
    set (fuel' := fuel - S (String.length (gap i))).
    assert (String.length (render gap (S i) ts) < fuel') as Hfuel' by (unfold fuel'; lia).
    specialize (IH Hok Hsep (S i) fuel' Hfuel').
    destruct x.
    1-6, 9-11: by rewrite lex_fixed, IH.
    + cbn [spell]. rewrite append_cons, append_assoc, append_cons, append_empty. cbn.
      rewrite lexString_raw by done. by rewrite IH.
    + cbn [spell]. cbn in Hx. destruct s as [|c n]; [done|]. cbn in Hx.
      pose proof Hx as Hx'. apply andb_true_iff in Hx' as [Hc Hn].
      destruct (is_num_plain c Hc) as (Hws & H1 & H2 & H3 & H4 & H5 & H6 & H7).
      assert (startsNum (render gap (S i) ts) = false) as Hstart.
      { apply startsNum_render; [done|]. cbn in Hxsep. by destruct ts as [|[] ?]. }
      pose proof (lexNumber_run (String c n) (render gap (S i) ts) Hx Hstart) as Hnum.
      rewrite append_cons in Hnum. rewrite append_cons. cbn [lex]. rewrite Hws.
      rewrite !bool_decide_eq_false_2 by done. rewrite Hc, Hnum. by rewrite IH.
Qed.

(** *** The parser reads back what [emit] writes *)

Lemma t_ind' (P : t → Prop) :
  P Null → (∀ b, P (Bool b)) → (∀ n, P (Number n)) → (∀ s, P (Str s)) →
  (∀ elems, Forall P elems → P (Array elems)) →
  (∀ members, Forall (λ kv, P kv.2) members → P (Object members)) →
  ∀ v, P v.
Proof.
  intros Hnull Hbool Hnum Hstr Harr Hobj.
  fix IH 1. intros [| b | n | s | elems | members].
  - exact Hnull.
  - apply Hbool.
  - apply Hnum.
  - apply Hstr.
  - apply Harr. induction elems as [|x elems IHl]; constructor; [apply IH | exact IHl].
  - apply Hobj. induction members as [|[k x] members IHl]; constructor; [apply IH | exact IHl].
Qed.

Lemma emit_array (x : t) (l : list t) :
  emit (Array (x :: l)) = TLBrack :: emit x ++ emitElems l ++ [TRBrack].
Proof.
  reflexivity.
Qed.

Lemma emit_object (k : string) (x : t) (l : list (string * t)) :
  emit (Object ((k, x) :: l))
  = TLBrace :: TString k :: TColon :: emit x ++ emitMembers l ++ [TRBrace].
Proof.
  cbn [emit]. do 5 f_equal.
  induction l as [|[k' y] l IH]; [done|]. cbn. by rewrite IH.
Qed.

Lemma startsValue_emit (v : t) (rest : list token) : startsValue (emit v ++ rest) = true.
Proof. by destruct v as [| [] | | | [|? ?] | [|[? ?] ?]]. Qed.

Lemma parseValue_array (fuel : nat) (ts : list token) :
  startsValue ts = true →
  parseValue (S fuel) (TLBrack :: ts)
  = match parseValue fuel ts with
    | Some (v, r) => parseElems fuel [v] r
    | None => None
    end.
Proof. by destruct ts as [|[] ts]. Qed.

Lemma setKey_fresh (k : string) (v : t) (m : list (string * t)) :
  k ∉ m.*1 → setKey k v m = m ++ [(k, v)].
Proof.
  induction m as [|[k' v'] m IH]; cbn; [done|].
  rewrite not_elem_of_cons. intros [Hne Hk].
  rewrite bool_decide_eq_false_2 by done. by rewrite IH.
Qed.

Lemma parseElems_emit (l acc : list t) (fuel : nat) (rest : list token) :
  Forall readsBack l →
  length (emitElems l) < fuel →
  parseElems fuel acc (emitElems l ++ TRBrack :: rest) = Some (Array (acc ++ l), rest).
Proof.
  intros Hl. revert acc fuel. induction Hl as [|y l Hy _ IH]; intros acc fuel Hfuel.
  - destruct fuel; [lia|]. cbn. by rewrite app_nil_r.
  - destruct fuel as [|fuel]; [lia|]. cbn in Hfuel. rewrite length_app in Hfuel.
    cbn [emitElems flat_map]. cbn [app parseElems].
    rewrite <- app_assoc. rewrite (Hy fuel); [|lia].
    fold (emitElems l) in *. rewrite IH by lia. by rewrite <- app_assoc.
Qed.

Lemma parseMembers_emit (l acc : list (string * t)) (fuel : nat) (rest : list token) :
  Forall (λ kv, readsBack kv.2) l →
  NoDup (acc ++ l).*1 →
  length (emitMembers l) < fuel →
  parseMembers fuel acc (emitMembers l ++ TRBrace :: rest) = Some (Object (acc ++ l), rest).
Proof.
  intros Hl. revert acc fuel. induction Hl as [|[k y] l Hy _ IH]; intros acc fuel Hnd Hfuel.
  - destruct fuel; [lia|]. cbn. by rewrite app_nil_r.
  - destruct fuel as [|fuel]; [lia|]. cbn in Hfuel. rewrite length_app in Hfuel.
    cbn [emitMembers flat_map fst snd]. cbn [app parseMembers].
    rewrite <- app_assoc. cbn in Hy. rewrite (Hy fuel) by lia.
    fold (emitMembers l) in *.
    assert (k ∉ acc.*1) as Hk.
    { rewrite fmap_app in Hnd. apply NoDup_app in Hnd as (_ & Hdisj & _).
      intros Hin. apply (Hdisj k Hin). cbn. by left. }
    rewrite setKey_fresh by done.
    rewrite IH; [by rewrite <- app_assoc | by rewrite <- app_assoc | lia].
Qed.

Lemma wf_array (elems : list t) : wf (Array elems) = true ↔ Forall (λ x, wf x = true) elems.
Proof. cbn. by rewrite forallb_forall, Forall_forall; setoid_rewrite list_elem_of_In. Qed.

Lemma wf_object (members : list (string * t)) :
  wf (Object members) = true
  ↔ NoDup members.*1 ∧ Forall (λ kv, rawOk kv.1 = true ∧ wf kv.2 = true) members.
Proof.
  cbn. rewrite andb_true_iff, bool_decide_eq_true, forallb_forall, Forall_forall.
  setoid_rewrite list_elem_of_In. setoid_rewrite andb_true_iff. done.
Qed.

Lemma parseValue_emit (v : t) : wf v = true → readsBack v.
Proof.
  induction v as [| b | n | s | elems IH | members IH] using t_ind'; intros Hwf fuel rest Hfuel.
  - destruct fuel; [cbn in Hfuel; lia | done].
  - destruct fuel; [cbn in Hfuel; lia | by destruct b].
  - destruct fuel; [cbn in Hfuel; lia | done].
  - destruct fuel; [cbn in Hfuel; lia | done].
  - apply wf_array in Hwf.
    assert (Forall readsBack elems) as Hall.
    { apply Forall_forall. intros x Hx. rewrite Forall_forall in IH, Hwf. auto. }
    destruct elems as [|x elems].
    + destruct fuel; [cbn in Hfuel; lia | done].
    + rewrite emit_array in *. cbn in Hfuel. rewrite !length_app in Hfuel. cbn in Hfuel.
      destruct fuel as [|fuel]; [lia|].
      apply Forall_cons in Hall as [Hx Hall].
      cbn [app]. rewrite parseValue_array by (rewrite <- app_assoc; apply startsValue_emit).
      rewrite <- !app_assoc. rewrite (Hx fuel) by lia. cbn [app].
      by rewrite parseElems_emit by (done || lia).
  - apply wf_object in Hwf as [Hnd Hwf].
    assert (Forall (λ kv, readsBack kv.2) members) as Hall.
    { apply Forall_forall. intros x Hx. rewrite Forall_forall in IH, Hwf.
      apply IH; [done|]. by apply Hwf. }
    destruct members as [|[k x] members].
    + destruct fuel; [cbn in Hfuel; lia | done].
    + rewrite emit_object in *. cbn in Hfuel. rewrite !length_app in Hfuel. cbn in Hfuel.
      destruct fuel as [|fuel]; [lia|].
      apply Forall_cons in Hall as [Hx Hall]. cbn in Hx.
      cbn [app parseValue]. rewrite <- !app_assoc. rewrite (Hx fuel) by lia. cbn [app].
      by rewrite parseMembers_emit by (done || lia).
Qed.

(** *** The tokens of a document are well formed and well separated *)

Lemma tokOk_emit (v : t) : wf v = true → forallb tokOk (emit v) = true.
Proof.
  induction v as [| b | n | s | elems IH | members IH] using t_ind'; intros Hwf.
  - done.
  - by destruct b.
  - cbn in *. by rewrite Hwf.
  - cbn in *. by rewrite Hwf.
  - apply wf_array in Hwf. destruct elems as [|x elems]; [done|].
    rewrite emit_array. cbn. rewrite !forallb_app. cbn.
    apply Forall_cons in IH as [IHx IH]. apply Forall_cons in Hwf as [Hx Hwf].
    rewrite IHx by done. cbn. rewrite andb_true_r.
    induction elems as [|y elems IHl]; [done|]. cbn. rewrite forallb_app.
    apply Forall_cons in IH as [IHy IH]. apply Forall_cons in Hwf as [Hy Hwf].
    rewrite IHy by done. by apply IHl.
  - apply wf_object in Hwf as [_ Hwf]. destruct members as [|[k x] members]; [done|].
    rewrite emit_object. cbn. rewrite !forallb_app. cbn.
    apply Forall_cons in IH as [IHx IH]. apply Forall_cons in Hwf as [[Hk Hx] Hwf].
    cbn in *. rewrite Hk, IHx by done. cbn. rewrite andb_true_r.
    induction members as [|[k' y] members IHl]; [done|]. cbn. rewrite forallb_app.
    apply Forall_cons in IH as [IHy IH]. apply Forall_cons in Hwf as [[Hk' Hy] Hwf].
    cbn in *. rewrite Hk', IHy by done. by apply IHl.
Qed.

Lemma sep_cons (x : token) (ts : list token) :
  isNumber x = false → sep (x :: ts) = sep ts.
Proof. intros Hx. cbn. by rewrite Hx. Qed.

(** Writing a separator after well-separated tokens keeps them so. *)
Lemma sep_app (a b : list token) (p : token) :
  isNumber p = false → sep a = true → sep b = true → sep (a ++ p :: b) = true.
Proof.
  intros Hp Ha Hb. induction a as [|x a IH]; cbn [app].
  - by rewrite sep_cons.
  - cbn in Ha. apply andb_true_iff in Ha as [Hx Ha]. cbn.
    rewrite IH by done. rewrite andb_true_r.
    destruct a as [|y a]; cbn in *; [by rewrite Hp, andb_false_r | done].
Qed.

Lemma sep_elems (l : list t) (close : token) :
  isNumber close = false →
  Forall (λ y, sep (emit y) = true) l →
  sep (emitElems l ++ [close]) = true.
Proof.
  intros Hc. induction 1 as [|y l Hy _ IH]; cbn [emitElems flat_map app].
  - by rewrite sep_cons.
  - rewrite sep_cons by done. rewrite <- app_assoc. fold (emitElems l).
    destruct l as [|z l].
    + by apply sep_app.
    + cbn [emitElems flat_map app] in *. apply sep_app; [done | done |].
      by rewrite sep_cons in IH.
Qed.

Lemma sep_members (l : list (string * t)) (close : token) :
  isNumber close = false →
  Forall (λ kv, sep (emit kv.2) = true) l →
  sep (emitMembers l ++ [close]) = true.
Proof.
  intros Hc. induction 1 as [|[k y] l Hy _ IH]; cbn [emitMembers flat_map app fst snd].
  - by rewrite sep_cons.
  - rewrite !sep_cons by done. rewrite <- app_assoc. fold (emitMembers l).
    destruct l as [|[k' z] l].
    + by apply sep_app.
    + cbn [emitMembers flat_map app] in *. apply sep_app; [done | done |].
      by rewrite sep_cons in IH.
Qed.

Lemma sep_emit (v : t) : sep (emit v) = true.
Proof.
  induction v as [| b | n | s | elems IH | members IH] using t_ind'.
  - done.
  - by destruct b.
  - done.
  - done.
  - destruct elems as [|x elems]; [done|]. rewrite emit_array.
    apply Forall_cons in IH as [IHx IH]. rewrite sep_cons by done.
    pose proof (sep_elems elems TRBrack eq_refl IH) as Hrest.
    destruct elems as [|y elems]; [by apply sep_app|].
    cbn [emitElems flat_map app] in *. apply sep_app; [done | done |].
    by rewrite sep_cons in Hrest.
  - destruct members as [|[k x] members]; [done|]. rewrite emit_object.
    apply Forall_cons in IH as [IHx IH]. rewrite !sep_cons by done.
    pose proof (sep_members members TRBrace eq_refl IH) as Hrest.
    destruct members as [|[k' y] members]; [by apply sep_app|].
    cbn [emitMembers flat_map app] in *. apply sep_app; [done | done |].
    by rewrite sep_cons in Hrest.
Qed.

(** A written document is read back, whatever whitespace it was written
    with. *)
Lemma parse_write (gap : nat → string) (v : t) :
  wf v = true → (∀ i, allWs (gap i) = true) → parse (write gap v) = Some v.
Proof.
  intros Hwf Hgap. unfold parse, write.
  rewrite lex_render by (auto using tokOk_emit, sep_emit).
  pose proof (parseValue_emit v Hwf (S (length (emit v))) []) as Hparse.
  rewrite app_nil_r in Hparse. by rewrite Hparse by lia.
Qed.

(** *** Reordered members compare equal *)

Lemma equal_array (xs ys : list t) :
  equal (Array xs) (Array ys)
  = match xs, ys with
    | [], [] => true
    | x :: xs, y :: ys => equal x y && equal (Array xs) (Array ys)
    | _, _ => false
    end.
Proof. by destruct xs, ys. Qed.

Lemma equal_object (ms ns : list (string * t)) :
  equal (Object ms) (Object ns)
  = bool_decide (length ms = length ns)
    && forallb (λ kv, match getKey kv.1 ns with
                      | Some w => equal kv.2 w
                      | None => false
                      end) ms.
Proof.
  cbn [equal]. f_equal.
  induction ms as [|[k v] ms IH]; cbn; [done|].
  destruct (getKey k ns); [by rewrite IH | done].
Qed.

Lemma getKey_NoDup (k : string) (w : t) (m : list (string * t)) :
  NoDup m.*1 → (k, w) ∈ m → getKey k m = Some w.
Proof.
  induction m as [|[k' v'] m IH]; cbn; intros Hnd Hin.
  - by apply elem_of_nil in Hin.
  - apply NoDup_cons in Hnd as [Hk' Hnd]. case_bool_decide as Hk.
    + subst k'. apply elem_of_cons in Hin as [[= ->] | Hin]; [done|].
      exfalso. apply Hk'. apply list_elem_of_fmap. by exists (k, w).
    + apply elem_of_cons in Hin as [[= -> ->] | Hin]; [done | by apply IH].
Qed.

Lemma Forall2_keys (R : t → t → Prop) (m m' : list (string * t)) :
  Forall2 (λ a b, a.1 = b.1 ∧ R a.2 b.2) m m' → m.*1 = m'.*1.
Proof. induction 1 as [|[] [] ? ? [? _] _ IH]; cbn in *; [done | by f_equal]. Qed.

Lemma Forall2_partner (R : t → t → Prop) (m m' : list (string * t)) :
  Forall2 (λ a b, a.1 = b.1 ∧ R a.2 b.2) m m' →
  Forall (λ kv, ∃ w, (kv.1, w) ∈ m' ∧ R kv.2 w) m.
Proof.
  induction 1 as [|[k v] [k' w] m m' [Hk Hv] _ IH]; constructor; cbn in *.
  - subst k'. exists w. split; [by left | done].
  - eapply Forall_impl; [exact IH|]. intros kv (w' & Hin & Hw). exists w'.
    split; [by right | done].
Qed.

(** A reordering of a document that can be written can be written too. *)
Lemma reorder_wf (a : t) : wf a = true → ∀ b, reorder a b → wf b = true.
Proof.
  induction a as [| c | n | s | elems IH | members IH] using t_ind';
    intros Hwf b Hab; inversion Hab; subst; try done.
  - apply wf_array in Hwf. apply wf_array.
    match goal with H : Forall2 reorder _ _ |- _ => rename H into Hl end.
    clear Hab. induction Hl as [|x y l l' Hxy _ IHl]; [done|].
    apply Forall_cons in IH as [IHx IH]. apply Forall_cons in Hwf as [Hx Hwf].
    constructor; [by apply IHx | by apply IHl].
  - apply wf_object in Hwf as [Hnd Hwf]. apply wf_object.
    match goal with
    | H : Forall2 _ members ?m', Hp : ?m' ≡ₚ ?m'' |- _ => rename H into Hl; rename Hp into Hperm
    end.
    split.
    + rewrite <- Hperm. by rewrite <- (Forall2_keys _ _ _ Hl).
    + rewrite <- Hperm. clear Hperm Hnd Hab.
      induction Hl as [|[k x] [k' y] l l' [Hk Hxy] _ IHl]; [done|].
      apply Forall_cons in IH as [IHx IH]. apply Forall_cons in Hwf as [[Hkx Hx] Hwf].
      cbn in *. subst k'. constructor; [split; [done | by apply IHx] | by apply IHl].
Qed.

Lemma equal_reorder (a : t) : wf a = true → ∀ b, reorder a b → equal a b = true.
Proof.
  induction a as [| c | n | s | elems IH | members IH] using t_ind';
    intros Hwf b Hab; inversion Hab; subst.
  - done.
  - cbn. by rewrite bool_decide_eq_true_2.
  - cbn. by rewrite bool_decide_eq_true_2.
  - cbn. by rewrite bool_decide_eq_true_2.
  - apply wf_array in Hwf.
    match goal with H : Forall2 reorder _ _ |- _ => rename H into Hl end.
    clear Hab. induction Hl as [|x y l l' Hxy _ IHl]; [done|].
    apply Forall_cons in IH as [IHx IH]. apply Forall_cons in Hwf as [Hx Hwf].
    rewrite equal_array, IHx by done. by apply IHl.
  - apply wf_object in Hwf as [Hnd Hwf].
    match goal with
    | H : Forall2 _ members ?m', Hp : ?m' ≡ₚ ?m'' |- _ => rename H into Hl; rename Hp into Hperm
    end.
    rewrite equal_object. apply andb_true_iff. split.
    + apply bool_decide_eq_true. rewrite <- Hperm. by eapply Forall2_length.
    + assert (NoDup m''.*1) as Hnd''.
      { rewrite <- Hperm. by rewrite <- (Forall2_keys _ _ _ Hl). }
      apply forallb_forall. intros [k v] Hin. apply list_elem_of_In in Hin. cbn.
      pose proof (Forall2_partner _ _ _ Hl) as Hpart.
      rewrite Forall_forall in Hpart, IH, Hwf.
      destruct (Hpart _ Hin) as (w & Hw & Hvw). cbn in Hw, Hvw.
      rewrite Hperm in Hw. rewrite (getKey_NoDup k w m'' Hnd'' Hw).
      apply (IH _ Hin); [by apply (Hwf _ Hin) | done].
Qed.
End json_facts.

(** ** Diff suppression of [body_template] *)

(** The function the schema installs for [body_template]. *)
Lemma body_template_DiffSuppressFunc :
  diffSuppressed (nestedSchema outgoingWebhookSchema "custom_webhook_template_attributes")
                 "body_template"
  = suppressEquivalentJSONDiffs.
Proof. reflexivity. Qed.

(** C7: two texts of the same JSON document, written with any whitespace
    between the tokens and with the members of the objects in any order,
    are reported as unchanged by the diff-suppression function of
    [body_template]. *)
Theorem body_template_equivalent_json_suppressed
    (a b : json.t) (gap1 gap2 : nat → string) (k : string) (d : schema.ResourceData) :
  json.wf a = true →
  json.reorder a b →
  (∀ i, json.allWs (gap1 i) = true) →
  (∀ i, json.allWs (gap2 i) = true) →
  diffSuppressed (nestedSchema outgoingWebhookSchema "custom_webhook_template_attributes")
                 "body_template" k (json.write gap1 a) (json.write gap2 b) d
  = true.
Proof.
  intros Hwf Hab Hgap1 Hgap2.
  rewrite body_template_DiffSuppressFunc. unfold suppressEquivalentJSONDiffs.
  rewrite (json_facts.parse_write gap1 a Hwf Hgap1).
  rewrite (json_facts.parse_write gap2 b (json_facts.reorder_wf a Hwf b Hab) Hgap2).
  by apply json_facts.equal_reorder.
Qed.

Lemma exampleDoc_reorder : json.reorder exampleDoc exampleDocSwapped.
Proof.
  unfold exampleDoc, exampleDocSwapped.
  eapply json.reorder_object; [|apply Permutation_swap].
  repeat constructor.
Defined.

Lemma body_template_equivalent_json_suppressed_witness :
  json.wf exampleDoc = true
  ∧ json.reorder exampleDoc exampleDocSwapped
  ∧ diffSuppressed (nestedSchema outgoingWebhookSchema "custom_webhook_template_attributes")
                   "body_template" "custom_webhook_template_attributes.0.body_template"
                   (json.write spaced exampleDoc) (json.write compact exampleDocSwapped)
                   exampleUpdate
    = true.
Proof.
  split; [vm_compute; reflexivity|]. split; [exact exampleDoc_reorder|].
  apply (body_template_equivalent_json_suppressed exampleDoc exampleDocSwapped spaced compact).
  - vm_compute. reflexivity.
  - exact exampleDoc_reorder.
  - intros i. reflexivity.
  - intros i. reflexivity.
Defined.

Example suppressEquivalentJSONDiffs_examples :
  let q := String json.quote EmptyString in
  let old := "{ " +:+ q +:+ "a" +:+ q +:+ " : 1, " +:+ q +:+ "b" +:+ q +:+ " : [true, null] }" in
  let new := "{" +:+ q +:+ "b" +:+ q +:+ ":[true,null]," +:+ q +:+ "a" +:+ q +:+ ":1}" in
  let other := "{" +:+ q +:+ "b" +:+ q +:+ ":[null,true]," +:+ q +:+ "a" +:+ q +:+ ":1}" in
  json.write spaced exampleDoc
  = " { " +:+ q +:+ "a" +:+ q +:+ " : 1 , " +:+ q +:+ "b" +:+ q +:+ " : [ true , null ] } "
  ∧ json.write compact exampleDocSwapped = new
  ∧ suppressEquivalentJSONDiffs "body_template" old new exampleUpdate = true
  ∧ suppressEquivalentJSONDiffs "body_template" old other exampleUpdate = false
  ∧ suppressEquivalentJSONDiffs "body_template" "plain text" "plain text" exampleUpdate = false.
Proof. vm_compute. repeat split. Qed.

(** * Further properties of the handlers *)

(** ** The IP-list lookup *)

Lemma selects_same_set (requested1 requested2 : list string) (e : string * list string) :
  (∀ cluster, cluster ∈ requested1 ↔ cluster ∈ requested2) →
  selects requested1 e ↔ selects requested2 e.
Proof.
  intros Hset. unfold selects.
  assert (requested1 = [] ↔ requested2 = []) as Hnil.
  { split; intros ->.
    - destruct requested2 as [|c ?]; [done|].
      assert (c ∈ @nil string) as Hc by (apply Hset; by left). by apply elem_of_nil in Hc.
    - destruct requested1 as [|c ?]; [done|].
      assert (c ∈ @nil string) as Hc by (apply Hset; by left). by apply elem_of_nil in Hc. }
  rewrite Hnil, (Hset e.1). done.
Qed.

(** X1: the filter is read as a set: two [filter_clusters] lists naming the
    same clusters, in any order and with any repetitions, select the same
    IPs in the same order and list the same clusters. *)
Theorem ipListFilter_same_set
    (rangeOrder : gmap string (list string) → list (string * list string))
    (ipData : gmap string (list string)) (requested1 requested2 : list string) :
  (∀ cluster, cluster ∈ requested1 ↔ cluster ∈ requested2) →
  ipListFilter rangeOrder ipData requested1 = ipListFilter rangeOrder ipData requested2.
Proof.
  intros Hset. rewrite !ipListFilter_spec. do 3 f_equal.
  apply list_filter_iff. intros e. by apply selects_same_set.
Qed.

Lemma ipListFilter_same_set_witness :
  (∀ cluster, cluster ∈ ["us"; "eu"; "us"] ↔ cluster ∈ ["eu"; "us"])
  ∧ ipListFilter map_to_list exampleIpData ["us"; "eu"; "us"]
    = ipListFilter map_to_list exampleIpData ["eu"; "us"].
Proof.
  assert (∀ cluster, cluster ∈ ["us"; "eu"; "us"] ↔ cluster ∈ ["eu"; "us"]) as Hset.
  { intros cluster. rewrite !elem_of_cons, !elem_of_nil. tauto. }
  split; [exact Hset|].
  exact (ipListFilter_same_set map_to_list exampleIpData _ _ Hset).
Defined.

Lemma filter_none {A} (P : A → Prop) `{∀ x, Decision (P x)} (l : list A) :
  Forall (λ x, ¬ P x) l → filter P l = [].
Proof.
  induction 1 as [|x l Hx _ IH]; [done|]. by rewrite filter_cons, decide_False, IH.
Qed.

(** X2: a non-empty filter that names no cluster of the response, and
    holds no empty name, selects nothing: [ips] is written empty (not the
    whole list), while [all_clusters] still lists every cluster of the
    response. *)
Theorem ipListLookup_unknown_clusters
    (json_Unmarshal : string → string + gmap string (list string))
    (rangeOrder : gmap string (list string) → list (string * list string))
    (d : schema.ResourceData) (meta : client) (res : http.Response) (body : string)
    (ipData : gmap string (list string)) (requested : list string) :
  (∀ m, rangeOrder m ≡ₚ map_to_list m) →
  schema.types d = ipListSchema →
  remote meta "/ips-by-cluster.json" = inr res →
  http.StatusCode res = http.StatusOK →
  http.Body res = http.ReadOk body →
  json_Unmarshal body = inr ipData →
  schema.Get d "filter_clusters" = schema.VStrings requested →
  requested ≠ [] →
  "" ∉ requested →
  (∀ cluster, cluster ∈ requested → ipData !! cluster = None) →
  (ipListLookup json_Unmarshal rangeOrder d meta).1.1 = Returns []
  ∧ schema.Get (ipListLookup json_Unmarshal rangeOrder d meta).1.2 "ips" = schema.VStrings []
  ∧ schema.Get (ipListLookup json_Unmarshal rangeOrder d meta).1.2 "all_clusters"
    = schema.VStrings (rangeOrder ipData).*1.
Proof.
  intros Hperm Hty Hres Hst Hbody Hjson Hget Hne Hnonempty Hunknown.
  rewrite (ipListLookup_ok _ _ _ _ _ _ _ _ Hty Hres Hst Hbody Hjson Hget Hnonempty).
  cbn [fst snd]. split; [done|].
  assert (filter (selects requested) (rangeOrder ipData) = []) as Hnone.
  { apply filter_none, Forall_forall. intros [cluster ips] Hin [Hnil | Hsel]; [done|].
    rewrite Hperm in Hin. apply elem_of_map_to_list in Hin.
    cbn in Hsel. rewrite (Hunknown _ Hsel) in Hin. done. }
  unfold schema.Get. cbn.
  rewrite lookup_insert_ne, !lookup_insert_eq by done. by rewrite Hnone.
Qed.

Lemma ipListLookup_unknown_clusters_witness :
  let d := exampleIpQuery ["asia"] in
  let meta := exampleIpClient 200 exampleIpBody in
  schema.Get d "filter_clusters" = schema.VStrings ["asia"]
  ∧ (ipListLookup exampleUnmarshal map_to_list d meta).1.1 = Returns []
  ∧ schema.Get (ipListLookup exampleUnmarshal map_to_list d meta).1.2 "ips" = schema.VStrings []
  ∧ schema.Get (ipListLookup exampleUnmarshal map_to_list d meta).1.2 "all_clusters"
    = schema.VStrings (map_to_list exampleIpData).*1.
Proof.
  intros d meta.
  assert (schema.Get d "filter_clusters" = schema.VStrings ["asia"]) as Hget
    by (vm_compute; reflexivity).
  split; [exact Hget|].
  apply (ipListLookup_unknown_clusters exampleUnmarshal map_to_list d meta
           (exampleIpResponse 200 exampleIpBody) exampleIpBody exampleIpData ["asia"]).
  - intros m. reflexivity.
  - reflexivity.
  - reflexivity.
  - reflexivity.
  - reflexivity.
  - vm_compute. reflexivity.
  - exact Hget.
  - discriminate.
  - intros Hin. apply list_elem_of_singleton in Hin. discriminate Hin.
  - intros cluster Hin. apply list_elem_of_singleton in Hin. subst cluster.
    vm_compute. reflexivity.
Defined.

(** X3: whatever the outcome, a panic included, the lookup writes no
    attribute but [ips] and [all_clusters], and [id] where the schema
    declares one, which the data source's does not: [filter_clusters] and
    every other attribute, the prior state and the schema are as before. *)
Theorem ipListLookup_frame
    (json_Unmarshal : string → string + gmap string (list string))
    (rangeOrder : gmap string (list string) → list (string * list string))
    (d : schema.ResourceData) (meta : client) (k : string) :
  k ≠ "ips" → k ≠ "all_clusters" →
  (k = "id" → schema.types d !! "id" = None) →
  schema.attrs (ipListLookup json_Unmarshal rangeOrder d meta).1.2 !! k = schema.attrs d !! k
  ∧ schema.state (ipListLookup json_Unmarshal rangeOrder d meta).1.2 = schema.state d
  ∧ schema.types (ipListLookup json_Unmarshal rangeOrder d meta).1.2 = schema.types d.
Proof.
  intros Hips Hall Hid. unfold ipListLookup, client_Get.
  destruct (remote meta _) as [err|res]; [done|].
  destruct (http.Body res) as [body|err]; [|done].
  destruct (negb _); [done|].
  destruct (json_Unmarshal body) as [err|ipData]; [done|].
  destruct (requestedClustersOf d) as [items|]; [|done].
  destruct (mapM assertString items) as [requested|]; [|done].
  destruct (ipListFilter _ _ _) as [filteredIPs allClusters].
  pose proof (SetId_lookup "betterstack_ip_list" d k Hid) as Hset.
  rewrite Set_strings. cbn [schema.SetId schema.types].
  destruct (schema.types d !! "ips") as [[]|]; try done.
  rewrite Set_strings. cbn [schema.types].
  destruct (schema.types d !! "all_clusters") as [[]|]; cbn [fst snd schema.attrs schema.state
                                                             schema.types];
    rewrite ?lookup_insert_ne by done; done.
Qed.

Lemma ipListLookup_frame_witness :
  let r := ipListLookup exampleUnmarshal map_to_list (exampleIpQuery ["us"])
             (exampleIpClient 200 exampleIpBody) in
  "filter_clusters" ≠ "ips" ∧ "filter_clusters" ≠ "all_clusters"
  ∧ schema.attrs r.1.2 !! "filter_clusters"
    = schema.attrs (exampleIpQuery ["us"]) !! "filter_clusters"
  ∧ schema.state r.1.2 = schema.state (exampleIpQuery ["us"])
  ∧ schema.types r.1.2 = schema.types (exampleIpQuery ["us"]).
Proof.
  assert ("filter_clusters" ≠ "ips") as H1 by discriminate.
  assert ("filter_clusters" ≠ "all_clusters") as H2 by discriminate.
  assert ("filter_clusters" = "id" → schema.types (exampleIpQuery ["us"]) !! "id" = None)
    as H3 by discriminate.
  split; [exact H1 | split; [exact H2 |]].
  exact (ipListLookup_frame exampleUnmarshal map_to_list (exampleIpQuery ["us"])
           (exampleIpClient 200 exampleIpBody) "filter_clusters" H1 H2 H3).
Defined.

(** X4: the lookup is all or nothing: with the data source's schema, either
    it returns no diagnostics and the ID is [betterstack_ip_list], or it
    returns a diagnostic, or it panics, and in these two cases the resource
    data, ID included, is exactly as it was: no failure (transport, status,
    body, decoding, a failed assertion) leaves a partial result behind. *)
Theorem ipListLookup_all_or_nothing
    (json_Unmarshal : string → string + gmap string (list string))
    (rangeOrder : gmap string (list string) → list (string * list string))
    (d : schema.ResourceData) (meta : client) :
  schema.types d = ipListSchema →
  let r := ipListLookup json_Unmarshal rangeOrder d meta in
  (r.1.1 = Returns [] ∧ schema.Id r.1.2 = "betterstack_ip_list")
  ∨ (∃ e diags, r.1.1 = Returns (e :: diags) ∧ r.1.2 = d)
  ∨ (∃ msg, r.1.1 = Panics msg ∧ r.1.2 = d).
Proof.
  intros Hty. cbn zeta. unfold ipListLookup, client_Get.
  destruct (remote meta _) as [err|res]; [right; left; by eexists _, _|].
  destruct (http.Body res) as [body|err]; [|right; left; by eexists _, _].
  destruct (negb _); [right; left; by eexists _, _|].
  destruct (json_Unmarshal body) as [err|ipData]; [right; left; by eexists _, _|].
  destruct (requestedClustersOf d) as [items|]; [|right; right; by eexists].
  destruct (mapM assertString items) as [requested|]; [|right; right; by eexists].
  destruct (ipListFilter _ _ _) as [filteredIPs allClusters].
  rewrite Set_strings. cbn [schema.SetId schema.types].
  rewrite Hty, ipListSchema_ips. rewrite Set_strings. cbn [schema.types].
  rewrite ipListSchema_all_clusters. by left.
Qed.

Lemma ipListLookup_all_or_nothing_witness :
  let d := exampleIpQuery ["us"; ""] in
  let r := ipListLookup exampleUnmarshal map_to_list d (exampleIpClient 200 exampleIpBody) in
  schema.types d = ipListSchema
  ∧ r.1.1 = Panics "interface conversion: interface {} is nil, not string"
  ∧ ((r.1.1 = Returns [] ∧ schema.Id r.1.2 = "betterstack_ip_list")
     ∨ (∃ e diags, r.1.1 = Returns (e :: diags) ∧ r.1.2 = d)
     ∨ (∃ msg, r.1.1 = Panics msg ∧ r.1.2 = d)).
Proof.
  split; [reflexivity|]. split; [vm_compute; reflexivity|].
  apply (ipListLookup_all_or_nothing exampleUnmarshal map_to_list (exampleIpQuery ["us"; ""])
           (exampleIpClient 200 exampleIpBody)).
  reflexivity.
Defined.

Lemma sameLists_refl (v : schema.value) : sameLists v v.
Proof. destruct v; cbn; reflexivity. Qed.

(** X5: looking up again with the same remote answer changes nothing but,
    possibly, the order of the two lists, each run ranging over the map in
    an order of its own: with the data source's schema the second run ends
    as the first did, with the same ID, prior state and other attributes,
    and with [ips] and [all_clusters] holding the same items; and each run
    sends one request. *)
Theorem ipListLookup_again
    (json_Unmarshal : string → string + gmap string (list string))
    (rangeOrder1 rangeOrder2 : gmap string (list string) → list (string * list string))
    (d : schema.ResourceData) (meta : client) :
  (∀ m, rangeOrder1 m ≡ₚ map_to_list m) →
  (∀ m, rangeOrder2 m ≡ₚ map_to_list m) →
  schema.types d = ipListSchema →
  let first := ipListLookup json_Unmarshal rangeOrder1 d meta in
  let second := ipListLookup json_Unmarshal rangeOrder2 first.1.2 first.2 in
  second.1.1 = first.1.1
  ∧ schema.Id second.1.2 = schema.Id first.1.2
  ∧ schema.state second.1.2 = schema.state first.1.2
  ∧ schema.types second.1.2 = schema.types first.1.2
  ∧ (∀ k, k ≠ "ips" → k ≠ "all_clusters" →
          schema.attrs second.1.2 !! k = schema.attrs first.1.2 !! k)
  ∧ sameLists (schema.Get second.1.2 "ips") (schema.Get first.1.2 "ips")
  ∧ sameLists (schema.Get second.1.2 "all_clusters") (schema.Get first.1.2 "all_clusters")
  ∧ sent second.2 = sent meta ++ ["/ips-by-cluster.json"; "/ips-by-cluster.json"].
Proof.
  intros Hperm1 Hperm2 Hty. cbn zeta.
  set (meta1 := {| remote := remote meta; sent := sent meta ++ ["/ips-by-cluster.json"] |}).
  set (meta2 := {| remote := remote meta;
                   sent := (sent meta ++ ["/ips-by-cluster.json"])
                           ++ ["/ips-by-cluster.json"] |}).
  assert (∀ o : outcome diag.Diagnostics,
            ipListLookup json_Unmarshal rangeOrder1 d meta = (o, d, meta1) →
            ipListLookup json_Unmarshal rangeOrder2 d meta1 = (o, d, meta2) →
            let first := ipListLookup json_Unmarshal rangeOrder1 d meta in
            let second := ipListLookup json_Unmarshal rangeOrder2 first.1.2 first.2 in
            second.1.1 = first.1.1
            ∧ schema.Id second.1.2 = schema.Id first.1.2
            ∧ schema.state second.1.2 = schema.state first.1.2
            ∧ schema.types second.1.2 = schema.types first.1.2
            ∧ (∀ k, k ≠ "ips" → k ≠ "all_clusters" →
                    schema.attrs second.1.2 !! k = schema.attrs first.1.2 !! k)
            ∧ sameLists (schema.Get second.1.2 "ips") (schema.Get first.1.2 "ips")
            ∧ sameLists (schema.Get second.1.2 "all_clusters")
                (schema.Get first.1.2 "all_clusters")
            ∧ sent second.2 = sent meta ++ ["/ips-by-cluster.json"; "/ips-by-cluster.json"])
    as Hsame.
  { intros o Hfirst Hsecond. cbn zeta. rewrite Hfirst. cbn [fst snd]. rewrite Hsecond.
    cbn [fst snd sent meta2]. rewrite <- app_assoc.
    repeat split; try done; apply sameLists_refl. }
  destruct (remote meta "/ips-by-cluster.json") as [err|res] eqn:Hres.
  { apply (Hsame (Returns (diag.FromErr err)));
      unfold ipListLookup, client_Get; cbn [remote sent meta1]; by rewrite Hres. }
  destruct (http.Body res) as [body|err] eqn:Hbody.
  2:{ apply (Hsame (Returns (diag.FromErr err)));
        unfold ipListLookup, client_Get; cbn [remote sent meta1]; by rewrite Hres, Hbody. }
  destruct (decide (http.StatusCode res = http.StatusOK)) as [Hst|Hst].
  2:{ apply (Hsame (Returns (diag.Errorf ("GET " +:+ http.RequestURL res +:+ " returned "
                                            +:+ pretty (http.StatusCode res) +:+ ": " +:+ body))));
        unfold ipListLookup, client_Get; cbn [remote sent meta1]; rewrite Hres, Hbody;
        by rewrite bool_decide_eq_false_2. }
  destruct (json_Unmarshal body) as [err|ipData] eqn:Hjson.
  { apply (Hsame (Returns (diag.FromErr err)));
      unfold ipListLookup, client_Get; cbn [remote sent meta1]; rewrite Hres, Hbody, Hjson;
      by rewrite bool_decide_eq_true_2. }
  destruct (requestedClustersOf d) as [items|] eqn:Hreq.
  2:{ apply (Hsame (Panics "interface conversion: interface {} is not []interface {}"));
        unfold ipListLookup, client_Get; cbn [remote sent meta1];
        rewrite Hres, Hbody, Hjson, Hreq; by rewrite bool_decide_eq_true_2. }
  assert (∃ requested, schema.Get d "filter_clusters" = schema.VStrings requested)
    as [requested Hget].
  { unfold requestedClustersOf in Hreq.
    destruct (schema.Get d "filter_clusters") as [| |l|]; try discriminate Hreq. by exists l. }
  destruct (decide ("" ∈ requested)) as [Hempty|Hnonempty].
  { apply (Hsame (Panics "interface conversion: interface {} is nil, not string")).
    - rewrite (ipListLookup_decoded _ rangeOrder1 d meta res body ipData requested
                 Hres Hst Hbody Hjson Hget).
      cbn zeta. by rewrite decide_True.
    - rewrite (ipListLookup_decoded _ rangeOrder2 d meta1 res body ipData requested
                 Hres Hst Hbody Hjson Hget).
      cbn zeta. by rewrite decide_True. }
  rewrite (ipListLookup_ok _ rangeOrder1 d meta res body ipData requested
             Hty Hres Hst Hbody Hjson Hget Hnonempty).
  cbn [fst snd].
  rewrite (ipListLookup_ok _ rangeOrder2 _ _ res body ipData requested); try done.
  2:{ unfold schema.Get, schema.zeroOf in *. cbn. by rewrite !lookup_insert_ne by done. }
  cbn [fst snd schema.Id schema.id schema.state schema.types schema.attrs sent].
  rewrite <- app_assoc.
  split; [done|]. split; [done|]. split; [done|]. split; [done|].
  split; [intros k Hk1 Hk2; by rewrite !lookup_insert_ne by done|].
  unfold schema.Get. cbn [schema.attrs].
  split; [|split; [|done]].
  - rewrite !(lookup_insert_ne _ "all_clusters") by done. rewrite !lookup_insert_eq. cbn.
    apply concat_Permutation. by rewrite Hperm1, Hperm2.
  - rewrite !lookup_insert_eq. cbn. by rewrite Hperm1, Hperm2.
Qed.

Lemma reversedOrder_Permutation (m : gmap string (list string)) :
  reversedOrder m ≡ₚ map_to_list m.
Proof. unfold reversedOrder. apply reverse_Permutation. Qed.

Lemma ipListLookup_again_witness :
  let first := ipListLookup exampleUnmarshal map_to_list (exampleIpQuery [])
                 (exampleIpClient 200 exampleIpBody) in
  let second := ipListLookup exampleUnmarshal reversedOrder first.1.2 first.2 in
  schema.types (exampleIpQuery []) = ipListSchema
  ∧ second.1.1 = first.1.1
  ∧ schema.Id second.1.2 = schema.Id first.1.2
  ∧ schema.Get second.1.2 "ips" ≠ schema.Get first.1.2 "ips"
  ∧ sameLists (schema.Get second.1.2 "ips") (schema.Get first.1.2 "ips")
  ∧ sameLists (schema.Get second.1.2 "all_clusters") (schema.Get first.1.2 "all_clusters")
  ∧ sent second.2 = ["/ips-by-cluster.json"; "/ips-by-cluster.json"].
Proof.
  destruct (ipListLookup_again exampleUnmarshal map_to_list reversedOrder (exampleIpQuery [])
              (exampleIpClient 200 exampleIpBody)
              (λ m, Permutation_refl _) reversedOrder_Permutation eq_refl)
    as (Hout & Hid & _ & _ & _ & Hips & Hall & Hsent).
  split; [reflexivity|]. split; [exact Hout|]. split; [exact Hid|].
  split; [vm_compute; discriminate|].
  split; [exact Hips|]. split; [exact Hall | exact Hsent].
Defined.

Example ipListLookup_twice :
  let first := ipListLookup exampleUnmarshal map_to_list (exampleIpQuery ["eu"])
                 (exampleIpClient 200 exampleIpBody) in
  let second := ipListLookup exampleUnmarshal reversedOrder first.1.2 first.2 in
  schema.Get second.1.2 "ips" = schema.VStrings ["10.0.0.1"; "10.0.0.2"]
  ∧ sent second.2 = ["/ips-by-cluster.json"; "/ips-by-cluster.json"].
Proof. vm_compute. split; reflexivity. Qed.

(** ** Copying a response back *)

Lemma setField_lookup (k k' : string) (v : schema.goval)
    (acc : diag.Diagnostics * schema.ResourceData) :
  schema.attrs (setField k v acc).2 !! k'
  = if decide (k = k') then
      match stored acc.2 k v with
      | Some w => Some w
      | None => schema.attrs acc.2 !! k'
      end
    else schema.attrs acc.2 !! k'.
Proof.
  unfold setField, schema.Set_, stored.
  destruct (schema.types acc.2 !! k) as [t|]; [|by case_decide].
  destruct (schema.normalise t v); cbn; [|by case_decide].
  case_decide; [subst; by rewrite lookup_insert_eq | by rewrite lookup_insert_ne].
Qed.

(** [d.Set] changes neither the schema, nor the ID, nor the prior state. *)
Lemma setField_keeps (k : string) (v : schema.goval)
    (acc : diag.Diagnostics * schema.ResourceData) :
  schema.types (setField k v acc).2 = schema.types acc.2
  ∧ schema.id (setField k v acc).2 = schema.id acc.2
  ∧ schema.state (setField k v acc).2 = schema.state acc.2.
Proof.
  unfold setField, schema.Set_.
  destruct (schema.types acc.2 !! k) as [t|]; [|done].
  by destruct (schema.normalise t v).
Qed.

Lemma foldl_setField_keeps (in_ : outgoingWebhook) (refs : list (string * fieldRef))
    (acc : diag.Diagnostics * schema.ResourceData) :
  let acc' := foldl (λ acc e, setField e.1 (deref e.2 in_) acc) acc refs in
  schema.types acc'.2 = schema.types acc.2
  ∧ schema.id acc'.2 = schema.id acc.2
  ∧ schema.state acc'.2 = schema.state acc.2.
Proof.
  revert acc. induction refs as [|[k r] refs IH]; intros acc; cbn; [done|].
  destruct (IH (setField k (deref r in_) acc)) as (Ht & Hi & Hs). cbn in Ht, Hi, Hs.
  destruct (setField_keeps k (deref r in_) acc) as (Ht' & Hi' & Hs').
  split; [congruence | split; congruence].
Qed.

Lemma stored_types (d d' : schema.ResourceData) (k : string) (v : schema.goval) :
  schema.types d' = schema.types d → stored d' k v = stored d k v.
Proof. intros Ht. unfold stored. by rewrite Ht. Qed.

Lemma refOf_None (k : string) (refs : list (string * fieldRef)) :
  refOf k refs = None ↔ k ∉ refs.*1.
Proof.
  induction refs as [|[k' r] refs IH]; cbn.
  - split; [intros _ ?%elem_of_nil; done | done].
  - rewrite not_elem_of_cons. case_bool_decide as Hk.
    + split; [done | by intros [Hne _]].
    + rewrite IH. split; [intros Hn; split; [congruence | done] | by intros [_ Hn]].
Qed.

Lemma refOf_Some (k : string) (r : fieldRef) (refs : list (string * fieldRef)) :
  NoDup refs.*1 → (k, r) ∈ refs → refOf k refs = Some r.
Proof.
  induction refs as [|[k' r'] refs IH]; cbn; intros Hnd Hin.
  - by apply elem_of_nil in Hin.
  - apply NoDup_cons in Hnd as [Hk' Hnd]. case_bool_decide as Hk.
    + subst k'. apply elem_of_cons in Hin as [[= ->] | Hin]; [done|].
      exfalso. apply Hk'. apply list_elem_of_fmap. by exists (k, r).
    + apply elem_of_cons in Hin as [[= -> ->] | Hin]; [done | by apply IH].
Qed.

(** What the loop over the reference list leaves under each key. *)
Lemma foldl_setField_lookup (in_ : outgoingWebhook) (refs : list (string * fieldRef))
    (acc : diag.Diagnostics * schema.ResourceData) (k : string) :
  NoDup refs.*1 →
  schema.attrs (foldl (λ acc e, setField e.1 (deref e.2 in_) acc) acc refs).2 !! k
  = match refOf k refs with
    | Some r =>
        match stored acc.2 k (deref r in_) with
        | Some w => Some w
        | None => schema.attrs acc.2 !! k
        end
    | None => schema.attrs acc.2 !! k
    end.
Proof.
  revert acc. induction refs as [|[k' r'] refs IH]; intros acc Hnd; cbn; [done|].
  cbn in Hnd. apply NoDup_cons in Hnd as [Hk' Hnd].
  rewrite IH by done. rewrite setField_lookup.
  destruct (setField_keeps k' (deref r' in_) acc) as (Ht & _ & _).
  case_bool_decide as Hk.
  - subst k'. rewrite decide_True by done.
    apply refOf_None in Hk'. by rewrite Hk'.
  - rewrite decide_False by done.
    destruct (refOf k refs) as [r|]; [|done]. by rewrite (stored_types _ _ _ _ Ht).
Qed.

Lemma outgoingWebhookRef_keys_NoDup (triggerType : string) :
  NoDup (outgoingWebhookRef triggerType).*1.
Proof.
  rewrite outgoingWebhookRef_keys. unfold incidentFields.
  case_bool_decide; cbn;
    repeat (apply NoDup_cons; split;
            [rewrite ?elem_of_cons, elem_of_nil; intros Hx; decompose [or] Hx; done|]);
    apply NoDup_nil_2.
Qed.

Lemma templateKey_not_ref (triggerType : string) :
  templateKey ∉ (outgoingWebhookRef triggerType).*1.
Proof.
  rewrite outgoingWebhookRef_keys, elem_of_app. unfold incidentFields, templateKey.
  case_bool_decide; rewrite ?elem_of_cons, ?elem_of_nil; intros Hx; decompose [or] Hx; done.
Qed.

(** What [outgoingWebhookCopyAttrs] leaves under each key: the value of the
    response where the key is one it writes and the write succeeds, the
    stored value otherwise. *)
Lemma outgoingWebhookCopyAttrs_lookup (d : schema.ResourceData) (in_ : outgoingWebhook)
    (k : string) :
  schema.attrs (outgoingWebhookCopyAttrs d in_).2 !! k
  = match
      (if decide (k = templateKey) then
         c ← CustomWebhookTemplateAttributes in_;
         stored d k (schema.GTemplates [templateMap c])
       else
         r ← refOf k (outgoingWebhookRef (default "" (TriggerType in_)));
         stored d k (deref r in_))
    with
    | Some w => Some w
    | None => schema.attrs d !! k
    end.
Proof.
  unfold outgoingWebhookCopyAttrs.
  pose proof (foldl_setField_keeps in_ (outgoingWebhookRef (default "" (TriggerType in_)))
                ([], d)) as (Ht & _ & _). cbn in Ht.
  pose proof (foldl_setField_lookup in_ (outgoingWebhookRef (default "" (TriggerType in_)))
                ([], d) k (outgoingWebhookRef_keys_NoDup _)) as Hfold. cbn [snd] in Hfold.
  case_decide as Hk.
  - subst k. pose proof (templateKey_not_ref (default "" (TriggerType in_))) as Hn.
    apply refOf_None in Hn. rewrite Hn in Hfold.
    unfold templateKey in *.
    destruct (CustomWebhookTemplateAttributes in_) as [c|]; cbn; [|done].
    rewrite setField_lookup, decide_True by done.
    rewrite (stored_types _ _ _ _ Ht), Hfold. done.
  - destruct (CustomWebhookTemplateAttributes in_) as [c|]; cbn.
    + rewrite setField_lookup, decide_False by done. rewrite Hfold.
      by destruct (refOf k _).
    + rewrite Hfold. by destruct (refOf k _).
Qed.

Lemma outgoingWebhookCopyAttrs_keeps (d : schema.ResourceData) (in_ : outgoingWebhook) :
  schema.types (outgoingWebhookCopyAttrs d in_).2 = schema.types d
  ∧ schema.id (outgoingWebhookCopyAttrs d in_).2 = schema.id d
  ∧ schema.state (outgoingWebhookCopyAttrs d in_).2 = schema.state d.
Proof.
  unfold outgoingWebhookCopyAttrs.
  pose proof (foldl_setField_keeps in_ (outgoingWebhookRef (default "" (TriggerType in_)))
                ([], d)) as (Ht & Hi & Hs). cbn in Ht, Hi, Hs.
  destruct (CustomWebhookTemplateAttributes in_) as [c|]; [|done].
  destruct (setField_keeps templateKey (schema.GTemplates [templateMap c])
              (foldl (λ acc e, setField e.1 (deref e.2 in_) acc) ([], d)
                     (outgoingWebhookRef (default "" (TriggerType in_)))))
    as (Ht' & Hi' & Hs').
  unfold templateKey in *. split; [congruence | split; congruence].
Qed.

Lemma normalise_deref (r : fieldRef) (in_ : outgoingWebhook) :
  is_Some (schema.normalise (refShape r) (deref r in_)).
Proof. destruct r; cbn; eauto. Qed.

(** With the resource's schema, a key of the reference list is overwritten
    with the response's field. *)
Lemma outgoingWebhookCopyAttrs_basic (d : schema.ResourceData) (in_ : outgoingWebhook)
    (k : string) (r : fieldRef) :
  schema.types d = schema.shapes outgoingWebhookSchema →
  (k, r) ∈ outgoingWebhookRef (default "" (TriggerType in_)) →
  schema.attrs (outgoingWebhookCopyAttrs d in_).2 !! k
  = schema.normalise (refShape r) (deref r in_).
Proof.
  intros Hty Hin. rewrite outgoingWebhookCopyAttrs_lookup.
  assert (k ≠ templateKey) as Hk.
  { intros ->. apply (templateKey_not_ref (default "" (TriggerType in_))).
    apply list_elem_of_fmap. by exists (templateKey, r). }
  rewrite decide_False by done.
  rewrite (refOf_Some k r _ (outgoingWebhookRef_keys_NoDup _) Hin). cbn.
  unfold stored. rewrite Hty, (outgoingWebhookRef_shape _ _ _ Hin).
  by destruct (normalise_deref r in_) as [w ->].
Qed.

Lemma outgoingWebhookRef_basic (triggerType : string) :
  ("id", RefID) ∈ outgoingWebhookRef triggerType
  ∧ ("name", RefName) ∈ outgoingWebhookRef triggerType
  ∧ ("url", RefURL) ∈ outgoingWebhookRef triggerType
  ∧ ("trigger_type", RefTriggerType) ∈ outgoingWebhookRef triggerType.
Proof.
  unfold outgoingWebhookRef. case_bool_decide; rewrite ?elem_of_app, !elem_of_cons; tauto.
Qed.

Lemma outgoingWebhookRef_flags :
  ("on_incident_started", RefOnIncidentStarted) ∈ outgoingWebhookRef "incident_change"
  ∧ ("on_incident_acknowledged", RefOnIncidentAcknowledged)
      ∈ outgoingWebhookRef "incident_change"
  ∧ ("on_incident_resolved", RefOnIncidentResolved) ∈ outgoingWebhookRef "incident_change".
Proof.
  unfold outgoingWebhookRef. rewrite bool_decide_eq_true_2 by done.
  rewrite !elem_of_app, !elem_of_cons. tauto.
Qed.

Lemma Get_of_lookup (d : schema.ResourceData) (k : string) (w : schema.value) :
  schema.attrs d !! k = Some w → schema.Get d k = w.
Proof. intros Hk. unfold schema.Get. by rewrite Hk. Qed.

(** The values the basic fields hold after a copy. *)
Lemma outgoingWebhookCopyAttrs_values (d : schema.ResourceData) (in_ : outgoingWebhook) :
  schema.types d = schema.shapes outgoingWebhookSchema →
  let d' := (outgoingWebhookCopyAttrs d in_).2 in
  schema.Get d' "id" = schema.VString (default "" (ID in_))
  ∧ schema.Get d' "name" = schema.VString (default "" (Name in_))
  ∧ schema.Get d' "url" = schema.VString (default "" (URL in_))
  ∧ schema.Get d' "trigger_type" = schema.VString (default "" (TriggerType in_))
  ∧ (TriggerType in_ = Some "incident_change" →
     schema.Get d' "on_incident_started"
     = schema.VBool (default false (OnIncidentStarted in_))
     ∧ schema.Get d' "on_incident_acknowledged"
       = schema.VBool (default false (OnIncidentAcknowledged in_))
     ∧ schema.Get d' "on_incident_resolved"
       = schema.VBool (default false (OnIncidentResolved in_))).
Proof.
  intros Hty d'. subst d'.
  destruct (outgoingWebhookRef_basic (default "" (TriggerType in_))) as (H1 & H2 & H3 & H4).
  split; [|split; [|split; [|split]]].
  - apply Get_of_lookup. by rewrite (outgoingWebhookCopyAttrs_basic d in_ _ _ Hty H1).
  - apply Get_of_lookup. by rewrite (outgoingWebhookCopyAttrs_basic d in_ _ _ Hty H2).
  - apply Get_of_lookup. by rewrite (outgoingWebhookCopyAttrs_basic d in_ _ _ Hty H3).
  - apply Get_of_lookup. by rewrite (outgoingWebhookCopyAttrs_basic d in_ _ _ Hty H4).
  - intros Htt. destruct outgoingWebhookRef_flags as (F1 & F2 & F3).
    assert (default "" (TriggerType in_) = "incident_change") as Hic by (by rewrite Htt).
    rewrite <- Hic in F1, F2, F3.
    split; [|split]; apply Get_of_lookup.
    + by rewrite (outgoingWebhookCopyAttrs_basic d in_ _ _ Hty F1).
    + by rewrite (outgoingWebhookCopyAttrs_basic d in_ _ _ Hty F2).
    + by rewrite (outgoingWebhookCopyAttrs_basic d in_ _ _ Hty F3).
Qed.

(** X6: reading a response back overwrites [id], [name], [url] and
    [trigger_type] with the response's values, a field the response leaves
    out (nil) being reset to the empty string; the incident flags are
    overwritten in the same way (nil as [false]) when the response's trigger
    type is [incident_change]. *)
Theorem outgoingWebhookCopyAttrs_overwrites (d : schema.ResourceData) (in_ : outgoingWebhook) :
  schema.types d = schema.shapes outgoingWebhookSchema →
  let d' := (outgoingWebhookCopyAttrs d in_).2 in
  schema.Get d' "id" = schema.VString (default "" (ID in_))
  ∧ schema.Get d' "name" = schema.VString (default "" (Name in_))
  ∧ schema.Get d' "url" = schema.VString (default "" (URL in_))
  ∧ schema.Get d' "trigger_type" = schema.VString (default "" (TriggerType in_))
  ∧ (TriggerType in_ = Some "incident_change" →
     schema.Get d' "on_incident_started"
     = schema.VBool (default false (OnIncidentStarted in_))
     ∧ schema.Get d' "on_incident_acknowledged"
       = schema.VBool (default false (OnIncidentAcknowledged in_))
     ∧ schema.Get d' "on_incident_resolved"
       = schema.VBool (default false (OnIncidentResolved in_))).
Proof.
  exact (outgoingWebhookCopyAttrs_values d in_).
Qed.

Lemma outgoingWebhookCopyAttrs_overwrites_witness :
  let d' := (outgoingWebhookCopyAttrs exampleUpdate exampleAnswer).2 in
  schema.types exampleUpdate = schema.shapes outgoingWebhookSchema
  ∧ TriggerType exampleAnswer = Some "incident_change"
  ∧ schema.Get exampleUpdate "name" = schema.VString "pager duty"
  ∧ schema.Get d' "name" = schema.VString ""
  ∧ schema.Get d' "on_incident_acknowledged" = schema.VBool false.
Proof.
  destruct (outgoingWebhookCopyAttrs_overwrites exampleUpdate exampleAnswer eq_refl)
    as (_ & Hname & _ & _ & Hflags).
  destruct (Hflags eq_refl) as (_ & Hack & _).
  split; [reflexivity|]. split; [reflexivity|]. split; [vm_compute; reflexivity|].
  split; [exact Hname | exact Hack].
Defined.

(** X7: copying a response back never changes the ID, the prior state or
    the schema, and writes under no key but [id], [name], [url],
    [trigger_type], the three incident flags and the template block: in
    particular [team_name] is never refreshed from the API. *)
Theorem outgoingWebhookCopyAttrs_frame (d : schema.ResourceData) (in_ : outgoingWebhook)
    (k : string) :
  k ∉ ["id"; "name"; "url"; "trigger_type"] ++ incidentFields ++ [templateKey] →
  schema.attrs (outgoingWebhookCopyAttrs d in_).2 !! k = schema.attrs d !! k
  ∧ schema.Id (outgoingWebhookCopyAttrs d in_).2 = schema.Id d
  ∧ schema.state (outgoingWebhookCopyAttrs d in_).2 = schema.state d
  ∧ schema.types (outgoingWebhookCopyAttrs d in_).2 = schema.types d.
Proof.
  intros Hk. destruct (outgoingWebhookCopyAttrs_keeps d in_) as (Ht & Hi & Hs).
  split; [|done].
  rewrite !elem_of_app in Hk. apply outgoingWebhookCopyAttrs_attrs_ne.
  - rewrite outgoingWebhookRef_keys, elem_of_app. case_bool_decide; [tauto|].
    rewrite elem_of_nil. tauto.
  - intros ->. apply Hk. right. right. by apply list_elem_of_singleton.
Qed.

Lemma outgoingWebhookCopyAttrs_frame_witness :
  ("team_name" ∉ ["id"; "name"; "url"; "trigger_type"] ++ incidentFields ++ [templateKey])
  ∧ TeamName exampleAnswer = Some "platform"
  ∧ schema.attrs (outgoingWebhookCopyAttrs exampleTemplated exampleAnswer).2 !! "team_name"
    = schema.attrs exampleTemplated !! "team_name"
  ∧ schema.Id (outgoingWebhookCopyAttrs exampleTemplated exampleAnswer).2
    = schema.Id exampleTemplated.
Proof.
  assert ("team_name" ∉ ["id"; "name"; "url"; "trigger_type"] ++ incidentFields ++ [templateKey])
    as Hk.
  { unfold incidentFields, templateKey. rewrite !elem_of_app, !elem_of_cons, !elem_of_nil.
    intros Hx. decompose [or] Hx; done. }
  destruct (outgoingWebhookCopyAttrs_frame exampleTemplated exampleAnswer "team_name" Hk)
    as (Hattrs & Hid & _).
  split; [exact Hk|]. split; [reflexivity|]. split; [exact Hattrs | exact Hid].
Defined.

(** X8: a response that carries no template leaves the stored template
    block as it is: the block is not cleared. *)
Theorem outgoingWebhookCopyAttrs_no_template (d : schema.ResourceData) (in_ : outgoingWebhook) :
  CustomWebhookTemplateAttributes in_ = None →
  schema.attrs (outgoingWebhookCopyAttrs d in_).2 !! templateKey
  = schema.attrs d !! templateKey.
Proof.
  intros Hnone. rewrite outgoingWebhookCopyAttrs_lookup.
  rewrite decide_True by done. by rewrite Hnone.
Qed.

Lemma outgoingWebhookCopyAttrs_no_template_witness :
  CustomWebhookTemplateAttributes exampleAnswer = None
  ∧ schema.attrs (outgoingWebhookCopyAttrs exampleTemplated exampleAnswer).2 !! templateKey
    = schema.attrs exampleTemplated !! templateKey.
Proof.
  split; [reflexivity|].
  exact (outgoingWebhookCopyAttrs_no_template exampleTemplated exampleAnswer eq_refl).
Defined.

Lemma setField_diag (k : string) (v : schema.goval)
    (acc : diag.Diagnostics * schema.ResourceData) :
  match stored acc.2 k v with
  | Some _ => (setField k v acc).1 = acc.1
  | None => ∃ e, (setField k v acc).1 = acc.1 ++ [e]
  end.
Proof.
  unfold stored, setField, schema.Set_.
  destruct (schema.types acc.2 !! k) as [t|]; [|by eexists].
  destruct (schema.normalise t v); [done | by eexists].
Qed.

Lemma foldl_setField_no_error (in_ : outgoingWebhook) (refs : list (string * fieldRef))
    (acc : diag.Diagnostics * schema.ResourceData) :
  Forall (λ e, is_Some (stored acc.2 e.1 (deref e.2 in_))) refs →
  (foldl (λ acc e, setField e.1 (deref e.2 in_) acc) acc refs).1 = acc.1.
Proof.
  revert acc. induction refs as [|[k r] refs IH]; intros acc Hall; cbn; [done|].
  apply Forall_cons in Hall as [[w Hw] Hall]. cbn in Hw.
  destruct (setField_keeps k (deref r in_) acc) as (Ht & _ & _).
  rewrite IH.
  - pose proof (setField_diag k (deref r in_) acc) as Hd. by rewrite Hw in Hd.
  - eapply Forall_impl; [exact Hall|]. intros e He. cbn in *.
    by rewrite (stored_types _ _ _ _ Ht).
Qed.

Lemma stored_template (d : schema.ResourceData) (c : customWebhookTemplateAttributes) :
  schema.types d = schema.shapes outgoingWebhookSchema →
  is_Some (stored d templateKey (schema.GTemplates [templateMap c]))
  ↔ ∀ repr, BodyTemplate c ≠ schema.IOther repr.
Proof.
  intros Hty. unfold stored. rewrite Hty.
  assert (schema.shapes outgoingWebhookSchema !! templateKey = Some schema.STemplates) as ->
    by (vm_compute; reflexivity).
  cbn. unfold schema.normTemplate. cbn.
  destruct (BodyTemplate c) as [|s|repr]; cbn.
  - split; [done | eauto].
  - split; [done | eauto].
  - split; [by intros [? ?] | intros Hn; by destruct (Hn repr)].
Qed.

(** With the resource's schema, every basic field is written without an
    error, so that the only diagnostic there can be is the template's. *)
Lemma outgoingWebhookCopyAttrs_diag (d : schema.ResourceData) (in_ : outgoingWebhook) :
  schema.types d = schema.shapes outgoingWebhookSchema →
  ((outgoingWebhookCopyAttrs d in_).1 = [] ↔ writable in_)
  ∧ length (outgoingWebhookCopyAttrs d in_).1 ≤ 1.
Proof.
  intros Hty.
  assert ((foldl (λ acc e, setField e.1 (deref e.2 in_) acc) ([], d)
                 (outgoingWebhookRef (default "" (TriggerType in_)))).1 = []) as Hfold.
  { apply (foldl_setField_no_error in_ _ ([], d)), Forall_forall. intros [k r] Hin.
    cbn. unfold stored. rewrite Hty, (outgoingWebhookRef_shape _ _ _ Hin).
    apply normalise_deref. }
  pose proof (foldl_setField_keeps in_ (outgoingWebhookRef (default "" (TriggerType in_)))
                ([], d)) as (Ht & _ & _). cbn in Ht.
  split.
  - unfold outgoingWebhookCopyAttrs, writable.
    destruct (CustomWebhookTemplateAttributes in_) as [c|]; [|by rewrite Hfold].
    pose proof (setField_diag templateKey (schema.GTemplates [templateMap c])
                  (foldl (λ acc e, setField e.1 (deref e.2 in_) acc) ([], d)
                         (outgoingWebhookRef (default "" (TriggerType in_))))) as Hd.
    rewrite (stored_types _ _ _ _ Ht) in Hd.
    rewrite <- (stored_template d c Hty). unfold templateKey in *.
    destruct (stored d _ _) as [w|].
    + rewrite Hd, Hfold. split; [eauto | done].
    + destruct Hd as [e ->]. rewrite Hfold. split; [done | by intros [? ?]].
  - unfold outgoingWebhookCopyAttrs.
    destruct (CustomWebhookTemplateAttributes in_) as [c|]; [|rewrite Hfold; cbn; lia].
    pose proof (setField_diag templateKey (schema.GTemplates [templateMap c])
                  (foldl (λ acc e, setField e.1 (deref e.2 in_) acc) ([], d)
                         (outgoingWebhookRef (default "" (TriggerType in_))))) as Hd.
    unfold templateKey in *.
    destruct (stored _ _ _) as [w|].
    + rewrite Hd, Hfold. cbn. lia.
    + destruct Hd as [e ->]. rewrite Hfold. cbn. lia.
Qed.

(** X9: with the resource's schema, copying a response back reports no
    diagnostic exactly when the response has no template or its
    [body_template] is absent or a string; otherwise it reports exactly one,
    for the template block, and the basic fields are written all the same:
    [id], [name], [url] and [trigger_type] hold the response's values, and so
    do the three incident flags when its trigger type is [incident_change]. *)
Theorem outgoingWebhookCopyAttrs_diagnostics (d : schema.ResourceData) (in_ : outgoingWebhook) :
  schema.types d = schema.shapes outgoingWebhookSchema →
  let d' := (outgoingWebhookCopyAttrs d in_).2 in
  ((outgoingWebhookCopyAttrs d in_).1 = [] ↔ writable in_)
  ∧ length (outgoingWebhookCopyAttrs d in_).1 ≤ 1
  ∧ schema.Get d' "id" = schema.VString (default "" (ID in_))
  ∧ schema.Get d' "name" = schema.VString (default "" (Name in_))
  ∧ schema.Get d' "url" = schema.VString (default "" (URL in_))
  ∧ schema.Get d' "trigger_type" = schema.VString (default "" (TriggerType in_))
  ∧ (TriggerType in_ = Some "incident_change" →
     schema.Get d' "on_incident_started"
     = schema.VBool (default false (OnIncidentStarted in_))
     ∧ schema.Get d' "on_incident_acknowledged"
       = schema.VBool (default false (OnIncidentAcknowledged in_))
     ∧ schema.Get d' "on_incident_resolved"
       = schema.VBool (default false (OnIncidentResolved in_))).
Proof.
  intros Hty d'. destruct (outgoingWebhookCopyAttrs_diag d in_ Hty) as [Hiff Hlen].
  split; [exact Hiff | split; [exact Hlen|]].
  exact (outgoingWebhookCopyAttrs_values d in_ Hty).
Qed.

Lemma outgoingWebhookCopyAttrs_diagnostics_witness :
  let d' := (outgoingWebhookCopyAttrs exampleUpdate exampleAnswerObject).2 in
  schema.types exampleUpdate = schema.shapes outgoingWebhookSchema
  ∧ ¬ writable exampleAnswerObject
  ∧ TriggerType exampleAnswerObject = Some "incident_change"
  ∧ (outgoingWebhookCopyAttrs exampleUpdate exampleAnswerObject).1 ≠ []
  ∧ length (outgoingWebhookCopyAttrs exampleUpdate exampleAnswerObject).1 ≤ 1
  ∧ schema.Get d' "id" = schema.VString "17"
  ∧ schema.Get d' "name" = schema.VString ""
  ∧ schema.Get d' "url" = schema.VString "https://example.com/hook"
  ∧ schema.Get d' "trigger_type" = schema.VString "incident_change"
  ∧ schema.Get d' "on_incident_started" = schema.VBool true
  ∧ schema.Get d' "on_incident_acknowledged" = schema.VBool false
  ∧ schema.Get d' "on_incident_resolved" = schema.VBool false.
Proof.
  assert (¬ writable exampleAnswerObject) as Hn.
  { intros Hw. exact (Hw "map[text:hello]" eq_refl). }
  destruct (outgoingWebhookCopyAttrs_diagnostics exampleUpdate exampleAnswerObject eq_refl)
    as (Hiff & Hlen & Hid & Hname & Hurl & Htt & Hflags).
  destruct (Hflags eq_refl) as (Hstarted & Hack & Hresolved).
  split; [reflexivity|]. split; [exact Hn|]. split; [reflexivity|].
  split; [intros Hnil; exact (Hn (proj1 Hiff Hnil))|]. split; [exact Hlen|].
  split; [exact Hid|]. split; [exact Hname|]. split; [exact Hurl|]. split; [exact Htt|].
  split; [exact Hstarted|]. split; [exact Hack | exact Hresolved].
Defined.

(** The diagnostics of a [d.Set] depend on the schema only. *)
Lemma setField_diag_types (k : string) (v : schema.goval)
    (acc acc' : diag.Diagnostics * schema.ResourceData) :
  schema.types acc'.2 = schema.types acc.2 →
  ∃ es, (setField k v acc).1 = acc.1 ++ es ∧ (setField k v acc').1 = acc'.1 ++ es.
Proof.
  intros Ht. unfold setField, schema.Set_. rewrite Ht.
  destruct (schema.types acc.2 !! k) as [t|].
  - destruct (schema.normalise t v); cbn.
    + exists []. by rewrite !app_nil_r.
    + by eexists.
  - by eexists.
Qed.

Lemma foldl_setField_diag_types (in_ : outgoingWebhook) (refs : list (string * fieldRef))
    (acc acc' : diag.Diagnostics * schema.ResourceData) :
  schema.types acc'.2 = schema.types acc.2 →
  ∃ es, (foldl (λ acc e, setField e.1 (deref e.2 in_) acc) acc refs).1 = acc.1 ++ es
        ∧ (foldl (λ acc e, setField e.1 (deref e.2 in_) acc) acc' refs).1 = acc'.1 ++ es.
Proof.
  revert acc acc'. induction refs as [|[k r] refs IH]; intros acc acc' Ht; cbn.
  - exists []. by rewrite !app_nil_r.
  - destruct (setField_diag_types k (deref r in_) acc acc' Ht) as (es1 & H1 & H1').
    destruct (setField_keeps k (deref r in_) acc) as (Hk & _ & _).
    destruct (setField_keeps k (deref r in_) acc') as (Hk' & _ & _).
    destruct (IH (setField k (deref r in_) acc) (setField k (deref r in_) acc'))
      as (es2 & H2 & H2'); [congruence|].
    exists (es1 ++ es2). rewrite H2, H2', H1, H1'. by rewrite !app_assoc.
Qed.

Lemma outgoingWebhookCopyAttrs_diag_types (d d' : schema.ResourceData) (in_ : outgoingWebhook) :
  schema.types d' = schema.types d →
  (outgoingWebhookCopyAttrs d' in_).1 = (outgoingWebhookCopyAttrs d in_).1.
Proof.
  intros Ht. unfold outgoingWebhookCopyAttrs.
  destruct (foldl_setField_diag_types in_ (outgoingWebhookRef (default "" (TriggerType in_)))
              ([], d) ([], d') Ht) as (es & H1 & H1').
  destruct (CustomWebhookTemplateAttributes in_) as [c|]; [|by rewrite H1, H1'].
  pose proof (foldl_setField_keeps in_ (outgoingWebhookRef (default "" (TriggerType in_)))
                ([], d)) as (Hk & _ & _).
  pose proof (foldl_setField_keeps in_ (outgoingWebhookRef (default "" (TriggerType in_)))
                ([], d')) as (Hk' & _ & _). cbn in Hk, Hk'.
  edestruct (setField_diag_types "custom_webhook_template_attributes"
               (schema.GTemplates [templateMap c])) as (es2 & H2 & H2');
    [|rewrite H2, H2', H1, H1'; done].
  congruence.
Qed.

(** X10: reading the same response again changes nothing: a second copy of
    the response into the result of the first returns the same diagnostics
    and the same resource data. *)
Theorem outgoingWebhookCopyAttrs_idempotent (d : schema.ResourceData) (in_ : outgoingWebhook) :
  outgoingWebhookCopyAttrs (outgoingWebhookCopyAttrs d in_).2 in_
  = outgoingWebhookCopyAttrs d in_.
Proof.
  destruct (outgoingWebhookCopyAttrs_keeps d in_) as (Ht & Hi & Hs).
  destruct (outgoingWebhookCopyAttrs_keeps (outgoingWebhookCopyAttrs d in_).2 in_)
    as (Ht' & Hi' & Hs').
  pose proof (outgoingWebhookCopyAttrs_diag_types d _ in_ Ht) as Hdiag.
  assert (schema.attrs (outgoingWebhookCopyAttrs (outgoingWebhookCopyAttrs d in_).2 in_).2
          = schema.attrs (outgoingWebhookCopyAttrs d in_).2) as Hattrs.
  { apply map_eq. intros k. rewrite (outgoingWebhookCopyAttrs_lookup _ in_ k).
    rewrite (outgoingWebhookCopyAttrs_lookup d in_ k).
    case_decide.
    - destruct (CustomWebhookTemplateAttributes in_) as [c|]; cbn; [|done].
      rewrite (stored_types _ _ _ _ Ht). by destruct (stored d k _).
    - destruct (refOf k _) as [r|]; cbn; [|done].
      rewrite (stored_types _ _ _ _ Ht). by destruct (stored d k _). }
  destruct (outgoingWebhookCopyAttrs (outgoingWebhookCopyAttrs d in_).2 in_)
    as [derr2 [t2 i2 s2 a2]].
  destruct (outgoingWebhookCopyAttrs d in_) as [derr1 [t1 i1 s1 a1]].
  cbn in *. congruence.
Qed.

(** ** The request bodies *)

Lemma elem_of_omitempty_member {A} (k x : string) (m : member) (f : A → member) (p : option A) :
  (x, m) ∈ omitempty k f p ↔ ∃ a, p = Some a ∧ x = k ∧ m = f a.
Proof.
  destruct p as [a|]; cbn.
  - rewrite list_elem_of_singleton. split.
    + intros [= -> ->]. eauto.
    + by intros (? & [= <-] & -> & ->).
  - split; [by intros ?%elem_of_nil | by intros (? & ? & _)].
Qed.

Ltac pick_ref r :=
  exists r; cbn [jsonKey deref]; split; [reflexivity|];
  match goal with H : _ = Some _ |- _ => rewrite H; reflexivity end.

(** The members of a marshalled request: the basic fields that are not nil,
    and the template when there is one. *)
Lemma elem_of_marshal (x : string) (m : member) (in_ : outgoingWebhook) :
  (x, m) ∈ marshal in_
  ↔ (∃ r, x = jsonKey r ∧ memberOf (deref r in_) = Some m)
    ∨ (x = templateKey
       ∧ ∃ c, CustomWebhookTemplateAttributes in_ = Some c ∧ m = MTemplate c).
Proof.
  unfold marshal. rewrite !elem_of_app, !elem_of_omitempty_member. split.
  - intros H. decompose [or ex and] H; subst;
      first [ right; split; [reflexivity|]; eexists; split; [eassumption|reflexivity]
            | left;
              first [ pick_ref RefID | pick_ref RefName | pick_ref RefURL
                    | pick_ref RefTriggerType | pick_ref RefOnIncidentStarted
                    | pick_ref RefOnIncidentAcknowledged | pick_ref RefOnIncidentResolved
                    | pick_ref RefTeamName ] ].
  - intros [(r & -> & Hm) | (-> & c & Hc & ->)]; [|eauto 15].
    destruct r; cbn [jsonKey deref] in *;
      match type of Hm with
      | memberOf (_ ?f) = _ => destruct f as [a|] eqn:Hf; [injection Hm as <-|discriminate]
      end; eauto 15.
Qed.

Lemma deref_foldl_load_changed_notin (d : schema.ResourceData)
    (refs : list (string * fieldRef)) (in_ : outgoingWebhook) (r : fieldRef) :
  r ∉ refs.*2 →
  deref r (foldl (λ in_ e, if schema.HasChange d e.1 then load d e.1 e.2 in_ else in_) in_ refs)
  = deref r in_.
Proof.
  revert in_. induction refs as [|[k1 r1] refs IH]; intros in_ Hr; cbn; [done|].
  cbn in Hr. rewrite not_elem_of_cons in Hr. destruct Hr as [Hne Hr].
  rewrite IH by done. destruct (schema.HasChange d k1); [|done]. by apply deref_load_ne.
Qed.

Lemma template_foldl_load_changed (d : schema.ResourceData) (refs : list (string * fieldRef))
    (in_ : outgoingWebhook) :
  CustomWebhookTemplateAttributes
    (foldl (λ in_ e, if schema.HasChange d e.1 then load d e.1 e.2 in_ else in_) in_ refs)
  = CustomWebhookTemplateAttributes in_.
Proof.
  revert in_. induction refs as [|[k1 r1] refs IH]; intros in_; cbn; [done|].
  rewrite IH. destruct (schema.HasChange d k1); [|done]. apply template_load.
Qed.

(** In the update's loop, the field of an entry ends up loaded when the
    entry's key has changed and nil otherwise. *)
Lemma deref_foldl_load_changed_in (d : schema.ResourceData) (refs : list (string * fieldRef))
    (in_ : outgoingWebhook) (k : string) (r : fieldRef) :
  NoDup refs.*2 → (k, r) ∈ refs →
  deref r (foldl (λ in_ e, if schema.HasChange d e.1 then load d e.1 e.2 in_ else in_) in_ refs)
  = if schema.HasChange d k then deref r (load d k r in_) else deref r in_.
Proof.
  revert in_. induction refs as [|[k1 r1] refs IH]; intros in_ Hnd Hin.
  - by apply elem_of_nil in Hin.
  - cbn in Hnd. apply NoDup_cons in Hnd as [Hr1 Hnd]. cbn.
    apply elem_of_cons in Hin as [[= <- <-] | Hin].
    + rewrite deref_foldl_load_changed_notin by done. by destruct (schema.HasChange d k).
    + rewrite IH by done.
      assert (r1 ≠ r) as Hne.
      { intros ->. apply Hr1. apply list_elem_of_fmap. by exists (k, r). }
      destruct (schema.HasChange d k1), (schema.HasChange d k);
        rewrite ?deref_load_eq, ?deref_load_ne; done.
Qed.

(** The field the update request holds for an entry of the reference list. *)
Lemma outgoingWebhookUpdateRequest_deref (d : schema.ResourceData) (k : string) (r : fieldRef) :
  (k, r) ∈ outgoingWebhookRef (getString d "trigger_type") →
  deref r (outgoingWebhookUpdateRequest d)
  = if schema.HasChange d k then deref r (load d k r emptyWebhook) else deref r emptyWebhook.
Proof.
  intros Hin. unfold outgoingWebhookUpdateRequest.
  assert (∀ in_, deref r (if schema.HasChange d "custom_webhook_template_attributes"
                          then loadTemplate d in_ else in_) = deref r in_) as ->.
  { intros in_. destruct (schema.HasChange d _); [apply deref_loadTemplate | done]. }
  apply deref_foldl_load_changed_in; [apply outgoingWebhookRef_NoDup | done].
Qed.

Lemma outgoingWebhookRef_refs (triggerType k : string) (r : fieldRef) :
  (k, r) ∈ outgoingWebhookRef triggerType → jsonKey r = k.
Proof.
  intros Hin. pose proof (outgoingWebhookRef_jsonKey triggerType) as Hall.
  rewrite Forall_forall in Hall. exact (Hall _ Hin).
Qed.

(** The field of the update request behind a reference that the list does
    not hold is nil. *)
Lemma outgoingWebhookUpdateRequest_deref_notin (d : schema.ResourceData) (r : fieldRef) :
  r ∉ (outgoingWebhookRef (getString d "trigger_type")).*2 →
  deref r (outgoingWebhookUpdateRequest d) = deref r emptyWebhook.
Proof.
  intros Hr. unfold outgoingWebhookUpdateRequest.
  assert (∀ in_, deref r (if schema.HasChange d "custom_webhook_template_attributes"
                          then loadTemplate d in_ else in_) = deref r in_) as ->.
  { intros in_. destruct (schema.HasChange d _); [apply deref_loadTemplate | done]. }
  by apply deref_foldl_load_changed_notin.
Qed.

Lemma outgoingWebhookUpdateRequest_template (d : schema.ResourceData) :
  CustomWebhookTemplateAttributes (outgoingWebhookUpdateRequest d)
  = if schema.HasChange d templateKey then
      match schema.Get d templateKey with
      | schema.VTemplates (attrs :: _) => Some (templateOfAttrs attrs)
      | _ => None
      end
    else None.
Proof.
  unfold outgoingWebhookUpdateRequest, templateKey.
  destruct (schema.HasChange d _); [|by rewrite template_foldl_load_changed].
  unfold loadTemplate, schema.GetOk.
  destruct (schema.Get d "custom_webhook_template_attributes") as [| | |[|attrs rest]] eqn:Hget;
    rewrite ?template_foldl_load_changed; try done.
  unfold schema.Get in Hget.
  destruct (schema.attrs d !! "custom_webhook_template_attributes") as [v|] eqn:Hv; cbn in Hget.
  - subst v. unfold schema.zeroOf.
    destruct (schema.types d !! "custom_webhook_template_attributes") as [[]|]; cbn;
      by destruct (foldl _ _ _).
  - unfold schema.zeroOf in Hget.
    by destruct (schema.types d !! "custom_webhook_template_attributes") as [[]|].
Qed.

Lemma jsonKey_inj (r r' : fieldRef) : jsonKey r = jsonKey r' → r = r'.
Proof. by destruct r, r'. Qed.

Lemma Get_set (d : schema.ResourceData) (k : string) (w : schema.value) :
  schema.Get d k = w → w ≠ schema.zeroOf d k → schema.attrs d !! k = Some w.
Proof.
  unfold schema.Get. destruct (schema.attrs d !! k) as [v|]; cbn; congruence.
Qed.

(** [GetOk] on the template block finds a first item exactly when [Get]
    does: the zero value of no type is a list with an item. *)
Lemma GetOk_templates {A} (d : schema.ResourceData) (k : string)
    (f : schema.templateBlock → A) (g : A) :
  match schema.GetOk d k with
  | (schema.VTemplates (attrs :: _), true) => f attrs
  | _ => g
  end
  = match schema.Get d k with
    | schema.VTemplates (attrs :: _) => f attrs
    | _ => g
    end.
Proof.
  unfold schema.GetOk.
  destruct (schema.Get d k) as [| | |[|attrs rest]] eqn:Hget; try done;
    [by destruct (_ && _)..|].
  rewrite (Get_set d k _ Hget).
  - rewrite bool_decide_eq_true_2 by eauto. cbn.
    rewrite bool_decide_eq_false_2; [done|].
    unfold schema.zeroOf. by destruct (schema.types d !! k) as [[]|].
  - unfold schema.zeroOf. by destruct (schema.types d !! k) as [[]|].
Qed.

Lemma outgoingWebhookCreateRequest_template_Get (d : schema.ResourceData) :
  CustomWebhookTemplateAttributes (outgoingWebhookCreateRequest d)
  = match schema.Get d templateKey with
    | schema.VTemplates (attrs :: _) => Some (templateOfAttrs attrs)
    | _ => None
    end.
Proof.
  rewrite outgoingWebhookCreateRequest_template. apply GetOk_templates.
Qed.

Lemma team_name_not_ref (triggerType : string) :
  RefTeamName ∉ (outgoingWebhookRef triggerType).*2.
Proof.
  intros ([k r] & Hr & Hin)%list_elem_of_fmap. cbn in Hr. subst r.
  by eapply outgoingWebhookRef_not_team_name.
Qed.

Lemma exampleUpdate_wellTyped : wellTyped exampleUpdate.
Proof. unfold wellTyped. apply (bool_decide_unpack _). vm_compute. exact I. Qed.

(** X11: the team name is sent when the resource is created, exactly when
    the record sets it, and is never sent by an update, whatever has
    changed. *)
Theorem team_name_sent_on_create_only (d : schema.ResourceData) :
  wellTyped d →
  schema.types d !! "team_name" = Some schema.SString →
  (∀ m, ("team_name", m) ∈ marshal (outgoingWebhookCreateRequest d)
        ↔ is_Some (schema.attrs d !! "team_name")
          ∧ m = MString (getString d "team_name"))
  ∧ (∀ m, ("team_name", m) ∉ marshal (outgoingWebhookUpdateRequest d)).
Proof.
  intros Htyped Hty.
  assert (∀ in_ m, ("team_name", m) ∈ marshal in_
                   ↔ memberOf (deref RefTeamName in_) = Some m) as Hteam.
  { intros in_ m. rewrite elem_of_marshal. split.
    - intros [(r & Hr & Hm) | (? & _)]; [|done].
      by rewrite (jsonKey_inj RefTeamName r Hr).
    - intros Hm. left. by exists RefTeamName. }
  split; intros m; rewrite Hteam.
  - unfold outgoingWebhookCreateRequest.
    rewrite deref_loadTemplate, deref_load_eq.
    rewrite deref_foldl_load_notin by apply team_name_not_ref.
    unfold schema.GetOkExists, getString, schema.Get, schema.zeroOf. rewrite Hty.
    destruct (schema.attrs d !! "team_name") as [v|] eqn:Hv; cbn.
    + pose proof (Htyped _ _ Hv) as Hs. cbn in Hs. rewrite Hty in Hs.
      destruct v; try discriminate Hs. cbn.
      split; [intros [= <-]; eauto | by intros [_ ->]].
    + split; [done | by intros [[? ?] _]].
  - rewrite outgoingWebhookUpdateRequest_deref_notin by apply team_name_not_ref. done.
Qed.

Lemma team_name_sent_on_create_only_witness :
  wellTyped exampleTemplated
  ∧ schema.types exampleTemplated !! "team_name" = Some schema.SString
  ∧ ("team_name", MString "ops") ∈ marshal (outgoingWebhookCreateRequest exampleTemplated)
  ∧ (∀ m, ("team_name", m) ∉ marshal (outgoingWebhookUpdateRequest exampleTemplated)).
Proof.
  pose proof (proj1 (proj2 exampleTemplated_wellFormed)) as Htyped.
  assert (schema.types exampleTemplated !! "team_name" = Some schema.SString) as Hty
    by (vm_compute; reflexivity).
  destruct (team_name_sent_on_create_only exampleTemplated Htyped Hty) as [Hcreate Hupdate].
  split; [exact Htyped | split; [exact Hty | split; [|exact Hupdate]]].
  apply Hcreate. split; [vm_compute; eauto | vm_compute; reflexivity].
Defined.

(** X12: an update carries the template exactly when the block has changed
    and now has an item, and then carries the whole template built from the
    first item; so the removal of the block is not transmitted. *)
Theorem outgoingWebhookUpdateRequest_template_sent (d : schema.ResourceData) :
  (∀ m, (templateKey, m) ∈ marshal (outgoingWebhookUpdateRequest d)
        ↔ schema.HasChange d templateKey = true
          ∧ ∃ attrs rest, schema.Get d templateKey = schema.VTemplates (attrs :: rest)
                          ∧ m = MTemplate (templateOfAttrs attrs))
  ∧ (schema.Get d templateKey = schema.VTemplates [] →
     templateKey ∉ payloadKeys (outgoingWebhookUpdateRequest d)).
Proof.
  assert (∀ m, (templateKey, m) ∈ marshal (outgoingWebhookUpdateRequest d)
               ↔ schema.HasChange d templateKey = true
                 ∧ ∃ attrs rest, schema.Get d templateKey = schema.VTemplates (attrs :: rest)
                                 ∧ m = MTemplate (templateOfAttrs attrs)) as Hiff.
  { intros m. rewrite elem_of_marshal, outgoingWebhookUpdateRequest_template. split.
    - intros [(r & Hr & _) | (_ & c & Hc & ->)]; [by destruct r|].
      destruct (schema.HasChange d templateKey); [|done].
      destruct (schema.Get d templateKey) as [| | |[|attrs rest]]; try done.
      injection Hc as <-. eauto.
    - intros (-> & attrs & rest & -> & ->). right. eauto. }
  split; [exact Hiff|].
  intros Hget ([k m] & Hk & Hin)%list_elem_of_fmap. cbn in Hk. subst k.
  apply Hiff in Hin as (_ & attrs & rest & Hget' & _). congruence.
Qed.

Lemma outgoingWebhookUpdateRequest_template_sent_witness :
  schema.HasChange exampleTemplateRemoved templateKey = true
  ∧ schema.Get exampleTemplateRemoved templateKey = schema.VTemplates []
  ∧ templateKey ∉ payloadKeys (outgoingWebhookUpdateRequest exampleTemplateRemoved).
Proof.
  assert (schema.Get exampleTemplateRemoved templateKey = schema.VTemplates []) as Hget
    by (vm_compute; reflexivity).
  split; [vm_compute; reflexivity | split; [exact Hget|]].
  exact (proj2 (outgoingWebhookUpdateRequest_template_sent exampleTemplateRemoved) Hget).
Defined.

(** X13: for a key of the reference list, an update carries a member under
    the key exactly when the key's value has changed and is set, and the
    member is then the record's current value. *)
Theorem outgoingWebhookUpdateRequest_sends_current (d : schema.ResourceData)
    (k : string) (r : fieldRef) (m : member) :
  wellTyped d →
  schema.types d = schema.shapes outgoingWebhookSchema →
  (k, r) ∈ outgoingWebhookRef (getString d "trigger_type") →
  (k, m) ∈ marshal (outgoingWebhookUpdateRequest d)
  ↔ schema.HasChange d k = true
    ∧ is_Some (schema.attrs d !! k)
    ∧ memberOfValue (schema.Get d k) = Some m.
Proof.
  intros Htyped Hty Hin.
  pose proof (outgoingWebhookRef_refs _ _ _ Hin) as Hk.
  pose proof (outgoingWebhookRef_shape _ _ _ Hin) as Hshape. rewrite <- Hty in Hshape.
  assert ((k, m) ∈ marshal (outgoingWebhookUpdateRequest d)
          ↔ memberOf (deref r (outgoingWebhookUpdateRequest d)) = Some m) as ->.
  { rewrite elem_of_marshal. split.
    - intros [(r' & Hr' & Hm) | (-> & _)].
      + rewrite <- Hk in Hr'. by rewrite (jsonKey_inj r r' Hr').
      + by destruct r.
    - intros Hm. left. by exists r. }
  rewrite (outgoingWebhookUpdateRequest_deref d k r Hin).
  destruct (schema.HasChange d k).
  - rewrite deref_load_eq. unfold schema.GetOkExists, schema.Get, schema.zeroOf.
    rewrite Hshape.
    destruct (schema.attrs d !! k) as [v|] eqn:Hv; cbn.
    + pose proof (Htyped _ _ Hv) as Hs. cbn in Hs. rewrite Hshape in Hs.
      injection Hs as Hs.
      destruct v, r; try discriminate Hs; cbn;
        (split; [intros [= <-]; eauto | by intros (_ & _ & [= <-])]).
    + destruct r; cbn; (split; [done | by intros (_ & [? ?] & _)]).
  - destruct r; cbn; (split; [done | by intros (? & _)]).
Qed.

Lemma outgoingWebhookUpdateRequest_sends_current_witness :
  wellTyped exampleUpdate
  ∧ ("name", RefName) ∈ outgoingWebhookRef (getString exampleUpdate "trigger_type")
  ∧ schema.HasChange exampleUpdate "name" = true
  ∧ ("name", MString "pager duty") ∈ marshal (outgoingWebhookUpdateRequest exampleUpdate)
  ∧ (∀ m, ("url", m) ∉ marshal (outgoingWebhookUpdateRequest exampleUpdate)).
Proof.
  assert (("name", RefName) ∈ outgoingWebhookRef (getString exampleUpdate "trigger_type"))
    as Hname by (vm_compute; apply list_elem_of_In; right; left; reflexivity).
  assert (("url", RefURL) ∈ outgoingWebhookRef (getString exampleUpdate "trigger_type"))
    as Hurl by (vm_compute; apply list_elem_of_In; right; right; left; reflexivity).
  assert (schema.HasChange exampleUpdate "name" = true) as Hc by (vm_compute; reflexivity).
  split; [exact exampleUpdate_wellTyped | split; [exact Hname | split; [exact Hc | split]]].
  - apply (outgoingWebhookUpdateRequest_sends_current exampleUpdate "name" RefName
             (MString "pager duty") exampleUpdate_wellTyped eq_refl Hname).
    split; [exact Hc | split; [vm_compute; eauto | vm_compute; reflexivity]].
  - intros m Hin.
    apply (outgoingWebhookUpdateRequest_sends_current exampleUpdate "url" RefURL m
             exampleUpdate_wellTyped eq_refl Hurl) in Hin as (Hchanged & _).
    vm_compute in Hchanged. discriminate Hchanged.
Defined.

(** X14: a record that passes validation loses no flag on creation: every
    incident flag it sets is carried, with the value true, by the create
    request. *)
Theorem validated_flags_are_sent (d : schema.ResourceData) (flag : string) :
  validateOutgoingWebhook d = None →
  flag ∈ incidentFields →
  flagSet d flag →
  (flag, MBool true) ∈ marshal (outgoingWebhookCreateRequest d).
Proof.
  intros Hvalid Hflag Hset.
  assert (getString d "trigger_type" = "incident_change") as Htt.
  { destruct (decide (getString d "trigger_type" = "incident_change")) as [|Hne]; [done|].
    destruct (validateIncidentFields_first_set (getString d "trigger_type") d incidentFields Hne)
      as (? & ? & ? & _ & _ & _ & Hv).
    - apply Exists_exists. eauto.
    - unfold validateOutgoingWebhook in Hvalid. unfold incidentFields in Hv. congruence. }
  assert (∃ r, (flag, r) ∈ outgoingWebhookRef (getString d "trigger_type")
               ∧ refShape r = schema.SBool) as (r & Hin & Hshape).
  { rewrite Htt. unfold incidentFields in Hflag. unfold outgoingWebhookRef.
    rewrite bool_decide_eq_true_2 by done.
    rewrite !elem_of_cons, elem_of_nil in Hflag.
    destruct Hflag as [->|[->|[->|[]]]];
      [exists RefOnIncidentStarted | exists RefOnIncidentAcknowledged
       | exists RefOnIncidentResolved];
      (split; [|done]); rewrite elem_of_app, !elem_of_cons; tauto. }
  apply elem_of_marshal. left. exists r.
  split; [symmetry; by eapply outgoingWebhookRef_refs|].
  rewrite (outgoingWebhookCreateRequest_deref d flag r Hin), deref_load_eq, Hshape.
  unfold schema.GetOkExists. unfold flagSet in Hset. rewrite Hset.
  rewrite (Get_set d flag _ Hset).
  - by rewrite bool_decide_eq_true_2 by eauto.
  - unfold schema.zeroOf. by destruct (schema.types d !! flag) as [[]|].
Qed.

Lemma validated_flags_are_sent_witness :
  validateOutgoingWebhook exampleIncident = None
  ∧ "on_incident_started" ∈ incidentFields
  ∧ flagSet exampleIncident "on_incident_started"
  ∧ ("on_incident_started", MBool true) ∈ marshal (outgoingWebhookCreateRequest exampleIncident).
Proof.
  assert (validateOutgoingWebhook exampleIncident = None) as Hvalid by (vm_compute; reflexivity).
  assert ("on_incident_started" ∈ incidentFields) as Hflag
    by (apply list_elem_of_In; left; reflexivity).
  assert (flagSet exampleIncident "on_incident_started") as Hset by (vm_compute; reflexivity).
  split; [exact Hvalid | split; [exact Hflag | split; [exact Hset|]]].
  exact (validated_flags_are_sent exampleIncident "on_incident_started" Hvalid Hflag Hset).
Defined.

(** The template built from a block is written back as the block with its
    [id] cleared. *)
Lemma normalise_templateOfAttrs (attrs : schema.templateBlock) :
  schema.normalise schema.STemplates (schema.GTemplates [templateMap (templateOfAttrs attrs)])
  = Some (schema.VTemplates [withoutId attrs]).
Proof.
  rewrite templateOfAttrs_fields.
  destruct attrs as [i m u p hs b]. cbn.
  unfold schema.normTemplate, templateMap, withoutId. cbn.
  destruct hs as [|h hs]; cbn; [done|].
  rewrite bool_decide_eq_true_2 by lia. cbn.
  pose proof (headers_round_trip (h :: hs)) as Hh. cbn in Hh. by rewrite Hh.
Qed.

(** X15: when the API answers with the template a request was built from,
    copying the answer back stores the block the request was built from,
    but for its computed [id], which the request did not carry and which is
    stored empty. *)
Theorem template_round_trip (d : schema.ResourceData) (in_ : outgoingWebhook)
    (attrs : schema.templateBlock) :
  schema.types d !! templateKey = Some schema.STemplates →
  CustomWebhookTemplateAttributes in_ = Some (templateOfAttrs attrs) →
  schema.Get (outgoingWebhookCopyAttrs d in_).2 templateKey
  = schema.VTemplates [withoutId attrs].
Proof.
  intros Hty Hc. apply Get_of_lookup.
  rewrite outgoingWebhookCopyAttrs_lookup, decide_True by done.
  rewrite Hc. cbn. unfold stored. rewrite Hty. by rewrite normalise_templateOfAttrs.
Qed.

Lemma template_round_trip_witness :
  let in_ := setTemplate (Some (templateOfAttrs exampleBlock)) exampleAnswer in
  schema.types exampleUpdate !! templateKey = Some schema.STemplates
  ∧ schema.tb_id exampleBlock = "5"
  ∧ schema.Get (outgoingWebhookCopyAttrs exampleUpdate in_).2 templateKey
    = schema.VTemplates [withoutId exampleBlock].
Proof.
  assert (schema.types exampleUpdate !! templateKey = Some schema.STemplates) as Hty
    by (vm_compute; reflexivity).
  split; [exact Hty | split; [reflexivity|]].
  exact (template_round_trip exampleUpdate
           (setTemplate (Some (templateOfAttrs exampleBlock)) exampleAnswer)
           exampleBlock Hty eq_refl).
Defined.

(** X16: no request carries the computed [id] of the template, and the body
    template a request carries is a string: a response that echoes the
    template can always be written back. *)
Theorem request_template_has_no_id (d : schema.ResourceData)
    (c : customWebhookTemplateAttributes) :
  CustomWebhookTemplateAttributes (outgoingWebhookCreateRequest d) = Some c
  ∨ CustomWebhookTemplateAttributes (outgoingWebhookUpdateRequest d) = Some c →
  TemplateID c = None ∧ ∃ body, BodyTemplate c = schema.IString body.
Proof.
  rewrite outgoingWebhookCreateRequest_template_Get, outgoingWebhookUpdateRequest_template.
  assert (match schema.Get d templateKey with
          | schema.VTemplates (attrs :: _) => Some (templateOfAttrs attrs)
          | _ => None
          end = Some c → TemplateID c = None ∧ ∃ body, BodyTemplate c = schema.IString body)
    as Hc.
  { destruct (schema.Get d templateKey) as [| | |[|attrs rest]]; try done.
    intros [= <-]. rewrite templateOfAttrs_fields. cbn. eauto. }
  intros [H | H]; [by apply Hc|].
  destruct (schema.HasChange d templateKey); [by apply Hc | done].
Qed.

Lemma request_template_has_no_id_witness :
  let c := templateOfAttrs exampleBlock in
  CustomWebhookTemplateAttributes (outgoingWebhookCreateRequest exampleTemplated) = Some c
  ∧ TemplateID c = None
  ∧ ∃ body, BodyTemplate c = schema.IString body.
Proof.
  assert (CustomWebhookTemplateAttributes (outgoingWebhookCreateRequest exampleTemplated)
          = Some (templateOfAttrs exampleBlock)) as Hc by (vm_compute; reflexivity).
  split; [exact Hc|].
  exact (request_template_has_no_id exampleTemplated (templateOfAttrs exampleBlock)
           (or_introl Hc)).
Defined.

(** X17: a create that the API accepted records the ID the API assigned,
    also when copying the answer back fails; it reports no diagnostic exactly
    when the answer's template can be written back, and it leaves the prior
    state and the schema alone. *)
Theorem outgoingWebhookCreate_records_id
    (resourceCreate : client → string → outgoingWebhook
                      → diag.Diagnostics * outgoingWebhookHTTPResponse)
    (d : schema.ResourceData) (meta : client) (out : outgoingWebhookHTTPResponse) :
  schema.types d = schema.shapes outgoingWebhookSchema →
  resourceCreate meta "/api/v2/outgoing-webhooks" (outgoingWebhookCreateRequest d)
  = ([], out) →
  let created := outgoingWebhookCreate resourceCreate d meta in
  schema.Id created.2 = DataID out
  ∧ (created.1 = [] ↔ writable (DataAttributes out))
  ∧ length created.1 ≤ 1
  ∧ schema.state created.2 = schema.state d
  ∧ schema.types created.2 = schema.types d.
Proof.
  intros Hty Hcreate created.
  assert (created = outgoingWebhookCopyAttrs (schema.SetId (DataID out) d) (DataAttributes out))
    as -> by (unfold created, outgoingWebhookCreate; by rewrite Hcreate).
  destruct (outgoingWebhookCopyAttrs_keeps (schema.SetId (DataID out) d) (DataAttributes out))
    as (Ht & Hi & Hs).
  destruct (outgoingWebhookCopyAttrs_diag (schema.SetId (DataID out) d)
              (DataAttributes out) Hty) as (Hd & Hlen).
  done.
Qed.

Lemma outgoingWebhookCreate_records_id_witness :
  let created := outgoingWebhookCreate objectCreate exampleIncident exampleClient in
  schema.Id exampleIncident = ""
  ∧ ¬ writable exampleAnswerObject
  ∧ schema.Id created.2 = "17"
  ∧ created.1 ≠ []
  ∧ length created.1 ≤ 1
  ∧ schema.state created.2 = schema.state exampleIncident.
Proof.
  assert (¬ writable exampleAnswerObject) as Hn.
  { intros Hw. exact (Hw "map[text:hello]" eq_refl). }
  destruct (outgoingWebhookCreate_records_id objectCreate exampleIncident exampleClient
              {| DataID := "17"; DataAttributes := exampleAnswerObject |} eq_refl eq_refl)
    as (Hid & Hiff & Hlen & Hstate & _).
  split; [reflexivity | split; [exact Hn | split; [exact Hid | split]]].
  - intros Hnil. exact (Hn (proj1 Hiff Hnil)).
  - split; [exact Hlen | exact Hstate].
Defined.


(** X19: validation reads the schema and the values under [trigger_type]
    and the three incident flags, and nothing else: two records that agree
    there are both accepted or both rejected, with the same message. *)
Theorem validateOutgoingWebhook_reads_flags_only (d1 d2 : schema.ResourceData) :
  schema.types d1 = schema.types d2 →
  (∀ k, k ∈ "trigger_type" :: incidentFields → schema.attrs d1 !! k = schema.attrs d2 !! k) →
  validateOutgoingWebhook d1 = validateOutgoingWebhook d2.
Proof.
  intros Hty Hattrs.
  assert (∀ k, k ∈ "trigger_type" :: incidentFields → schema.GetOk d1 k = schema.GetOk d2 k)
    as Hok.
  { intros k Hk. unfold schema.GetOk, schema.Get, schema.zeroOf.
    by rewrite Hty, (Hattrs k Hk). }
  unfold validateOutgoingWebhook, getString.
  assert (schema.Get d1 "trigger_type" = schema.Get d2 "trigger_type") as ->.
  { unfold schema.Get, schema.zeroOf. rewrite Hty, (Hattrs "trigger_type"); [done|].
    apply elem_of_cons. by left. }
  change ["on_incident_started"; "on_incident_acknowledged"; "on_incident_resolved"]
    with incidentFields.
  assert (∀ k, k ∈ incidentFields → schema.GetOk d1 k = schema.GetOk d2 k) as Hflags.
  { intros k Hk. apply Hok, elem_of_cons. by right. }
  revert Hflags. generalize incidentFields. intros fields.
  induction fields as [|field rest IH]; intros Hflags; cbn [validateIncidentFields]; [done|].
  rewrite (Hflags field) by (apply elem_of_cons; by left).
  rewrite IH; [done|]. intros k Hk. apply Hflags, elem_of_cons. by right.
Qed.

Lemma validateOutgoingWebhook_reads_flags_only_witness :
  schema.Get exampleIncident "name" ≠ schema.Get exampleIncidentRenamed "name"
  ∧ validateOutgoingWebhook exampleIncident = validateOutgoingWebhook exampleIncidentRenamed.
Proof.
  split; [vm_compute; discriminate|].
  apply (validateOutgoingWebhook_reads_flags_only exampleIncident exampleIncidentRenamed eq_refl).
  intros k Hk. symmetry. apply lookup_insert_ne. intros <-.
  unfold incidentFields in Hk. rewrite !elem_of_cons, elem_of_nil in Hk.
  decompose [or] Hk; done.
Defined.

(** X20: an update sends nothing a create of the same record would not
    send: every member of the update request is a member, under the same
    key and with the same value, of the create request. *)
Theorem update_sends_part_of_create (d : schema.ResourceData) (x : string) (m : member) :
  (x, m) ∈ marshal (outgoingWebhookUpdateRequest d) →
  (x, m) ∈ marshal (outgoingWebhookCreateRequest d).
Proof.
  rewrite !elem_of_marshal.
  intros [(r & -> & Hm) | (-> & c & Hc & ->)]; [left | right].
  - exists r. split; [done|].
    destruct (decide (r ∈ (outgoingWebhookRef (getString d "trigger_type")).*2)) as [Hr|Hr].
    + apply list_elem_of_fmap in Hr as ([k r'] & Hr' & Hin). cbn in Hr'. subst r'.
      rewrite (outgoingWebhookUpdateRequest_deref d k r Hin) in Hm.
      rewrite (outgoingWebhookCreateRequest_deref d k r Hin).
      destruct (schema.HasChange d k); [done | by destruct r].
    + rewrite outgoingWebhookUpdateRequest_deref_notin in Hm by done. by destruct r.
  - split; [done|]. exists c. split; [|done].
    rewrite outgoingWebhookUpdateRequest_template in Hc.
    rewrite outgoingWebhookCreateRequest_template_Get.
    by destruct (schema.HasChange d templateKey).
Qed.

Lemma update_sends_part_of_create_witness :
  ("name", MString "pager duty") ∈ marshal (outgoingWebhookUpdateRequest exampleUpdate)
  ∧ ("name", MString "pager duty") ∈ marshal (outgoingWebhookCreateRequest exampleUpdate).
Proof.
  assert (("name", MString "pager duty") ∈ marshal (outgoingWebhookUpdateRequest exampleUpdate))
    as Hin by (vm_compute; apply list_elem_of_In; left; reflexivity).
  split; [exact Hin|].
  exact (update_sends_part_of_create exampleUpdate "name" (MString "pager duty") Hin).
Defined.
